(** * pytest-allure3-uploader: the upload client and the pytest plugin,
      embedded and verified

    A shallow embedding of [src/pytest_allure3_uploader/client.py]:
    [AllureUploaderClient.__init__], [zip_allure_results], [upload] and
    [default_meta_from_env], and of [src/pytest_allure3_uploader/plugin.py]:
    [pytest_addoption], [_get_alluredir_if_any], [_get_results_dir],
    [_collect_pytest_stats] and [pytest_sessionfinish]; with the library
    calls they rest on: [str.strip], [str.rstrip], [json.dumps],
    [json.loads] (behind [Response.json]), [int], [float],
    [Response.raise_for_status], [os.getenv], [time.strftime], and
    pathlib's [exists], [is_dir], [is_file], [rglob], [relative_to],
    [as_posix], [name], [read_bytes].

    Modelling choices, stated once:
    - a Python [str] is the list of its Unicode code points ([N]); [bytes]
      is a list of [byte];
    - a Python value that travels through JSON is a [pyval]: [None],
      [bool], [int], [str], [list], and [dict] with [str] keys; one more
      constructor, [PForeign], stands for an object [json.dumps] has no
      form for (a [set], a [bytes]).  [float] is not represented: the
      decoder stops when it meets a number with a fraction or an
      exponent, [NaN] or [Infinity], and a call that runs into one ends
      in [Unmodelled].  Of the interpreter's limits, the 4300 digits of a
      conversion between [int] and [str] are represented as they are;
      the recursion limit, which depends on the stack at the call, is
      represented by a bound below it, [nesting_room], beyond which a
      call ends in [Unmodelled];
    - the file system is a tree of regular files (with the year of their
      last change and whether the process may read them), directories,
      directories the process may not list or search, special files, and
      symbolic links with what they resolve to; a path is the list of
      its components below the root of the tree, and the system refuses
      one whose name or whole length is beyond its limits;
    - a zip archive is the list of its members (name, uncompressed bytes)
      in the order they were written, which is what [namelist] and [read]
      give back; DEFLATE itself is not represented;
    - an exception is a value of [exn], and a function that can raise
      returns [exn + A];
    - the network is a function from the request to what [session.post]
      gives: a response, or one of the ways it ends without one;
      [upload] returns the list of the [session.post] calls it made next
      to its outcome;
    - the environment is a list of variables and the clock a reading of
      [time.gmtime()], both given to the functions that look at them;
    - a [pytest.Config] is its [getoption], which answers or raises, and
      the terminal reporter, if there is one, with its [stats]; the hook
      returns the calls it made on the reporter.  [float] is represented
      on the whole numbers a [float] holds exactly and on texts of ASCII
      digits, [Path(text)] on relative texts without [..]; a run that
      needs more ends in [Unmodelled]. *)

From Stdlib Require Import Decimal DecimalFacts DecimalPos DecimalN.
From Stdlib Require Import NArith ZArith Bool Lia String Ascii List Permutation.
From Stdlib.Strings Require Import Byte.
From Stdlib Require Import QArith_base.
Import ListNotations.

Set Implicit Arguments.

(* ================================================================== *)
(** ** Text: Python [str] as code points *)
(* ================================================================== *)

Module Text.

Local Open Scope N_scope.

Definition str := list N.

(** A Rocq string literal read as ASCII text. *)
Definition cps (s : string) : str :=
  List.map N_of_ascii (list_ascii_of_string s).

Fixpoint str_eqb (a b : str) : bool :=
  match a, b with
  | [], [] => true
  | x :: a', y :: b' => (x =? y) && str_eqb a' b'
  | _, _ => false
  end.

(** [s.startswith(p)] *)
Fixpoint startswith (p s : str) : bool :=
  match p, s with
  | [], _ => true
  | x :: p', y :: s' => (x =? y) && startswith p' s'
  | _ :: _, [] => false
  end.

(** [p in s] for two strings: [p] occurs as a contiguous run of [s]. *)
Fixpoint contains (p s : str) : bool :=
  startswith p s ||
  match s with
  | [] => false
  | _ :: s' => contains p s'
  end.

(** [Py_UNICODE_ISSPACE]: the characters [str.strip()] removes. *)
Definition isspace (c : N) : bool :=
  ((9 <=? c) && (c <=? 13)) || ((28 <=? c) && (c <=? 32)) ||
  (c =? 133) || (c =? 160) || (c =? 5760) ||
  ((8192 <=? c) && (c <=? 8202)) ||
  (c =? 8232) || (c =? 8233) || (c =? 8239) || (c =? 8287) || (c =? 12288).

Fixpoint lstrip_by (f : N -> bool) (s : str) : str :=
  match s with
  | [] => []
  | c :: s' => if f c then lstrip_by f s' else s
  end.

Definition rstrip_by (f : N -> bool) (s : str) : str :=
  rev (lstrip_by f (rev s)).

(** [s.strip()] *)
Definition strip (s : str) : str := rstrip_by isspace (lstrip_by isspace s).

(** [s.rstrip("/")] *)
Definition rstrip_slash (s : str) : str := rstrip_by (N.eqb 47) s.

(** [s.lower()] on the letters A to Z.  Header names are compared with
    ["content-type"] only, and no character outside A to Z lower-cases to
    a letter of that name. *)
Definition lower_char (c : N) : N :=
  if (65 <=? c) && (c <=? 90) then c + 32 else c.

Definition lower (s : str) : str := List.map lower_char s.

(** [sep.join(parts)] *)
Fixpoint join (sep : str) (parts : list str) : str :=
  match parts with
  | [] => []
  | [p] => p
  | p :: ps => p ++ sep ++ join sep ps
  end.

(** A Python [dict] with [str] keys, in insertion order. *)
Section Dict.

Variable A : Type.

(** [d.get(k)] *)
Fixpoint dict_get (k : str) (d : list (str * A)) : option A :=
  match d with
  | [] => None
  | (k', v) :: d' => if str_eqb k' k then Some v else dict_get k d'
  end.

(** [d.get(k, default)] *)
Definition get_default (k : str) (default : A) (d : list (str * A)) : A :=
  match dict_get k d with
  | Some v => v
  | None => default
  end.

(** [d[k] = v]: an existing key keeps its place, a new one goes last. *)
Fixpoint dict_set (k : str) (v : A) (d : list (str * A)) : list (str * A) :=
  match d with
  | [] => [(k, v)]
  | (k', v') :: d' =>
      if str_eqb k' k then (k', v) :: d' else (k', v') :: dict_set k v d'
  end.

End Dict.

(** The keys of a dictionary are pairwise different. *)
Fixpoint distinct (ks : list str) : bool :=
  match ks with
  | [] => true
  | k :: ks' => negb (existsb (str_eqb k) ks') && distinct ks'
  end.

(** A Unicode scalar value: a code point that is not a surrogate. *)
Definition scalar (c : N) : bool :=
  (c <? 55296) || ((57344 <=? c) && (c <? 1114112)).

Definition scalar_str (s : str) : bool := forallb scalar s.

End Text.

Import Text.

(* ================================================================== *)
(** ** JSON: [json.dumps] and [json.loads] with their default options *)
(* ================================================================== *)

Module Json.

Local Open Scope N_scope.

(** The characters of the JSON grammar appear below by code point:
    9, 10, 13 and 32 are the tab, the line feed, the carriage return and
    the space; 34 is the double quote, 44 the comma, 45 the minus sign,
    47 the slash, 48 to 57 the digits, 58 the colon, 91 and 93 the square
    brackets, 92 the backslash, 117 the letter u, 123 and 125 the
    braces. *)

(** The Python values JSON carries: [None], [bool], [int], [str], [list]
    and a [dict] with [str] keys, kept in insertion order; and, for what a
    caller may put into the metadata, [PForeign]: an object of a type
    [json] has no encoding for (a set, [bytes], an instance of a class),
    of which only the truth value is kept. *)
Unset Elimination Schemes.
Inductive pyval : Type :=
| PNone : pyval
| PBool : bool -> pyval
| PInt : Z -> pyval
| PStr : str -> pyval
| PList : list pyval -> pyval
| PDict : list (str * pyval) -> pyval
| PForeign : bool -> pyval.
Set Elimination Schemes.

Definition dict := list (str * pyval).

(** *** Encoder *)

(** One hexadecimal digit, lower case, as ['{0:04x}'.format] prints it. *)
Definition hex_digit (d : N) : N := if d <? 10 then 48 + d else 87 + d.

Definition hex4 (n : N) : str :=
  [hex_digit (n / 4096 mod 16); hex_digit (n / 256 mod 16);
   hex_digit (n / 16 mod 16); hex_digit (n mod 16)].

(** [ '\\u{0:04x}'.format(n) ] *)
Definition u_escape (n : N) : str := 92 :: 117 :: hex4 n.

(** The replacement [py_encode_basestring_ascii] makes for one character:
    [ESCAPE_DCT] first, printable ASCII unchanged, [\uXXXX] otherwise, with
    a surrogate pair above the basic plane. *)
Definition escape_char (c : N) : str :=
  if c =? 34 then [92; 34]
  else if c =? 92 then [92; 92]
  else if c =? 8 then [92; 98]
  else if c =? 12 then [92; 102]
  else if c =? 10 then [92; 110]
  else if c =? 13 then [92; 114]
  else if c =? 9 then [92; 116]
  else if (32 <=? c) && (c <=? 126) then [c]
  else if c <? 65536 then u_escape c
  else
    let n := c - 65536 in
    let s1 := N.lor 55296 (N.land (N.shiftr n 10) 1023) in
    let s2 := N.lor 56320 (N.land n 1023) in
    u_escape s1 ++ u_escape s2.

Fixpoint escape_chars (s : str) : str :=
  match s with
  | [] => []
  | c :: s' => escape_char c ++ escape_chars s'
  end.

Definition encode_basestring_ascii (s : str) : str :=
  34 :: escape_chars s ++ [34].

Definition digit_char (d : N) : N := 48 + d.

Fixpoint chars_of_uint (u : Decimal.uint) : str :=
  match u with
  | Nil => []
  | D0 u' => 48 :: chars_of_uint u'
  | D1 u' => 49 :: chars_of_uint u'
  | D2 u' => 50 :: chars_of_uint u'
  | D3 u' => 51 :: chars_of_uint u'
  | D4 u' => 52 :: chars_of_uint u'
  | D5 u' => 53 :: chars_of_uint u'
  | D6 u' => 54 :: chars_of_uint u'
  | D7 u' => 55 :: chars_of_uint u'
  | D8 u' => 56 :: chars_of_uint u'
  | D9 u' => 57 :: chars_of_uint u'
  end.

(** [int.__repr__]: decimal digits, a leading minus sign when negative. *)
Definition int_repr (z : Z) : str :=
  match z with
  | Z0 => [48]
  | Zpos p => chars_of_uint (N.to_uint (Npos p))
  | Zneg p => 45 :: chars_of_uint (N.to_uint (Npos p))
  end.

Definition item_separator : str := [44; 32].
Definition key_separator : str := [58; 32].

(** The text the default encoder produces for a value.  For a value the
    encoder refuses (see [dumps_refusal]) there is no such text; nothing
    is written where the encoder stops. *)
Fixpoint encode (v : pyval) : str :=
  match v with
  | PNone => cps "null"
  | PBool true => cps "true"
  | PBool false => cps "false"
  | PInt z => int_repr z
  | PStr s => encode_basestring_ascii s
  | PList l => 91 :: join item_separator (List.map encode l) ++ [93]
  | PDict d =>
      123 :: join item_separator
               (List.map (fun kv => let '(k, x) := kv in
                          encode_basestring_ascii k ++ key_separator ++ encode x) d)
          ++ [125]
  | PForeign _ => []
  end.

(** The limits of the interpreter, at their defaults.  An [int] is turned
    into text, and text into an [int], only up to
    [sys.get_int_max_str_digits()] = 4300 digits.  Encoder and decoder
    call themselves once for each level of nesting, up to the recursion
    limit (1000 frames) less what the caller has used; the model takes
    [nesting_room] = 100 levels to be left, and says nothing about values
    nested deeper. *)
Definition max_str_digits : nat := 4300.
Definition nesting_room : nat := 100.

(** The number of decimal digits of an [int]. *)
Definition digits (z : Z) : nat := length (chars_of_uint (N.to_uint (Z.abs_N z))).

(** The levels of nesting of a value: 1 for a value that is no
    container. *)
Fixpoint depth (v : pyval) : nat :=
  match v with
  | PList l => S (fold_right (fun x m => Nat.max (depth x) m) O l)
  | PDict d =>
      S (fold_right (fun kv m => let '(_, x) := kv in Nat.max (depth x) m) O d)
  | _ => 1
  end.

(** Why [json.dumps] raises: [TypeError] for an object it has no encoding
    for, [ValueError] for an [int] of more than 4300 digits,
    [RecursionError] for a value nested too deep. *)
Inductive refusal : Type :=
| NotSerializable
| IntTooLong
| NestedTooDeep.

(** The first value the encoder refuses, in the order it writes. *)
Fixpoint first_refusal (v : pyval) : option refusal :=
  match v with
  | PNone | PBool _ | PStr _ => None
  | PInt z => if (max_str_digits <? digits z)%nat then Some IntTooLong else None
  | PForeign _ => Some NotSerializable
  | PList l =>
      fold_right (fun x later => match first_refusal x with
                                 | Some r => Some r
                                 | None => later
                                 end) None l
  | PDict d =>
      fold_right (fun kv later => let '(_, x) := kv in
                                  match first_refusal x with
                                  | Some r => Some r
                                  | None => later
                                  end) None d
  end.

(** Whether [json.dumps(obj)] raises, and why. *)
Definition dumps_refusal (obj : pyval) : option refusal :=
  if (nesting_room <? depth obj)%nat then Some NestedTooDeep
  else first_refusal obj.

(** One [key: value] member of an encoded dictionary. *)
Definition encode_pair (kv : str * pyval) : str :=
  let '(k, x) := kv in encode_basestring_ascii k ++ key_separator ++ encode x.

(** [json.dumps(obj)]: the document, when [dumps_refusal obj = None]. *)
Definition json_dumps (obj : pyval) : str := encode obj.

(** *** Decoder *)

Definition hex_val (c : N) : option N :=
  if (48 <=? c) && (c <=? 57) then Some (c - 48)
  else if (97 <=? c) && (c <=? 102) then Some (c - 87)
  else if (65 <=? c) && (c <=? 70) then Some (c - 55)
  else None.

(** Four hexadecimal digits, most significant first. *)
Definition decode_hex4 (a b c d : N) : option N :=
  match hex_val a, hex_val b, hex_val c, hex_val d with
  | Some x, Some y, Some z, Some w =>
      Some (N.lor (N.shiftl (N.lor (N.shiftl (N.lor (N.shiftl x 4) y) 4) z) 4) w)
  | _, _, _, _ => None
  end.

Definition is_high_surrogate (c : N) : bool := (55296 <=? c) && (c <=? 56319).
Definition is_low_surrogate (c : N) : bool := (56320 <=? c) && (c <=? 57343).

Definition join_surrogates (hi lo : N) : N :=
  65536 + N.lor (N.shiftl (hi - 55296) 10) (lo - 56320).

(** The letters of [BACKSLASH]. *)
Definition backslash (e : N) : option N :=
  if e =? 34 then Some 34
  else if e =? 92 then Some 92
  else if e =? 47 then Some 47
  else if e =? 98 then Some 8
  else if e =? 102 then Some 12
  else if e =? 110 then Some 10
  else if e =? 114 then Some 13
  else if e =? 116 then Some 9
  else None.

Definition push (c : N) (r : option (str * str)) : option (str * str) :=
  match r with
  | Some (s, rest) => Some (c :: s, rest)
  | None => None
  end.

(** [scanstring] (strict): the text after an opening quote, up to the
    closing one; gives the decoded string and what follows the quote. *)
Fixpoint scanstring (s : str) : option (str * str) :=
  match s with
  | [] => None
  | c :: r =>
      if c =? 34 then Some ([], r)
      else if c =? 92 then
        match r with
        | [] => None
        | e :: r1 =>
            if e =? 117 then
              match r1 with
              | h1 :: h2 :: h3 :: h4 :: r2 =>
                  match decode_hex4 h1 h2 h3 h4 with
                  | None => None
                  | Some uni =>
                      match r2 with
                      | b :: u :: l1 :: l2 :: l3 :: l4 :: ((_ :: _) as r3) =>
                          if is_high_surrogate uni && (b =? 92) && (u =? 117) then
                            match decode_hex4 l1 l2 l3 l4 with
                            | None => None
                            | Some uni2 =>
                                if is_low_surrogate uni2
                                then push (join_surrogates uni uni2) (scanstring r3)
                                else push uni (scanstring r2)
                            end
                          else push uni (scanstring r2)
                      | _ => push uni (scanstring r2)
                      end
                  end
              | _ => None
              end
            else
              match backslash e with
              | Some ch => push ch (scanstring r1)
              | None => None
              end
        end
      else if c <=? 31 then None
      else push c (scanstring r)
  end.

Definition is_digit (c : N) : bool := (48 <=? c) && (c <=? 57).

Definition digit_cons (c : N) (u : Decimal.uint) : Decimal.uint :=
  if c =? 48 then D0 u else if c =? 49 then D1 u
  else if c =? 50 then D2 u else if c =? 51 then D3 u
  else if c =? 52 then D4 u else if c =? 53 then D5 u
  else if c =? 54 then D6 u else if c =? 55 then D7 u
  else if c =? 56 then D8 u else D9 u.

(** The longest run of decimal digits in front of [s], and the rest. *)
Fixpoint span_digits (s : str) : Decimal.uint * str :=
  match s with
  | [] => (Nil, [])
  | c :: r =>
      if is_digit c
      then let '(u, rest) := span_digits r in (digit_cons c u, rest)
      else (Nil, s)
  end.

(** What follows the integer digits makes the literal a [float]: a point
    and a digit, or an exponent mark, an optional sign and a digit. *)
Definition is_float_tail (s : str) : bool :=
  match s with
  | c :: d :: r =>
      if c =? 46 then is_digit d
      else if (c =? 101) || (c =? 69) then
        is_digit d ||
        (((d =? 43) || (d =? 45)) &&
         match r with x :: _ => is_digit x | [] => false end)
      else false
  | _ => false
  end.

Definition int_of_literal (neg : bool) (u : Decimal.uint) : Z :=
  if neg then (- Z.of_N (N.of_uint u))%Z else Z.of_N (N.of_uint u).

(** Why a scanner stops short of an answer or a [JSONDecodeError]: it
    met a literal of type [float] (a number with a fraction or an
    exponent, [NaN], [Infinity]), about which this model says nothing; an
    integer literal of more than 4300 digits ([ValueError]); or a value
    nested deeper than [nesting_room] ([RecursionError] once the
    interpreter's limit is reached). *)
Inductive stop : Type :=
| FloatMet
| TooManyDigits
| TooDeep.

(** What a scanner answers: what it read, an error ([JSONDecodeError]), or
    why it stopped. *)
Inductive scan (A : Type) : Type :=
| Scanned : A -> scan A
| Malformed : scan A
| Stopped : stop -> scan A.

Arguments Malformed {A}.
Arguments Stopped {A}.

Definition finish_number (neg : bool) (u : Decimal.uint) (rest : str)
  : scan (pyval * str) :=
  if is_float_tail rest then Stopped FloatMet
  else if (max_str_digits <? length (chars_of_uint u))%nat then Stopped TooManyDigits
  else Scanned (PInt (int_of_literal neg u), rest).

(** [_match_number]: an optional minus sign, then a single zero or a run
    of digits that does not start with zero. *)
Definition match_number (s : str) : scan (pyval * str) :=
  let '(neg, s1) :=
    match s with
    | c :: r => if c =? 45 then (true, r) else (false, s)
    | [] => (false, s)
    end in
  match s1 with
  | [] => Malformed
  | c :: r =>
      if c =? 48 then finish_number neg (D0 Nil) r
      else if is_digit c
      then let '(u, rest) := span_digits r in finish_number neg (digit_cons c u) rest
      else Malformed
  end.

(** [WHITESPACE.match(s, idx).end()] *)
Fixpoint skip_ws (s : str) : str :=
  match s with
  | [] => []
  | c :: r =>
      if (c =? 32) || (c =? 9) || (c =? 10) || (c =? 13) then skip_ws r else s
  end.

Fixpoint strip_prefix (p s : str) : option str :=
  match p, s with
  | [], _ => Some s
  | x :: p', y :: s' => if x =? y then strip_prefix p' s' else None
  | _ :: _, [] => None
  end.

(** The constants [scan_once] knows by name. *)
Definition match_constant (s : str) : option (scan (pyval * str)) :=
  match strip_prefix (cps "null") s with
  | Some rest => Some (Scanned (PNone, rest))
  | None =>
  match strip_prefix (cps "true") s with
  | Some rest => Some (Scanned (PBool true, rest))
  | None =>
  match strip_prefix (cps "false") s with
  | Some rest => Some (Scanned (PBool false, rest))
  | None =>
      if startswith (cps "NaN") s || startswith (cps "Infinity") s
         || startswith (cps "-Infinity") s
      then Some (Stopped FloatMet)
      else None
  end end end.

(** [scan_once], [_parse_object] and [_parse_array].  The three call each
    other on what is left of the text; [fuel] bounds the number of calls,
    and the length of the text is always enough (see [json_loads]).
    [room] is the number of levels of nesting the interpreter still lets
    [scan_once] enter: each value takes one, for as long as it is being
    read. *)
Fixpoint scan_once (fuel : nat) (room : nat) (s : str) {struct fuel}
  : scan (pyval * str) :=
  match fuel with
  | O => Malformed
  | S fuel' =>
      match room with
      | O => Stopped TooDeep
      | S room' =>
          match s with
          | [] => Malformed
          | c :: r =>
              if c =? 34 then
                match scanstring r with
                | Some (t, rest) => Scanned (PStr t, rest)
                | None => Malformed
                end
              else if c =? 123 then
                match skip_ws r with
                | [] => Malformed
                | (c1 :: r1) as s1 =>
                    if c1 =? 125 then Scanned (PDict [], r1)
                    else parse_pairs fuel' room' [] s1
                end
              else if c =? 91 then
                match skip_ws r with
                | [] => Malformed
                | (c1 :: r1) as s1 =>
                    if c1 =? 93 then Scanned (PList [], r1)
                    else parse_items fuel' room' [] s1
                end
              else
                match match_constant s with
                | Some answer => answer
                | None => match_number s
                end
          end
      end
  end

with parse_pairs (fuel : nat) (room : nat) (acc : dict) (s : str) {struct fuel}
  : scan (pyval * str) :=
  match fuel with
  | O => Malformed
  | S fuel' =>
      match s with
      | [] => Malformed
      | q :: r =>
          if q =? 34 then
            match scanstring r with
            | None => Malformed
            | Some (k, r1) =>
                match skip_ws r1 with
                | [] => Malformed
                | c2 :: r2 =>
                    if c2 =? 58 then
                      match scan_once fuel' room (skip_ws r2) with
                      | Scanned (v, r3) =>
                          let acc' := dict_set k v acc in
                          match skip_ws r3 with
                          | [] => Malformed
                          | c3 :: r4 =>
                              if c3 =? 125 then Scanned (PDict acc', r4)
                              else if c3 =? 44
                              then parse_pairs fuel' room acc' (skip_ws r4)
                              else Malformed
                          end
                      | Malformed => Malformed
                      | Stopped why => Stopped why
                      end
                    else Malformed
                end
            end
          else Malformed
      end
  end

with parse_items (fuel : nat) (room : nat) (acc : list pyval) (s : str)
    {struct fuel} : scan (pyval * str) :=
  match fuel with
  | O => Malformed
  | S fuel' =>
      match scan_once fuel' room s with
      | Scanned (v, r1) =>
          let acc' := acc ++ [v] in
          match skip_ws r1 with
          | [] => Malformed
          | c :: r2 =>
              if c =? 93 then Scanned (PList acc', r2)
              else if c =? 44 then parse_items fuel' room acc' (skip_ws r2)
              else Malformed
          end
      | Malformed => Malformed
      | Stopped why => Stopped why
      end
  end.

(** [json.loads(s)] for a [str]: no byte-order mark, one value between
    optional whitespace, nothing after it. *)
Definition json_loads (s : str) : scan pyval :=
  if startswith [65279] s then Malformed
  else
    match scan_once (S (length s)) nesting_room (skip_ws s) with
    | Scanned (v, rest) =>
        match skip_ws rest with
        | [] => Scanned v
        | _ :: _ => Malformed
        end
    | Malformed => Malformed
    | Stopped why => Stopped why
    end.

(** What can follow a value inside a document: the end of the text, a
    comma or a closing bracket. *)
Definition delimited (rest : str) : Prop :=
  match rest with
  | [] => True
  | c :: _ => c = 44 \/ c = 93 \/ c = 125
  end.

(** The dictionary [_parse_object] builds from the members it reads, one
    assignment after the other. *)
Definition dict_of_pairs (acc d : dict) : dict :=
  fold_left (fun a kv => dict_set (fst kv) (snd kv) a) d acc.

(** [scan_once] reads [v] back from its encoding, whatever the fuel above
    the length of the text, whatever the room above the depth of [v] and
    whatever delimited text follows. *)
Definition reads_back (v : pyval) : Prop :=
  forall (fuel room : nat) (rest : str),
    (length (encode v) <= fuel)%nat -> (depth v <= room)%nat -> delimited rest ->
    scan_once fuel room (encode v ++ rest) = Scanned (v, rest).

(** A numeral that is not empty and does not start with zero. *)
Definition leading (u : Decimal.uint) : Prop :=
  match u with
  | Nil | D0 _ => False
  | _ => True
  end.

(** The first character of an encoded value. *)
Definition value_start (c : N) : Prop :=
  c = 110 \/ c = 116 \/ c = 102 \/ c = 34 \/ c = 91 \/ c = 123 \/
  c = 45 \/ is_digit c = true.

(** [Py_ISSPACE]: the characters [int] skips around the text of a
    number: tab, line feed, vertical tab, form feed, carriage return and
    space. *)
Definition c_isspace (c : N) : bool := ((9 <=? c) && (c <=? 13)) || (c =? 32).

(** [int(s)] for an ASCII [str] in base ten: surrounding whitespace, an
    optional sign, then digits, where single underscores may sit between
    digits; no more than 4300 digits.  [None] is [ValueError]. *)
Fixpoint int_digits (acc : Z) (prev_digit : bool) (s : str) : option Z :=
  match s with
  | [] => if prev_digit then Some acc else None
  | c :: r =>
      if is_digit c then int_digits (acc * 10 + Z.of_N (c - 48))%Z true r
      else if (c =? 95) && prev_digit then
        match r with
        | d :: _ => if is_digit d then int_digits acc false r else None
        | [] => None
        end
      else None
  end.

Definition is_ascii (s : str) : bool := forallb (fun c => c <? 128) s.

Definition int_of_str (s : str) : option Z :=
  let text := rstrip_by c_isspace (lstrip_by c_isspace s) in
  if (max_str_digits <? length (filter is_digit text))%nat then None
  else
    match text with
    | [] => None
    | c :: r =>
        if c =? 45 then option_map Z.opp (int_digits 0%Z false r)
        else if c =? 43 then int_digits 0%Z false r
        else int_digits 0%Z false (c :: r)
    end.

(** Values of the types JSON carries, whose dictionaries have pairwise
    different keys and whose strings hold Unicode scalar values only: the
    [str]-keyed data that Python can hold and UTF-8 can carry. *)
Fixpoint wf_pyval (v : pyval) : bool :=
  match v with
  | PNone | PBool _ | PInt _ => true
  | PStr s => scalar_str s
  | PList l => forallb wf_pyval l
  | PDict d =>
      distinct (List.map fst d) &&
      forallb (fun kv => let '(k, x) := kv in scalar_str k && wf_pyval x) d
  | PForeign _ => false
  end.

End Json.

Import Json.

(* ================================================================== *)
(** ** Files: pathlib and zipfile *)
(* ================================================================== *)

Module Fs.

Local Open Scope N_scope.

Definition bytes := list byte.

(** What [os.stat] and [open] tell about a regular file, as far as the
    code depends on it: the year of its last modification in local time,
    and whether the process may read it. *)
Record fstat : Type := mkStat {
  mtime_year : N;
  may_read : bool
}.

(** What a directory other than an ordinary one withholds from the
    process: its listing (mode [--x]), the way to its entries (mode
    [r--]), or both (mode [---]). *)
Inductive access : Type :=
| NoList
| NoSearch
| NoAccess.

(** The errors of the operating system that pathlib does not turn into
    an answer. *)
Inductive os_error : Type :=
| EACCES
| ENAMETOOLONG.

(** What following a path, or a symbolic link, arrives at: a node; no
    node ([ENOENT], [ENOTDIR], [ELOOP]); or an error. *)
Inductive found (A : Type) : Type :=
| Found : A -> found A
| Missing : found A
| Failed : os_error -> found A.

Arguments Missing {A}.
Arguments Failed {A}.

(** A node of the file tree: a regular file with its content; a directory
    the process may list and search, with its entries in the order
    [scandir] lists them; anything else that is no link (a FIFO, a
    socket, a device); a symbolic link with what it resolves to; a
    directory that withholds something. *)
Unset Elimination Schemes.
Inductive node : Type :=
| File : fstat -> bytes -> node
| Dir : list (str * node) -> node
| Special : node
| Link : found node -> node
| Shut : access -> list (str * node) -> node.
Set Elimination Schemes.

(** A [Path]: its components, resolved from the root of the tree. *)
Definition path := list str.

(** [sep.join(parts)] is in [Text]; [p.as_posix()] and [str(p)]: *)
Definition as_posix (p : path) : str :=
  match p with
  | [] => [46]
  | _ => join [47] p
  end.

(** The node a node stands for once links are followed. *)
Fixpoint resolve (n : node) : found node :=
  match n with
  | Link t =>
      match t with
      | Found n' => resolve n'
      | Missing => Missing
      | Failed e => Failed e
      end
  | _ => Found n
  end.

(** The bytes [os.fsencode] makes of a character: UTF-8, with the
    characters U+DC80 to U+DCFF standing for one undecodable byte
    each. *)
Definition byte_length_char (c : N) : N :=
  if c <? 128 then 1
  else if c <? 2048 then 2
  else if (56448 <=? c) && (c <=? 56575) then 1
  else if c <? 65536 then 3
  else 4.

Definition byte_length (s : str) : N :=
  fold_right (fun c n => byte_length_char c + n) 0 s.

(** A character [os.fsencode] and the system accept in a path: not NUL,
    and no surrogate code point other than U+DC80 to U+DCFF. *)
Definition os_char (c : N) : bool :=
  negb (c =? 0) && (scalar c || ((56448 <=? c) && (c <=? 56575))).

(** The limits of the system on names and paths, [NAME_MAX] and
    [PATH_MAX] less the final NUL. *)
Definition name_max : N := 255.
Definition path_max : N := 4095.

(** The walk of the system along the components of a path, links
    followed. *)
Fixpoint walk (n : node) (p : path) : found node :=
  match p with
  | [] => resolve n
  | c :: p' =>
      match resolve n with
      | Found (Dir es) | Found (Shut NoList es) =>
          if name_max <? byte_length c then Failed ENAMETOOLONG
          else
            match dict_get c es with
            | Some n' => walk n' p'
            | None => Missing
            end
      | Found (Shut NoSearch _) | Found (Shut NoAccess _) => Failed EACCES
      | Found (File _ _) | Found Special | Found (Link _) => Missing
      | Missing => Missing
      | Failed e => Failed e
      end
  end.

(** [os.stat(p)] as pathlib sees it: a path that cannot be encoded makes
    pathlib answer as for a path that is not there; a path longer than
    [PATH_MAX] is refused before the walk. *)
Definition stat (fs : node) (p : path) : found node :=
  if negb (forallb os_char (as_posix p)) then Missing
  else if path_max <? byte_length (as_posix p) then Failed ENAMETOOLONG
  else walk fs p.

(** A path the system walks along: one that can be encoded and is not
    too long. *)
Definition accepted (p : path) : bool :=
  forallb os_char (as_posix p) && (byte_length (as_posix p) <=? path_max).

(** The node at a path, when [os.stat] finds one. *)
Definition lookup (fs : node) (p : path) : option node :=
  match stat fs p with
  | Found n => Some n
  | _ => None
  end.

(** What [p.exists()], [p.is_dir()] and [p.is_file()] answer when
    [os.stat] does not fail. *)
Definition exists_ (fs : node) (p : path) : bool :=
  match lookup fs p with Some _ => true | None => false end.

Definition is_dir (fs : node) (p : path) : bool :=
  match lookup fs p with Some (Dir _) | Some (Shut _ _) => true | _ => false end.

Definition is_file (fs : node) (p : path) : bool :=
  match lookup fs p with Some (File _ _) => true | _ => false end.

(** What [p.read_bytes()] returns when it returns. *)
Definition read_bytes (fs : node) (p : path) : option bytes :=
  match lookup fs p with
  | Some (File st data) => if may_read st then Some data else None
  | _ => None
  end.

(** [p.name] *)
Definition name (p : path) : str := last p [].

(** [q.relative_to(p)] *)
Fixpoint relative_to (p q : path) : option path :=
  match p, q with
  | [], _ => Some q
  | x :: p', y :: q' => if str_eqb x y then relative_to p' q' else None
  | _ :: _, [] => None
  end.

(** The paths [rglob("*")] yields below the node [n] found at [here]:
    every entry of the directory, then the same for each subdirectory in
    turn (the walk of CPython 3.11).  A symbolic link is an entry like
    any other, but the walk does not go down a link to a directory.  A
    directory that can be listed but not searched yields its entries
    and nothing below them; one that cannot be listed yields nothing,
    and so does a node that is not a directory. *)
Fixpoint rglob_node (here : path) (n : node) : list path :=
  match n with
  | Dir es =>
      List.map (fun e => here ++ [fst e]) es ++
      flat_map (fun e => let '(nm, c) := e in rglob_node (here ++ [nm]) c) es
  | Shut NoSearch es => List.map (fun e => here ++ [fst e]) es
  | _ => []
  end.

(** [p.rglob("*")] *)
Definition rglob (fs : node) (p : path) : list path :=
  match lookup fs p with
  | Some n => rglob_node p n
  | None => []
  end.

(** A zip archive as [namelist()] and [read()] show it. *)
Definition member := (str * bytes)%type.
Definition archive := list member.

(** The member [zip_allure_results] writes for the file at the relative
    path [rel]. *)
Definition member_of (f : path * bytes) : member := (as_posix (fst f), snd f).

(** The content of the regular file a node is or, being a link, resolves
    to. *)
Definition file_content (n : node) : option bytes :=
  match resolve n with
  | Found (File _ data) => Some data
  | _ => None
  end.

(** The regular file a directory entry is or links to, if any. *)
Definition direct_file (here : path) (e : str * node) : list (path * bytes) :=
  match file_content (snd e) with
  | Some data => [(here ++ [fst e], data)]
  | None => []
  end.

(** The regular files below a directory, and the links to regular files,
    with their paths, in the order of the walk: those of the directory
    itself, then those of each subdirectory. *)
Fixpoint files_below (here : path) (n : node) : list (path * bytes) :=
  match n with
  | Dir es =>
      flat_map (direct_file here) es ++
      flat_map (fun e => let '(nm, c) := e in files_below (here ++ [nm]) c) es
  | _ => []
  end.

(** The regular files below a node, counted; links are not followed. *)
Fixpoint count_files (n : node) : nat :=
  match n with
  | File _ _ => 1
  | Dir es => list_sum (List.map (fun e => count_files (snd e)) es)
  | _ => 0
  end.

(** The symbolic links below a node that resolve to a regular file,
    counted. *)
Fixpoint count_file_links (n : node) : nat :=
  match n with
  | Link t =>
      match file_content (Link t) with
      | Some _ => 1
      | None => 0
      end
  | Dir es => list_sum (List.map (fun e => count_file_links (snd e)) es)
  | _ => 0
  end.

(** [file_at n rel data]: following the names [rel] down from [n], from
    directory to directory, ends at a regular file that holds [data], or
    at a symbolic link that resolves to one. *)
Inductive file_at : node -> path -> bytes -> Prop :=
| file_here : forall n data,
    file_content n = Some data -> file_at n [] data
| file_below : forall es nm c rel data,
    In (nm, c) es -> file_at c rel data -> file_at (Dir es) (nm :: rel) data.

(** A name a directory entry can have. *)
Definition valid_name (nm : str) : bool :=
  negb (str_eqb nm []) && negb (existsb (N.eqb 47) nm) &&
  negb (str_eqb nm [46]) && negb (str_eqb nm [46; 46]) &&
  forallb os_char nm && (byte_length nm <=? name_max).

(** Every directory lists each name once. *)
Fixpoint wf_node (n : node) : bool :=
  match n with
  | Dir es | Shut _ es =>
      distinct (List.map fst es) &&
      forallb (fun e => let '(nm, c) := e in valid_name nm && wf_node c) es
  | _ => true
  end.

(** A regular file [ZipFile.write] accepts: last modified from 1980 to
    2107, and readable. *)
Definition zippable_file (st : fstat) : bool :=
  (1980 <=? mtime_year st) && (mtime_year st <=? 2107) && may_read st.

(** A tree the archiver meets no obstacle in: every directory can be
    listed and searched, every regular file, also at the end of a link,
    is one [ZipFile.write] accepts, no link ends in an error, and no name
    holds an undecodable byte. *)
Fixpoint zippable (n : node) : bool :=
  match n with
  | File st _ => zippable_file st
  | Dir es =>
      forallb (fun e => let '(nm, c) := e in scalar_str nm && zippable c) es
  | Special => true
  | Link t =>
      match resolve (Link t) with
      | Found (File st _) => zippable_file st
      | Failed _ => false
      | _ => true
      end
  | Shut _ _ => false
  end.

End Fs.

Import Fs.

(* ================================================================== *)
(** ** The client: [client.py] *)
(* ================================================================== *)

Module Client.

Local Open Scope N_scope.

(** How a request can fail with a [RequestException] before a response
    exists. *)
Inductive transport_failure : Type :=
| ConnectionFailed
| TimedOut
| InvalidURL.

(** The exceptions a call can end in, each constructor one class: the
    [ValueError] here is the class itself, not [UnicodeEncodeError] or
    [JSONDecodeError] below it, and [OSError] is neither
    [FileNotFoundError] nor [PermissionError].  [StructError] is
    [struct.error].  [Unmodelled] is none of Python's: it marks a call
    that left what this model represents (a [float], text for [int] that
    is not ASCII, nesting deeper than [nesting_room], an absolute path in
    the hook); nothing is claimed about such a call. *)
Inductive exn : Type :=
| FileNotFoundError (msg : str)
| PermissionError
| OSError
| ValueError
| UnicodeEncodeError
| StructError
| TypeError
| AttributeError
| RequestException (why : transport_failure)
| HTTPError (status_code : N)
| RuntimeError (msg : str)
| JSONDecodeError
| Unmodelled.

Definition result (A : Type) := (exn + A)%type.

Definition bind {A B : Type} (r : result A) (k : A -> result B) : result B :=
  match r with
  | inl e => inl e
  | inr a => k a
  end.

Notation "'try' x ':=' r 'in' k" := (bind r (fun x => k))
  (at level 10, x name, r at level 200, k at level 200).

(** The dataclass [UploadResult].  The fields hold what [data.get]
    returned, whatever its type. *)
Record UploadResult : Type := mkUploadResult {
  project : pyval;
  run_id : Z;
  ui_url : pyval;
  latest_url : pyval;
  status : pyval;
  error : pyval
}.

(** What a multipart part carries. *)
Inductive payload : Type :=
| ZipBytes (a : archive)
| TextBody (s : str)
| RawBytes (b : bytes).

(** One entry of [files]: [(filename, content, content_type)]. *)
Record part : Type := mkPart {
  filename : option str;
  body : payload;
  content_type : str
}.

(** The arguments of one [session.post] call. *)
Record request : Type := mkRequest {
  url : str;
  files : list (str * part);
  timeout : Q;
  verify : bool
}.

Record Response : Type := mkResponse {
  resp_status : N;
  resp_headers : list (str * str);
  resp_text : str
}.

Record AllureUploaderClient : Type := mkClient {
  base_url : str;
  timeout_s : Q;
  verify_tls : bool;
  session_headers : list (str * str)
}.

(** [AllureUploaderClient.__init__] *)
Definition init (base : str) (timeout_s : Q) (verify_tls : bool)
    (headers : option (list (str * str))) : AllureUploaderClient :=
  {| base_url := rstrip_slash base;
     timeout_s := timeout_s;
     verify_tls := verify_tls;
     session_headers := match headers with Some h => h | None => [] end |}.

(** [resp.headers.get(k, default)]: header names compare without case. *)
Fixpoint headers_get (k default : str) (h : list (str * str)) : str :=
  match h with
  | [] => default
  | (k', v) :: h' =>
      if str_eqb (lower k') (lower k) then v else headers_get k default h'
  end.

(** [resp.raise_for_status()]: [None] when it returns. *)
Definition raise_for_status (resp : Response) : option exn :=
  let sc := resp_status resp in
  if ((400 <=? sc) && (sc <? 500)) || ((500 <=? sc) && (sc <? 600))
  then Some (HTTPError sc)
  else None.

(** [resp.json()] *)
Definition json (resp : Response) : result pyval :=
  match json_loads (resp_text resp) with
  | Scanned v => inr v
  | Malformed => inl JSONDecodeError
  | Stopped TooManyDigits => inl ValueError
  | Stopped FloatMet => inl Unmodelled
  | Stopped TooDeep => inl Unmodelled
  end.

(** [int(x)] *)
Definition py_int (x : pyval) : result Z :=
  match x with
  | PInt n => inr n
  | PBool b => inr (if b then 1 else 0)%Z
  | PStr s =>
      if is_ascii s then
        match int_of_str s with
        | Some n => inr n
        | None => inl ValueError
        end
      else inl Unmodelled
  | PNone | PList _ | PDict _ => inl TypeError
  | PForeign _ => inl Unmodelled
  end.

(** [data.get]: of the values JSON carries only a [dict] has it. *)
Definition as_dict (data : pyval) : result dict :=
  match data with
  | PDict d => inr d
  | PForeign _ => inl Unmodelled
  | _ => inl AttributeError
  end.

(** The exception an error of the system is raised as. *)
Definition os_exn (e : os_error) : exn :=
  match e with
  | EACCES => PermissionError
  | ENAMETOOLONG => OSError
  end.

(** [p.exists()], [p.is_dir()], [p.is_file()]: pathlib answers [False]
    where the path leads nowhere and lets every other error of
    [os.stat] through. *)
Definition path_exists (fs : node) (p : path) : result bool :=
  match stat fs p with
  | Failed e => inl (os_exn e)
  | _ => inr (exists_ fs p)
  end.

Definition path_is_dir (fs : node) (p : path) : result bool :=
  match stat fs p with
  | Failed e => inl (os_exn e)
  | _ => inr (is_dir fs p)
  end.

Definition path_is_file (fs : node) (p : path) : result bool :=
  match stat fs p with
  | Failed e => inl (os_exn e)
  | _ => inr (is_file fs p)
  end.

(** [not p.exists() or not p.is_dir()], and the same with [is_file]. *)
Definition not_a_dir (fs : node) (p : path) : result bool :=
  try ex := path_exists fs p in
  if negb ex then inr true
  else try d := path_is_dir fs p in inr (negb d).

Definition not_a_file (fs : node) (p : path) : result bool :=
  try ex := path_exists fs p in
  if negb ex then inr true
  else try f := path_is_file fs p in inr (negb f).

(** [p.read_bytes()] *)
Definition path_read_bytes (fs : node) (p : path) : result bytes :=
  match stat fs p with
  | Found (File st data) => if may_read st then inr data else inl PermissionError
  | Found _ => inl Unmodelled
  | Missing => inl (FileNotFoundError (as_posix p))
  | Failed e => inl (os_exn e)
  end.

(** [zf.write(file_path, arcname=arcname)]: the file is read and added
    as the last member.  [ZipInfo.from_file] refuses a file last modified
    before 1980 ([ValueError]); [open] refuses one the process may not
    read; the header cannot be written for a name with a surrogate code
    point ([UnicodeEncodeError]) or a year after 2107 ([struct.error]);
    in this order.  The names of directory entries are left as they are
    by the normalisation [ZipInfo.from_file] applies. *)
Definition zf_write (fs : node) (file_path : path) (arcname : str)
    (zf : archive) : result archive :=
  match stat fs file_path with
  | Found (File st data) =>
      if mtime_year st <? 1980 then inl ValueError
      else if negb (may_read st) then inl PermissionError
      else if negb (scalar_str arcname) then inl UnicodeEncodeError
      else if 2107 <? mtime_year st then inl StructError
      else inr (zf ++ [(arcname, data)])
  | Found _ => inl Unmodelled
  | Missing => inl (FileNotFoundError (as_posix file_path))
  | Failed e => inl (os_exn e)
  end.

(** One turn of the loop of [zip_allure_results]: a regular file is
    written under its path relative to [p]; anything else is skipped. *)
Definition zip_step (fs : node) (p : path) (zf : result archive)
    (file_path : path) : result archive :=
  try a := zf in
  try f := path_is_file fs file_path in
  if f then
    match relative_to p file_path with
    | Some rel => zf_write fs file_path (as_posix rel) a
    | None => inl ValueError
    end
  else inr a.

(** [AllureUploaderClient.zip_allure_results] *)
Definition zip_allure_results (fs : node) (results_dir : path) : result archive :=
  let p := results_dir in
  try missing := not_a_dir fs p in
  if missing
  then inl (FileNotFoundError (cps "allure results dir not found: " ++ as_posix p))
  else fold_left (zip_step fs p) (rglob fs p) (inr []).

(** The [config] argument: absent, a [str], or a [Path]. *)
Inductive config_arg : Type :=
| ConfigStr (s : str)
| ConfigPath (p : path).

(** The tuples [upload] stores in [files]. *)
Definition results_part (zip_bytes : archive) : part :=
  mkPart (Some (cps "allure-results.zip")) (ZipBytes zip_bytes)
         (cps "application/zip").

Definition meta_part (meta : dict) : part :=
  mkPart None (TextBody (json_dumps (PDict meta))) (cps "application/json").

Definition inline_config_part (cfg_text : str) : part :=
  mkPart (Some (cps "allure.config.mjs")) (TextBody cfg_text)
         (cps "text/javascript").

Definition file_config_part (cfg_name : str) (cfg_bytes : bytes) : part :=
  mkPart (Some cfg_name) (RawBytes cfg_bytes) (cps "text/javascript").

(** The [if config is not None:] block: the [files] dictionary after it. *)
Definition add_config (fs : node) (config : option config_arg)
    (files : list (str * part)) : result (list (str * part)) :=
  match config with
  | None => inr files
  | Some (ConfigStr s) =>
      let cfg_text := strip s in
      match cfg_text with
      | [] => inr files
      | _ :: _ => inr (dict_set (cps "config") (inline_config_part cfg_text) files)
      end
  | Some (ConfigPath cfg_path) =>
      try missing := not_a_file fs cfg_path in
      if missing
      then inl (FileNotFoundError (cps "config file not found: " ++ as_posix cfg_path))
      else
        try cfg_bytes := path_read_bytes fs cfg_path in
        inr (dict_set (cps "config")
               (file_config_part (name cfg_path) cfg_bytes) files)
  end.

(** [meta or {}] *)
Definition meta_or_empty (meta : option dict) : dict :=
  match meta with
  | Some ((_ :: _) as m) => m
  | _ => []
  end.

(** The part of [upload] after the response arrived. *)
Definition read_response (project : str) (resp : Response) : result UploadResult :=
  let content_type := headers_get (cps "content-type") [] (resp_headers resp) in
  if negb (contains (cps "application/json") content_type) then
    match raise_for_status resp with
    | Some e => inl e
    | None =>
        inl (RuntimeError (cps "Unexpected response content-type: " ++ content_type))
    end
  else
    try data := json resp in
    try d := as_dict data in
    try rid := py_int (get_default (cps "run_id") (PInt 0) d) in
    inr {| project := get_default (cps "project") (PStr project) d;
           run_id := rid;
           ui_url := get_default (cps "ui_url") (PStr []) d;
           latest_url := get_default (cps "latest_url") (PStr []) d;
           status := get_default (cps "status") (PStr (cps "unknown")) d;
           error := get_default (cps "error") PNone d |}.

(** A status of the form 2xx.  [raise_for_status] lets these through, and
    with them the statuses below 200, from 300 to 399 and from 600. *)
Definition is_2xx (sc : N) : bool := (200 <=? sc) && (sc <? 300).

(** How [session.post] can end without a response: a
    [RequestException]; [ValueError] for a timeout that is not a positive
    number, raised before anything is sent; [OSError] when no bundle of
    certificates is found. *)
Inductive post_failure : Type :=
| NoAnswer (why : transport_failure)
| BadTimeout
| NoCertificates.

Definition post_exn (f : post_failure) : exn :=
  match f with
  | NoAnswer why => RequestException why
  | BadTimeout => ValueError
  | NoCertificates => OSError
  end.

(** The network: what [session.post] does with a request. *)
Definition transport := request -> post_failure + Response.

(** What [json.dumps] raises. *)
Definition dumps_exn (r : refusal) : exn :=
  match r with
  | NotSerializable => TypeError
  | IntTooLong => ValueError
  | NestedTooDeep => Unmodelled
  end.

(** [AllureUploaderClient.upload].  The first component lists the calls
    of [session.post] in order, the second is the value returned or the
    exception raised. *)
Definition upload (self : AllureUploaderClient) (fs : node) (net : transport)
    (project : str) (results_dir : path) (meta : option dict)
    (config : option config_arg) : list request * result UploadResult :=
  let meta := meta_or_empty meta in
  let url := base_url self ++ cps "/api/v1/projects/" ++ project ++ cps "/runs" in
  match zip_allure_results fs results_dir with
  | inl e => ([], inl e)
  | inr zip_bytes =>
      match dumps_refusal (PDict meta) with
      | Some r => ([], inl (dumps_exn r))
      | None =>
          let files :=
            [(cps "results", results_part zip_bytes); (cps "meta", meta_part meta)] in
          match add_config fs config files with
          | inl e => ([], inl e)
          | inr files =>
              let req := {| url := url; files := files;
                            timeout := timeout_s self; verify := verify_tls self |} in
              match net req with
              | inl f => ([req], inl (post_exn f))
              | inr resp => ([req], read_response project resp)
              end
          end
      end
  end.

End Client.
Import Client.

(* ================================================================== *)
(** ** A small world to run the client in *)
(* ================================================================== *)

Module Demo.

Local Open Scope N_scope.

(** A file of this year that the process may read. *)
Definition plain : fstat := mkStat 2026 true.

(** [allure-results/] holds three regular files at depths one to three, an
    empty directory and a FIFO; next to it sit a config file and a note. *)
Definition results_entries : list (str * node) :=
  [(cps "a-result.json", File plain [x7b; x7d]);
   (cps "attachments",
    Dir [(cps "shot.png", File plain [x89; x50; x4e; x47]);
         (cps "deep", Dir [(cps "log.txt", File plain [x6f; x6b; x0a])]);
         (cps "empty", Dir [])]);
   (cps "pipe", Special)].

(** [linked/] holds one regular file and four symbolic links: to that
    file, to a file outside the directory, to a directory outside it,
    and to nothing. *)
Definition linked_entries : list (str * node) :=
  [(cps "a.txt", File plain [x41]);
   (cps "copy.txt", Link (Found (File plain [x41])));
   (cps "out.txt", Link (Found (File plain [x4f])));
   (cps "dir", Link (Found (Dir [(cps "in.txt", File plain [x49])])));
   (cps "gone", Link Missing)].

(** [old/] holds a file last modified in 1970; [sealed/] a directory
    with a file in it that the process may neither list nor search. *)
Definition old_entries : list (str * node) :=
  [(cps "x", File (mkStat 1970 true) [x78])].

Definition sealed_entries : list (str * node) :=
  [(cps "top.txt", File plain [x54]);
   (cps "d", Shut NoAccess [(cps "f.txt", File plain [x46])])].

Definition fs : node :=
  Dir [(cps "allure-results", Dir results_entries);
       (cps "conf", Dir [(cps "allure.config.mjs", File plain [x65; x78; x70])]);
       (cps "notes.txt", File plain [x68; x69]);
       (cps "linked", Dir linked_entries);
       (cps "old", Dir old_entries);
       (cps "sealed", Dir sealed_entries)].

Definition results_dir : path := [cps "allure-results"].

(** [AllureUploaderClient("http://allure.local/")] *)
Definition client : AllureUploaderClient :=
  init (cps "http://allure.local/") (60 # 1)%Q true None.

(** A server that answers every request the same way. *)
Definition answer (status : N) (ctype body : str) : transport :=
  fun _ => inr (mkResponse status [(cps "Content-Type", ctype)] body).

Definition json_type : str := cps "application/json".
Definition html_type : str := cps "text/html".

Definition meta : dict :=
  [(cps "trigger", PStr (cps "local"));
   (cps "branch", PNone);
   (cps "pytest_exitstatus", PInt 1);
   (cps "pytest_stats", PDict [(cps "passed", PInt 12); (cps "failed", PInt 1)])].

(** The archive of [allure-results/]. *)
Definition results_zip : archive :=
  [(cps "a-result.json", [x7b; x7d]);
   (cps "attachments/shot.png", [x89; x50; x4e; x47]);
   (cps "attachments/deep/log.txt", [x6f; x6b; x0a])].

(** The request of [client.upload("p1", Path("allure-results"))]. *)
Definition plain_request : request :=
  {| url := cps "http://allure.local/api/v1/projects/p1/runs";
     files := [(cps "results", results_part results_zip);
               (cps "meta", meta_part [])];
     timeout := (60 # 1)%Q;
     verify := true |}.

(** Two answers of the service, as documents. *)
Definition accepted_body : str :=
  json_dumps (PDict [(cps "project", PStr (cps "p1")); (cps "run_id", PInt 42);
                     (cps "ui_url", PStr (cps "/x"));
                     (cps "latest_url", PStr (cps "/y"));
                     (cps "status", PStr (cps "ok"))]).

Definition negative_body : str :=
  json_dumps (PDict [(cps "run_id", PInt (-7)); (cps "status", PStr (cps "ok"))]).

Definition failed_body : str :=
  json_dumps (PDict [(cps "status", PStr (cps "failed"));
                     (cps "error", PStr (cps "report generation failed"))]).

End Demo.

(* ================================================================== *)
(** ** The environment: [default_meta_from_env] of [client.py] *)
(* ================================================================== *)

Module Environ.

Local Open Scope N_scope.

(** [os.environ] *)
Definition environ := list (str * str).

(** [os.getenv(k)] *)
Definition getenv (env : environ) (k : str) : pyval :=
  match dict_get k env with
  | Some v => PStr v
  | None => PNone
  end.

(** [os.getenv(k, default)] *)
Definition getenv_default (env : environ) (k default : str) : str :=
  get_default k default env.

(** The truth value of a Python value. *)
Definition truthy (v : pyval) : bool :=
  match v with
  | PNone => false
  | PBool b => b
  | PInt z => negb (Z.eqb z 0)
  | PStr [] => false
  | PStr (_ :: _) => true
  | PList [] => false
  | PList (_ :: _) => true
  | PDict [] => false
  | PDict (_ :: _) => true
  | PForeign b => b
  end.

(** [x or y] *)
Definition py_or (x y : pyval) : pyval := if truthy x then x else y.

(** What [time.gmtime()] reads off the clock. *)
Record struct_time : Type := mkTime {
  tm_year : N;
  tm_mon : N;
  tm_mday : N;
  tm_hour : N;
  tm_min : N;
  tm_sec : N
}.

(** A field below 100 as [%m], [%d], [%H], [%M] and [%S] print it. *)
Definition two_digits (n : N) : str := [48 + n / 10; 48 + n mod 10].

(** [time.strftime("%Y-%m-%dT%H:%M:%SZ", t)]; [%Y] is the year in
    decimal. *)
Definition strftime (t : struct_time) : str :=
  chars_of_uint (N.to_uint (tm_year t)) ++ [45] ++
  two_digits (tm_mon t) ++ [45] ++
  two_digits (tm_mday t) ++ [84] ++
  two_digits (tm_hour t) ++ [58] ++
  two_digits (tm_min t) ++ [58] ++
  two_digits (tm_sec t) ++ [90].

(** The ranges of the fields of what [time.gmtime()] returns. *)
Definition gmtime_range (t : struct_time) : bool :=
  (1 <=? tm_mon t) && (tm_mon t <=? 12) &&
  (1 <=? tm_mday t) && (tm_mday t <=? 31) &&
  (tm_hour t <=? 23) && (tm_min t <=? 59) && (tm_sec t <=? 61).

(** [default_meta_from_env()], given the environment and the clock. *)
Definition default_meta_from_env (env : environ) (now : struct_time) : dict :=
  [(cps "trigger",
    py_or (py_or (getenv env (cps "CI_PIPELINE_SOURCE"))
                 (getenv env (cps "GITHUB_EVENT_NAME")))
          (PStr (cps "local")));
   (cps "branch",
    py_or (getenv env (cps "CI_COMMIT_REF_NAME")) (getenv env (cps "GITHUB_REF_NAME")));
   (cps "commit",
    py_or (getenv env (cps "CI_COMMIT_SHA")) (getenv env (cps "GITHUB_SHA")));
   (cps "started_at", PStr (strftime now))].

End Environ.

Import Environ.

(* ================================================================== *)
(** ** The pytest plugin: [plugin.py] *)
(* ================================================================== *)

Module Plugin.

Local Open Scope N_scope.

(** How an option is registered. *)
Inductive action : Type :=
| store_true
| store.

Record option_spec : Type := mkOption {
  opt_name : str;
  opt_action : action;
  opt_default : pyval
}.

(** [pytest_addoption]: the options of the group [allure-uploader], with
    the defaults the environment gives them. *)
Definition pytest_addoption (env : environ) : list option_spec :=
  [mkOption (cps "--allure-upload") store_true (PBool false);
   mkOption (cps "--allure-upload-url") store
     (PStr (getenv_default env (cps "ALLURE_UPLOAD_URL") []));
   mkOption (cps "--allure-upload-project") store
     (PStr (getenv_default env (cps "ALLURE_UPLOAD_PROJECT") []));
   mkOption (cps "--allure-results-dir") store
     (PStr (getenv_default env (cps "ALLURE_RESULTS_DIR") (cps "allure-results")));
   mkOption (cps "--allure-upload-timeout") store
     (PStr (getenv_default env (cps "ALLURE_UPLOAD_TIMEOUT") (cps "60")));
   mkOption (cps "--allure-upload-insecure") store_true (PBool false)].

(** What the terminal reporter keeps under a key of [stats]: a list of
    reports, or something else. *)
Inductive stat_value (report : Type) : Type :=
| StatList : list report -> stat_value report
| StatOther : stat_value report.

Arguments StatOther {report}.

(** [getattr(tr, "stats", None)]: a dictionary, or anything else. *)
Inductive stats_attr (report : Type) : Type :=
| StatsDict : list (str * stat_value report) -> stats_attr report
| StatsOther : stats_attr report.

Arguments StatsOther {report}.

(** [pytest.Config], as far as the plugin looks at it: [getoption], which
    answers or raises, and the plugin [terminalreporter], if there is
    one, with its [stats]. *)
Record Config (report : Type) : Type := mkConfig {
  getoption : str -> result pyval;
  terminalreporter : option (stats_attr report)
}.

(** The configuration of a run whose command line sets none of the given
    options: [getoption] gives the default of a registered option and
    raises [ValueError] for any other name. *)
Fixpoint default_of (specs : list option_spec) (k : str) : result pyval :=
  match specs with
  | [] => inl ValueError
  | o :: rest => if str_eqb (opt_name o) k then inr (opt_default o)
                 else default_of rest k
  end.

(** The loop of [_get_alluredir_if_any]. *)
Fixpoint alluredir_loop (getopt : str -> result pyval) (keys : list str)
  : option str :=
  match keys with
  | [] => None
  | key :: rest =>
      match getopt key with
      | inr (PStr v) =>
          match strip v with
          | [] => alluredir_loop getopt rest
          | (_ :: _) as stripped => Some stripped
          end
      | inr _ => alluredir_loop getopt rest
      | inl _ => alluredir_loop getopt rest
      end
  end.

(** [_get_alluredir_if_any] *)
Definition _get_alluredir_if_any (report : Type) (config : Config report)
  : option str :=
  alluredir_loop (getoption config) [cps "alluredir"; cps "--alluredir"].

(** [(v or "").strip()]: of the values JSON carries only a [str] has
    [strip]. *)
Definition or_empty_strip (v : pyval) : result str :=
  match py_or v (PStr []) with
  | PStr s => inr (strip s)
  | PForeign _ => inl Unmodelled
  | _ => inl AttributeError
  end.

(** [(config.getoption(k) or "").strip()] *)
Definition option_text (report : Type) (config : Config report) (k : str)
  : result str :=
  try v := getoption config k in or_empty_strip v.

(** [_get_results_dir] *)
Definition _get_results_dir (report : Type) (config : Config report)
  : result str :=
  try explicit := option_text config (cps "--allure-results-dir") in
  match explicit with
  | _ :: _ =>
      if negb (str_eqb explicit (cps "allure-results")) then inr explicit
      else
        match _get_alluredir_if_any config with
        | Some alluredir => inr alluredir
        | None => inr explicit
        end
  | [] =>
      match _get_alluredir_if_any config with
      | Some alluredir => inr alluredir
      | None => inr (cps "allure-results")
      end
  end.

(** The keys [_collect_pytest_stats] asks for, in its order. *)
Definition stat_keys : list str :=
  [cps "passed"; cps "failed"; cps "skipped"; cps "error";
   cps "xfailed"; cps "xpassed"].

(** The loop of [_collect_pytest_stats]. *)
Fixpoint stats_loop (report : Type) (stats : list (str * stat_value report))
    (keys : list str) (out : dict) : dict :=
  match keys with
  | [] => out
  | k :: rest =>
      match dict_get k stats with
      | Some (StatList v) =>
          stats_loop stats rest (dict_set k (PInt (Z.of_nat (length v))) out)
      | _ => stats_loop stats rest out
      end
  end.

(** What [_collect_pytest_stats] records for a key: the length of the
    list [stats] holds under it, if it holds a list there. *)
Definition counted (report : Type) (stats : list (str * stat_value report))
    (k : str) : option pyval :=
  match dict_get k stats with
  | Some (StatList v) => Some (PInt (Z.of_nat (length v)))
  | _ => None
  end.

(** [_collect_pytest_stats] *)
Definition _collect_pytest_stats (report : Type) (config : Config report) : dict :=
  match terminalreporter config with
  | None => []
  | Some StatsOther => []
  | Some (StatsDict stats) => stats_loop stats stat_keys []
  end.

(** The text of a number made of ASCII digits only. *)
Definition digits_only (s : str) : option N :=
  match s with
  | [] => None
  | _ :: _ =>
      match span_digits s with
      | (u, []) => Some (N.of_uint u)
      | (_, _ :: _) => None
      end
  end.

(** [float(v)] where the result is a whole number that a [float] holds
    exactly; any other text or a larger number ends in [Unmodelled]. *)
Definition py_float (v : pyval) : result Q :=
  match v with
  | PInt z =>
      if (Z.abs z <=? 9007199254740992)%Z then inr (z # 1)%Q else inl Unmodelled
  | PBool b => inr (if b then 1 # 1 else 0 # 1)%Q
  | PStr s =>
      match digits_only s with
      | Some n =>
          if n <=? 9007199254740992 then inr (Z.of_N n # 1)%Q else inl Unmodelled
      | None => inl Unmodelled
      end
  | PNone | PList _ | PDict _ => inl TypeError
  | PForeign _ => inl Unmodelled
  end.

(** The components of a text between slashes. *)
Fixpoint split_slash (cur : str) (s : str) : list str :=
  match s with
  | [] => [rev cur]
  | c :: r => if c =? 47 then rev cur :: split_slash [] r
              else split_slash (c :: cur) r
  end.

(** [Path(s)] for a relative path without [..]: its components, the
    empty ones and the single dots left out.  [None] for a path this file
    tree does not resolve (an absolute one, or one with [..]). *)
Definition Path_of_str (s : str) : option path :=
  match s with
  | 47 :: _ => None
  | _ =>
      let parts :=
        filter (fun c => negb (str_eqb c []) && negb (str_eqb c [46]))
               (split_slash [] s) in
      if existsb (fun c => str_eqb c [46; 46]) parts then None else Some parts
  end.

(** What is put between the braces of an f-string, or passed to [str]. *)
Inductive piece : Type :=
| Text (s : str)
| Shown (v : pyval)
| ShownExn (e : exn).

(** The calls the hook makes on the terminal reporter. *)
Inductive event : Type :=
| write_line (line : list piece)
| write_sep (sep title : str).

(** [if tr: ...] *)
Definition say (A : Type) (tr : option A) (evs : list event) : list event :=
  match tr with
  | Some _ => evs
  | None => []
  end.

(** The settings [pytest_sessionfinish] reads before it decides. *)
Record settings : Type := mkSettings {
  set_base_url : str;
  set_project : str;
  set_timeout : Q;
  set_verify_tls : bool;
  set_results_dir_str : str
}.

Definition read_settings (report : Type) (config : Config report)
  : result settings :=
  try base_url := option_text config (cps "--allure-upload-url") in
  try project := option_text config (cps "--allure-upload-project") in
  try tv := getoption config (cps "--allure-upload-timeout") in
  try timeout := py_float (py_or tv (PInt 60)) in
  try iv := getoption config (cps "--allure-upload-insecure") in
  try results_dir_str := _get_results_dir config in
  inr (mkSettings base_url project timeout (negb (truthy iv)) results_dir_str).

(** The lines of a successful upload. *)
Definition report_lines (base_url : str) (res : UploadResult) : list event :=
  [write_sep [61] (cps "Allure upload");
   write_line [Text (cps "project: "); Shown (Client.project res)];
   write_line [Text (cps "run_id: "); Text (int_repr (run_id res))];
   write_line [Text (cps "status: "); Shown (status res)];
   write_line [Text (cps "ui: "); Text base_url; Shown (ui_url res)];
   write_line [Text (cps "latest: "); Text base_url; Shown (latest_url res)]].

Definition failure_lines (e : exn) : list event :=
  [write_sep [61] (cps "Allure upload FAILED"); write_line [ShownExn e]].

(** [pytest_sessionfinish], given the environment, the clock, the file
    tree and the network.  The first component lists the calls of
    [session.post], the second the calls on the terminal reporter, or the
    exception that leaves the hook. *)
Definition pytest_sessionfinish (report : Type) (config : Config report)
    (exitstatus : Z) (env : environ) (now : struct_time) (fs : node)
    (net : transport) : list request * result (list event) :=
  match getoption config (cps "--allure-upload") with
  | inl e => ([], inl e)
  | inr flag =>
      if negb (truthy flag) then ([], inr [])
      else
        match read_settings config with
        | inl e => ([], inl e)
        | inr st =>
            let tr := terminalreporter config in
            match set_base_url st, set_project st with
            | _ :: _, _ :: _ =>
                match Path_of_str (set_results_dir_str st) with
                | None => ([], inl Unmodelled)
                | Some results_dir =>
                    match path_exists fs results_dir with
                    | inl e => ([], inl e)
                    | inr false =>
                      ([], inr (say tr
                         [write_line
                            [Text (cps "[allure-uploader] Results dir not found: "
                                   ++ as_posix results_dir)]]))
                    | inr true =>
                      let meta :=
                        dict_set (cps "pytest_stats")
                          (PDict (_collect_pytest_stats config))
                          (dict_set (cps "pytest_exitstatus") (PInt exitstatus)
                             (default_meta_from_env env now)) in
                      let client :=
                        init (set_base_url st) (set_timeout st)
                             (set_verify_tls st) None in
                      match upload client fs net (set_project st) results_dir
                                   (Some meta) None with
                      | (sent, inr res) =>
                          (sent, inr (say tr (report_lines (set_base_url st) res)))
                      | (sent, inl Unmodelled) => (sent, inl Unmodelled)
                      | (sent, inl e) => (sent, inr (say tr (failure_lines e)))
                      end
                    end
                end
            | _, _ =>
                ([], inr (say tr
                   [write_line [Text (cps "[allure-uploader] Missing URL or project")]]))
            end
        end
  end.

End Plugin.

Import Plugin.

(* ================================================================== *)
(** ** A session to run the hook in *)
(* ================================================================== *)

Module Session.

Local Open Scope N_scope.

(** A GitHub runner that sets the service's address and the project. *)
Definition env : environ :=
  [(cps "GITHUB_EVENT_NAME", cps "push");
   (cps "GITHUB_REF_NAME", cps "main");
   (cps "GITHUB_SHA", cps "0a1b2c3");
   (cps "ALLURE_UPLOAD_URL", cps " http://allure.local/ ");
   (cps "ALLURE_UPLOAD_PROJECT", cps "p1")].

(** 5 January 2026, 09:03:07 UTC. *)
Definition now : struct_time := mkTime 2026 1 5 9 3 7.

(** An option given on the command line. *)
Definition with_option (k : str) (v : pyval) (getopt : str -> result pyval)
  : str -> result pyval :=
  fun k' => if str_eqb k' k then inr v else getopt k'.

(** The terminal reporter after a run: two passed, one failed. *)
Definition reporter : stats_attr unit :=
  StatsDict [(cps "passed", StatList [tt; tt]);
             (cps "failed", StatList [tt]);
             (cps "warnings", StatList [tt]);
             (cps "deselected", StatOther)].

(** [pytest --allure-upload] *)
Definition config : Config unit :=
  mkConfig (with_option (cps "--allure-upload") (PBool true)
              (default_of (pytest_addoption env)))
           (Some reporter).

(** [pytest --allure-upload --allure-results-dir notes.txt] *)
Definition config_at_file : Config unit :=
  mkConfig (with_option (cps "--allure-results-dir") (PStr (cps "notes.txt"))
              (getoption config))
           (Some reporter).

(** [pytest --allure-upload --alluredir out/] with the plugin that
    registers [--alluredir], and the default results directory. *)
Definition config_alluredir : Config unit :=
  mkConfig (with_option (cps "--alluredir") (PStr (cps " out/ "))
              (getoption config))
           (Some reporter).

(** [pytest --allure-upload --allure-results-dir aaa...] with a name of
    300 letters, more than a directory entry can have. *)
Definition config_long_name : Config unit :=
  mkConfig (with_option (cps "--allure-results-dir") (PStr (repeat 97 300))
              (getoption config))
           (Some reporter).

(** [pytest --allure-upload --allure-results-dir old] *)
Definition config_old : Config unit :=
  mkConfig (with_option (cps "--allure-results-dir") (PStr (cps "old"))
              (getoption config))
           (Some reporter).

(** The metadata of the run [config] with exit status 1. *)
Definition meta : dict :=
  [(cps "trigger", PStr (cps "push"));
   (cps "branch", PStr (cps "main"));
   (cps "commit", PStr (cps "0a1b2c3"));
   (cps "started_at", PStr (cps "2026-01-05T09:03:07Z"));
   (cps "pytest_exitstatus", PInt 1);
   (cps "pytest_stats", PDict [(cps "passed", PInt 2); (cps "failed", PInt 1)])].

(** The request of that run. *)
Definition hook_request : request :=
  {| url := cps "http://allure.local/api/v1/projects/p1/runs";
     files := [(cps "results", results_part Demo.results_zip);
               (cps "meta", meta_part meta)];
     timeout := (60 # 1)%Q;
     verify := true |}.

End Session.

(* ================================================================== *)
(** ** Facts about text *)
(* ================================================================== *)

Section TextFacts.

Local Open Scope N_scope.

Lemma str_eqb_refl (a : str) : str_eqb a a = true.
Proof.
  induction a as [|x a IH]; simpl; [reflexivity|].
  now rewrite N.eqb_refl.
Qed.

Lemma str_eqb_eq (a b : str) : str_eqb a b = true <-> a = b.
Proof.
  split.
  - revert b. induction a as [|x a IH]; intros [|y b]; simpl; try discriminate; auto.
    intros H. apply andb_true_iff in H as [Hx Hr].
    apply N.eqb_eq in Hx. f_equal; auto.
  - intros ->. apply str_eqb_refl.
Qed.

Lemma str_eqb_neq (a b : str) : str_eqb a b = false <-> a <> b.
Proof.
  rewrite <- str_eqb_eq. destruct (str_eqb a b); intuition congruence.
Qed.

Lemma existsb_str_eqb (k : str) (ks : list str) :
  existsb (str_eqb k) ks = true <-> In k ks.
Proof.
  rewrite existsb_exists. split.
  - intros (x & Hin & Heq). apply str_eqb_eq in Heq. now subst.
  - intros Hin. exists k. split; [assumption | apply str_eqb_refl].
Qed.

Lemma distinct_NoDup (ks : list str) : distinct ks = true <-> NoDup ks.
Proof.
  induction ks as [|k ks IH]; simpl.
  - split; [constructor | reflexivity].
  - rewrite andb_true_iff, negb_true_iff, IH. split.
    + intros [Hn Hd]. constructor; [|assumption].
      intros Hin. apply existsb_str_eqb in Hin. congruence.
    + intros Hnd. inversion Hnd as [|? ? Hn Hd]; subst. split; [|assumption].
      destruct (existsb (str_eqb k) ks) eqn:E; [|reflexivity].
      apply existsb_str_eqb in E. contradiction.
Qed.

End TextFacts.

(* ================================================================== *)
(** ** Stripping *)
(* ================================================================== *)

Section StripFacts.

Local Open Scope N_scope.

Variable f : N -> bool.

Lemma lstrip_by_split (s : str) :
  exists pre, s = pre ++ lstrip_by f s /\ forallb f pre = true.
Proof.
  induction s as [|c s IH].
  - now exists [].
  - cbn [lstrip_by]. destruct (f c) eqn:E.
    + destruct IH as (pre & Hs & Hp). exists (c :: pre). split.
      * cbn [app]. f_equal. exact Hs.
      * cbn [forallb]. now rewrite E.
    + now exists [].
Qed.

Lemma lstrip_by_head (s : str) (c : N) (r : str) :
  lstrip_by f s = c :: r -> f c = false.
Proof.
  induction s as [|x s IH]; [discriminate|].
  cbn [lstrip_by]. destruct (f x) eqn:E; [exact IH|].
  now intros [= <- _].
Qed.


Lemma lstrip_by_fixed (s : str) :
  (forall c r, s = c :: r -> f c = false) -> lstrip_by f s = s.
Proof.
  destruct s as [|c r]; [reflexivity|]. intros H.
  cbn [lstrip_by]. now rewrite (H c r eq_refl).
Qed.

Lemma lstrip_by_idem (s : str) : lstrip_by f (lstrip_by f s) = lstrip_by f s.
Proof. apply lstrip_by_fixed. intros c r. apply lstrip_by_head. Qed.

Lemma forallb_rev (s : str) : forallb f (rev s) = forallb f s.
Proof.
  induction s as [|c s IH]; [reflexivity|].
  cbn [rev forallb]. rewrite forallb_app, IH. cbn [forallb].
  rewrite andb_true_r. apply andb_comm.
Qed.

Lemma rstrip_by_split (s : str) :
  exists suf, s = rstrip_by f s ++ suf /\ forallb f suf = true.
Proof.
  unfold rstrip_by. destruct (lstrip_by_split (rev s)) as (pre & Hs & Hp).
  exists (rev pre). split.
  - apply (f_equal (@rev N)) in Hs.
    now rewrite rev_involutive, rev_app_distr in Hs.
  - now rewrite forallb_rev.
Qed.

Lemma rstrip_by_last (s r : str) (c : N) :
  rstrip_by f s = r ++ [c] -> f c = false.
Proof.
  unfold rstrip_by. intros H. apply (f_equal (@rev N)) in H.
  rewrite rev_involutive, rev_app_distr in H. cbn [rev app] in H.
  now apply lstrip_by_head in H.
Qed.


Lemma rstrip_by_idem (s : str) : rstrip_by f (rstrip_by f s) = rstrip_by f s.
Proof. unfold rstrip_by. now rewrite rev_involutive, lstrip_by_idem. Qed.

Lemma rstrip_by_fixed (s : str) :
  (forall r c, s = r ++ [c] -> f c = false) -> rstrip_by f s = s.
Proof.
  intros H. unfold rstrip_by. rewrite lstrip_by_fixed; [apply rev_involutive|].
  intros c r E. apply (H (rev r) c).
  apply (f_equal (@rev N)) in E. now rewrite rev_involutive in E.
Qed.

Lemma forallb_repeat (c : N) (s : str) :
  (forall x, f x = true -> x = c) -> forallb f s = true -> s = repeat c (length s).
Proof.
  intros Hf. induction s as [|x s IH]; [reflexivity|].
  cbn [forallb length repeat]. intros H. apply andb_true_iff in H as [Hx Hs].
  now rewrite (Hf x Hx), <- IH.
Qed.

End StripFacts.

Section StripSpaces.

Local Open Scope N_scope.

Lemma strip_head (s : str) (c : N) (r : str) :
  strip s = c :: r -> isspace c = false.
Proof.
  unfold strip. intros H.
  destruct (rstrip_by_split isspace (lstrip_by isspace s)) as (suf & E & _).
  rewrite H in E. cbn [app] in E. now apply lstrip_by_head in E.
Qed.


Lemma strip_idem (s : str) : strip (strip s) = strip s.
Proof.
  unfold strip at 1. rewrite lstrip_by_fixed.
  - unfold strip. apply rstrip_by_idem.
  - intros c r. apply strip_head.
Qed.



Lemma strip_fixed (s : str) :
  forallb (fun c => negb (isspace c)) s = true -> strip s = s.
Proof.
  intros H. rewrite forallb_forall in H.
  assert (Hn : forall c, In c s -> isspace c = false).
  { intros c Hc. apply negb_true_iff. now apply H. }
  unfold strip. rewrite (@lstrip_by_fixed isspace s).
  - apply rstrip_by_fixed. intros r c ->. apply Hn.
    apply in_or_app. right. now left.
  - intros c r ->. apply Hn. now left.
Qed.

End StripSpaces.

(* ================================================================== *)
(** ** Facts about the JSON codec *)
(* ================================================================== *)

Section HexFacts.

Local Open Scope N_scope.

Lemma land_shiftl_small (a b k : N) : b < 2 ^ k -> N.land (N.shiftl a k) b = 0.
Proof.
  intros Hb. apply N.bits_inj. intros i.
  rewrite N.land_spec, N.bits_0.
  destruct (N.lt_ge_cases i k) as [Hlt | Hge].
  - now rewrite N.shiftl_spec_low.
  - rewrite <- (N.mod_small b (2 ^ k)) by assumption.
    rewrite N.mod_pow2_bits_high by assumption.
    apply andb_false_r.
Qed.

(** Below the shifted part, [lor] is addition. *)
Lemma lor_shiftl_small (a b k : N) :
  b < 2 ^ k -> N.lor (N.shiftl a k) b = a * 2 ^ k + b.
Proof.
  intros Hb.
  rewrite <- N.lxor_lor by now apply land_shiftl_small.
  rewrite <- N.add_nocarry_lxor by now apply land_shiftl_small.
  now rewrite N.shiftl_mul_pow2.
Qed.

Lemma hex_val_digit (d : N) : d < 16 -> hex_val (hex_digit d) = Some d.
Proof.
  intros H.
  assert (E : d = 0 \/ d = 1 \/ d = 2 \/ d = 3 \/ d = 4 \/ d = 5 \/ d = 6 \/ d = 7 \/
              d = 8 \/ d = 9 \/ d = 10 \/ d = 11 \/ d = 12 \/ d = 13 \/ d = 14 \/ d = 15)
    by lia.
  repeat (destruct E as [-> | E]; [reflexivity|]). now subst.
Qed.

Lemma decode_hex4_digits (x y z w : N) :
  x < 16 -> y < 16 -> z < 16 -> w < 16 ->
  decode_hex4 (hex_digit x) (hex_digit y) (hex_digit z) (hex_digit w)
  = Some (((x * 16 + y) * 16 + z) * 16 + w).
Proof.
  intros Hx Hy Hz Hw. unfold decode_hex4.
  rewrite !hex_val_digit by assumption.
  change 16 with (2 ^ 4) in *.
  now rewrite !lor_shiftl_small by assumption.
Qed.

Lemma decode_hex4_hex4 (n a b c d : N) :
  n < 65536 -> hex4 n = [a; b; c; d] -> decode_hex4 a b c d = Some n.
Proof.
  intros Hn E. unfold hex4 in E. injection E as <- <- <- <-.
  rewrite decode_hex4_digits by (apply N.mod_upper_bound; discriminate).
  f_equal.
  assert (D2 : n / 256 = n / 16 / 16) by now rewrite N.Div0.div_div.
  assert (D3 : n / 4096 = n / 16 / 16 / 16) by now rewrite !N.Div0.div_div.
  assert (S3 : n / 4096 < 16) by (apply N.Div0.div_lt_upper_bound; lia).
  rewrite (N.mod_small (n / 4096)) by assumption.
  rewrite D2, D3.
  pose proof (N.div_mod n 16 ltac:(discriminate)) as E0.
  pose proof (N.div_mod (n / 16) 16 ltac:(discriminate)) as E1.
  pose proof (N.div_mod (n / 16 / 16) 16 ltac:(discriminate)) as E2.
  lia.
Qed.

Lemma hex4_shape (n : N) : exists a b c d, hex4 n = [a; b; c; d].
Proof. unfold hex4. eauto. Qed.

(** The two halves of a code point above the basic plane. *)
Lemma surrogates_of (n : N) :
  n < 1048576 ->
  N.lor 55296 (N.land (N.shiftr n 10) 1023) = 55296 + n / 1024 /\
  N.lor 56320 (N.land n 1023) = 56320 + n mod 1024.
Proof.
  intros Hn.
  change 1023 with (N.ones 10). rewrite !N.land_ones, N.shiftr_div_pow2.
  change (2 ^ 10) with 1024.
  assert (Hq : n / 1024 < 1024) by (apply N.Div0.div_lt_upper_bound; lia).
  rewrite (N.mod_small (n / 1024)) by assumption.
  assert (Hr : n mod 1024 < 1024) by (apply N.mod_upper_bound; discriminate).
  change 55296 with (N.shiftl 54 10). change 56320 with (N.shiftl 55 10).
  rewrite !lor_shiftl_small by assumption.
  split; reflexivity.
Qed.

Lemma join_surrogates_of (h l : N) :
  h < 1024 -> l < 1024 ->
  join_surrogates (55296 + h) (56320 + l) = 65536 + (h * 1024 + l).
Proof.
  intros Hh Hl. unfold join_surrogates.
  replace (55296 + h - 55296) with h by lia.
  replace (56320 + l - 56320) with l by lia.
  now rewrite lor_shiftl_small by assumption.
Qed.

End HexFacts.

Section StringFacts.

Local Open Scope N_scope.

Lemma scanstring_plain (c : N) (t : str) :
  c <> 34 -> c <> 92 -> 31 < c -> scanstring (c :: t) = push c (scanstring t).
Proof.
  intros H1 H2 H3. cbn [scanstring].
  apply N.eqb_neq in H1. apply N.eqb_neq in H2. apply N.leb_gt in H3.
  now rewrite H1, H2, H3.
Qed.

Lemma scanstring_escape (e ch : N) (t : str) :
  e <> 117 -> backslash e = Some ch ->
  scanstring (92 :: e :: t) = push ch (scanstring t).
Proof.
  intros H1 H2. cbn [scanstring].
  change (92 =? 34) with false. change (92 =? 92) with true. cbv iota.
  apply N.eqb_neq in H1. now rewrite H1, H2.
Qed.

Lemma scanstring_u (h1 h2 h3 h4 uni : N) (t : str) :
  decode_hex4 h1 h2 h3 h4 = Some uni -> is_high_surrogate uni = false ->
  scanstring (92 :: 117 :: h1 :: h2 :: h3 :: h4 :: t) = push uni (scanstring t).
Proof.
  intros H1 H2. cbn [scanstring].
  change (92 =? 34) with false. change (92 =? 92) with true.
  change (117 =? 117) with true. cbv iota.
  rewrite H1, H2. cbn [andb].
  destruct t as [|? [|? [|? [|? [|? [|? [|? ?]]]]]]]; reflexivity.
Qed.

Lemma scanstring_pair (h1 h2 h3 h4 l1 l2 l3 l4 hi lo x : N) (t : str) :
  decode_hex4 h1 h2 h3 h4 = Some hi -> is_high_surrogate hi = true ->
  decode_hex4 l1 l2 l3 l4 = Some lo -> is_low_surrogate lo = true ->
  scanstring (92 :: 117 :: h1 :: h2 :: h3 :: h4 ::
              92 :: 117 :: l1 :: l2 :: l3 :: l4 :: x :: t)
  = push (join_surrogates hi lo) (scanstring (x :: t)).
Proof.
  intros H1 H2 H3 H4.
  remember (x :: t) as xt eqn:Ext.
  cbn [scanstring].
  change (92 =? 34) with false. change (92 =? 92) with true.
  change (117 =? 117) with true. cbv iota.
  rewrite H1. subst xt. rewrite H2. cbn [andb]. cbv iota.
  now rewrite H3, H4.
Qed.

Lemma scanstring_escape_char (c : N) (t : str) :
  scalar c = true -> t <> [] ->
  scanstring (escape_char c ++ t) = push c (scanstring t).
Proof.
  intros Hs Ht. unfold escape_char.
  destruct (N.eqb_spec c 34) as [->|N34]; [now apply scanstring_escape|].
  destruct (N.eqb_spec c 92) as [->|N92]; [now apply scanstring_escape|].
  destruct (N.eqb_spec c 8) as [->|N8]; [now apply scanstring_escape|].
  destruct (N.eqb_spec c 12) as [->|N12]; [now apply scanstring_escape|].
  destruct (N.eqb_spec c 10) as [->|N10]; [now apply scanstring_escape|].
  destruct (N.eqb_spec c 13) as [->|N13]; [now apply scanstring_escape|].
  destruct (N.eqb_spec c 9) as [->|N9]; [now apply scanstring_escape|].
  destruct ((32 <=? c) && (c <=? 126)) eqn:Hp.
  - apply andb_true_iff in Hp as [Hlo _]. apply N.leb_le in Hlo.
    apply scanstring_plain; lia.
  - unfold scalar in Hs.
    destruct (N.ltb_spec c 65536) as [Hb | Hb].
    + destruct (hex4_shape c) as (a & b & d & e & Eh).
      unfold u_escape. rewrite Eh. cbn [app].
      apply scanstring_u.
      * now apply decode_hex4_hex4 with (n := c).
      * unfold is_high_surrogate.
        apply orb_true_iff in Hs as [Hs | Hs].
        -- apply N.ltb_lt in Hs. apply andb_false_iff. left. apply N.leb_gt. lia.
        -- apply andb_true_iff in Hs as [Hs _]. apply N.leb_le in Hs.
           apply andb_false_iff. right. apply N.leb_gt. lia.
    + assert (Hc : c < 1114112).
      { apply orb_true_iff in Hs as [Hs | Hs].
        - apply N.ltb_lt in Hs. lia.
        - apply andb_true_iff in Hs as [_ Hs]. now apply N.ltb_lt in Hs. }
      cbv zeta.
      destruct (surrogates_of (n := c - 65536) ltac:(lia)) as [E1 E2].
      rewrite E1, E2.
      set (h := (c - 65536) / 1024). set (l := (c - 65536) mod 1024).
      assert (Hh : h < 1024) by (apply N.Div0.div_lt_upper_bound; lia).
      assert (Hl : l < 1024) by (apply N.mod_upper_bound; discriminate).
      destruct (hex4_shape (55296 + h)) as (a1 & a2 & a3 & a4 & Eh).
      destruct (hex4_shape (56320 + l)) as (b1 & b2 & b3 & b4 & El).
      unfold u_escape. rewrite Eh, El. cbn [app].
      destruct t as [|x t]; [contradiction|].
      rewrite scanstring_pair with (hi := 55296 + h) (lo := 56320 + l).
      * f_equal. rewrite join_surrogates_of by assumption.
        pose proof (N.div_mod (c - 65536) 1024 ltac:(discriminate)).
        subst h l. lia.
      * apply decode_hex4_hex4 with (n := 55296 + h); [lia | assumption].
      * unfold is_high_surrogate. apply andb_true_iff.
        split; apply N.leb_le; lia.
      * apply decode_hex4_hex4 with (n := 56320 + l); [lia | assumption].
      * unfold is_low_surrogate. apply andb_true_iff.
        split; apply N.leb_le; lia.
Qed.

(** Decoding undoes the escaping of a string of scalar values. *)
Lemma scanstring_escape_chars (s rest : str) :
  scalar_str s = true ->
  scanstring (escape_chars s ++ 34 :: rest) = Some (s, rest).
Proof.
  induction s as [|c s IH]; intros Hs.
  - reflexivity.
  - cbn [scalar_str forallb] in Hs. apply andb_true_iff in Hs as [Hc Hs].
    cbn [escape_chars]. rewrite <- app_assoc.
    rewrite scanstring_escape_char.
    + now rewrite IH.
    + assumption.
    + destruct (escape_chars s); discriminate.
Qed.

End StringFacts.

Section NumberFacts.

Local Open Scope N_scope.

Lemma is_digit_range (c : N) : is_digit c = true <-> 48 <= c <= 57.
Proof.
  unfold is_digit. rewrite andb_true_iff, !N.leb_le. reflexivity.
Qed.

Lemma chars_of_uint_leading (u : Decimal.uint) :
  leading u ->
  exists c u', chars_of_uint u = c :: chars_of_uint u' /\
               digit_cons c u' = u /\ is_digit c = true /\ c <> 48.
Proof.
  destruct u as [|u|u|u|u|u|u|u|u|u|u]; intros H; try contradiction;
    eexists; exists u; repeat split; try reflexivity; discriminate.
Qed.

Lemma to_uint_leading (p : positive) : leading (Pos.to_uint p).
Proof.
  assert (Hn : unorm (Pos.to_uint p) = Pos.to_uint p).
  { rewrite <- (DecimalPos.Unsigned.to_of (Pos.to_uint p)).
    now rewrite DecimalPos.Unsigned.of_to. }
  pose proof (DecimalPos.Unsigned.to_uint_nonzero p) as Hz.
  destruct (Pos.to_uint p) as [|u|u|u|u|u|u|u|u|u|u] eqn:E;
    try exact I; cbn [leading].
  - discriminate Hn.
  - destruct (uint_eq_dec (nzhead (D0 u)) Nil) as [Hnil | Hnil].
    + apply Hz. rewrite <- Hn. now apply unorm_0.
    + rewrite (unorm_nzhead _ Hnil) in Hn.
      now apply (nzhead_nonzero (D0 u) u).
Qed.

Lemma span_digits_chars (u : Decimal.uint) (rest : str) :
  delimited rest -> span_digits (chars_of_uint u ++ rest) = (u, rest).
Proof.
  intros Hr.
  induction u as [|u IH|u IH|u IH|u IH|u IH|u IH|u IH|u IH|u IH|u IH];
    cbn [chars_of_uint app span_digits];
    try (change (is_digit _) with true; cbv iota; rewrite IH; reflexivity).
  destruct rest as [|c r]; [reflexivity|].
  cbn [span_digits].
  replace (is_digit c) with false; [reflexivity|].
  symmetry. unfold is_digit. simpl in Hr.
  destruct Hr as [-> | [-> | ->]]; reflexivity.
Qed.

Lemma is_float_tail_delimited (rest : str) :
  delimited rest -> is_float_tail rest = false.
Proof.
  destruct rest as [|c [|d r]]; try reflexivity.
  simpl. intros [-> | [-> | ->]]; reflexivity.
Qed.

Lemma match_number_int_repr (z : Z) (rest : str) :
  (digits z <= max_str_digits)%nat ->
  delimited rest -> match_number (int_repr z ++ rest) = Scanned (PInt z, rest).
Proof.
  intros Hdig Hr. pose proof (is_float_tail_delimited _ Hr) as Hf.
  destruct z as [|p|p]; unfold int_repr.
  - cbn [app]. unfold match_number. change (48 =? 45) with false.
    change (48 =? 48) with true. cbv iota. unfold finish_number.
    now rewrite Hf.
  - unfold digits in Hdig. change (N.to_uint (Z.abs_N (Z.pos p))) with (Pos.to_uint p) in Hdig.
    apply Nat.ltb_ge in Hdig.
    destruct (chars_of_uint_leading _ (to_uint_leading p)) as (c & u' & E & Hc & Hd & H0).
    change (N.to_uint (N.pos p)) with (Pos.to_uint p). rewrite E. cbn [app].
    unfold match_number.
    apply is_digit_range in Hd as Hrange.
    replace (c =? 45) with false by (symmetry; apply N.eqb_neq; lia).
    replace (c =? 48) with false by (symmetry; now apply N.eqb_neq).
    rewrite Hd, span_digits_chars by assumption.
    unfold finish_number. rewrite Hf, Hc, Hdig. unfold int_of_literal.
    change (N.of_uint (Pos.to_uint p)) with (Pos.of_uint (Pos.to_uint p)).
    now rewrite DecimalPos.Unsigned.of_to.
  - unfold digits in Hdig. change (N.to_uint (Z.abs_N (Z.neg p))) with (Pos.to_uint p) in Hdig.
    apply Nat.ltb_ge in Hdig.
    destruct (chars_of_uint_leading _ (to_uint_leading p)) as (c & u' & E & Hc & Hd & H0).
    change (N.to_uint (N.pos p)) with (Pos.to_uint p). rewrite E. cbn [app].
    unfold match_number. change (45 =? 45) with true. cbv iota.
    replace (c =? 48) with false by (symmetry; now apply N.eqb_neq).
    rewrite Hd, span_digits_chars by assumption.
    unfold finish_number. rewrite Hf, Hc, Hdig. unfold int_of_literal.
    change (N.of_uint (Pos.to_uint p)) with (Pos.of_uint (Pos.to_uint p)).
    now rewrite DecimalPos.Unsigned.of_to.
Qed.

Lemma int_repr_head (z : Z) :
  exists c t,
    int_repr z = c :: t /\
    (is_digit c = true \/
     (c = 45 /\ exists d t', t = d :: t' /\ is_digit d = true)).
Proof.
  destruct z as [|p|p]; unfold int_repr.
  - exists 48, []. split; [reflexivity | now left].
  - destruct (chars_of_uint_leading _ (to_uint_leading p)) as (c & u' & E & _ & Hd & _).
    change (N.to_uint (N.pos p)) with (Pos.to_uint p). rewrite E.
    eexists _, _. split; [reflexivity | now left].
  - destruct (chars_of_uint_leading _ (to_uint_leading p)) as (c & u' & E & _ & Hd & _).
    change (N.to_uint (N.pos p)) with (Pos.to_uint p). rewrite E.
    eexists _, _. split; [reflexivity|]. right. split; [reflexivity|].
    eexists _, _. split; [reflexivity | exact Hd].
Qed.

End NumberFacts.

Section CodecFacts.

Local Open Scope N_scope.

(** Induction over values, with the elements of lists and dictionaries. *)
Lemma pyval_ind (P : pyval -> Prop) :
  P PNone ->
  (forall b, P (PBool b)) ->
  (forall z, P (PInt z)) ->
  (forall s, P (PStr s)) ->
  (forall l, Forall P l -> P (PList l)) ->
  (forall d, Forall (fun kv => P (snd kv)) d -> P (PDict d)) ->
  (forall t, P (PForeign t)) ->
  forall v, P v.
Proof.
  intros HN HB HI HS HL HD HF.
  fix IH 1. intros [ | b | z | s | l | d | t].
  - exact HN.
  - apply HB.
  - apply HI.
  - apply HS.
  - apply HL. induction l as [|x l IHl]; constructor; [apply IH | exact IHl].
  - apply HD. induction d as [|[k x] d IHd]; constructor; [apply IH | exact IHd].
  - apply HF.
Qed.

(** *** Depth and refusals of the parts of a value *)

Lemma depth_item (l : list pyval) (x : pyval) :
  In x l -> (depth x <= fold_right (fun x m => Nat.max (depth x) m) O l)%nat.
Proof.
  induction l as [|y l IH]; [contradiction|].
  cbn [fold_right]. intros [-> | H]; [lia|]. specialize (IH H). lia.
Qed.

Lemma depth_value (d : dict) (k : str) (x : pyval) :
  In (k, x) d ->
  (depth x <= fold_right (fun kv m => let '(_, x) := kv in Nat.max (depth x) m) O d)%nat.
Proof.
  induction d as [|[k' y] d IH]; [contradiction|].
  cbn [fold_right]. intros [[= -> ->] | H]; [lia|]. specialize (IH H). lia.
Qed.

Lemma first_refusal_item (l : list pyval) (x : pyval) :
  first_refusal (PList l) = None -> In x l -> first_refusal x = None.
Proof.
  cbn [first_refusal].
  induction l as [|y l IH]; [contradiction|].
  cbn [fold_right]. destruct (first_refusal y) eqn:E; [discriminate|].
  intros H [<- | Hin]; [exact E | now apply IH].
Qed.

Lemma first_refusal_value (d : dict) (k : str) (x : pyval) :
  first_refusal (PDict d) = None -> In (k, x) d -> first_refusal x = None.
Proof.
  cbn [first_refusal].
  induction d as [|[k' y] d IH]; [contradiction|].
  cbn [fold_right]. destruct (first_refusal y) eqn:E; [discriminate|].
  intros H [[= <- <-] | Hin]; [exact E | now apply IH].
Qed.

Lemma skip_ws_start (c : N) (t : str) :
  c <> 32 -> c <> 9 -> c <> 10 -> c <> 13 -> skip_ws (c :: t) = c :: t.
Proof.
  intros H1 H2 H3 H4. cbn [skip_ws].
  apply N.eqb_neq in H1, H2, H3, H4. now rewrite H1, H2, H3, H4.
Qed.

Lemma value_start_facts (c : N) :
  value_start c ->
  c <> 32 /\ c <> 9 /\ c <> 10 /\ c <> 13 /\ c <> 93 /\ c <> 125 /\ c <> 65279.
Proof.
  unfold value_start. rewrite is_digit_range. intros H.
  repeat split; intros ->; repeat (destruct H as [H | H]; [discriminate|]); lia.
Qed.

Lemma skip_ws_value (c : N) (t : str) :
  value_start c -> skip_ws (c :: t) = c :: t.
Proof.
  intros H. apply value_start_facts in H as (H1 & H2 & H3 & H4 & _).
  now apply skip_ws_start.
Qed.

Lemma skip_ws_delimited (rest : str) : delimited rest -> skip_ws rest = rest.
Proof.
  destruct rest as [|c r]; [reflexivity|]. simpl.
  intros [-> | [-> | ->]]; reflexivity.
Qed.

Lemma skip_ws_space (t : str) : skip_ws (32 :: t) = skip_ws t.
Proof. reflexivity. Qed.

Lemma skip_ws_comma (t : str) : skip_ws (44 :: t) = 44 :: t.
Proof. reflexivity. Qed.

Lemma skip_ws_colon (t : str) : skip_ws (58 :: t) = 58 :: t.
Proof. reflexivity. Qed.

Lemma skip_ws_close (t : str) :
  skip_ws (93 :: t) = 93 :: t /\ skip_ws (125 :: t) = 125 :: t.
Proof. split; reflexivity. Qed.

Lemma encode_head (v : pyval) :
  wf_pyval v = true ->
  exists c t, encode v = c :: t /\ value_start c.
Proof.
  unfold value_start.
  destruct v as [ | [|] | z | s | l | d | t]; cbn [encode]; intros Hwf;
    try discriminate;
    try (eexists _, _; split; [reflexivity | tauto]).
  destruct (int_repr_head z) as (c & t & E & H). rewrite E.
  eexists _, _. split; [reflexivity | tauto].
Qed.

Lemma encode_length_pos (v : pyval) :
  wf_pyval v = true -> (1 <= length (encode v))%nat.
Proof.
  intros Hwf. destruct (encode_head v Hwf) as (c & t & E & _).
  rewrite E. simpl. lia.
Qed.

(** *** One step of each scanner *)

Lemma scan_once_string (f room : nat) (r : str) :
  scan_once (S f) (S room) (34 :: r) =
  match scanstring r with
  | Some (t, rest) => Scanned (PStr t, rest)
  | None => Malformed
  end.
Proof. reflexivity. Qed.

Lemma scan_once_array (f room : nat) (r : str) :
  scan_once (S f) (S room) (91 :: r) =
  match skip_ws r with
  | [] => Malformed
  | (c1 :: r1) as s1 =>
      if c1 =? 93 then Scanned (PList [], r1) else parse_items f room [] s1
  end.
Proof. reflexivity. Qed.

Lemma scan_once_object (f room : nat) (r : str) :
  scan_once (S f) (S room) (123 :: r) =
  match skip_ws r with
  | [] => Malformed
  | (c1 :: r1) as s1 =>
      if c1 =? 125 then Scanned (PDict [], r1) else parse_pairs f room [] s1
  end.
Proof. reflexivity. Qed.

Lemma match_constant_digit (c : N) (t : str) :
  is_digit c = true -> match_constant (c :: t) = None.
Proof.
  rewrite is_digit_range. intros H. unfold match_constant.
  change (cps "null") with [110; 117; 108; 108].
  change (cps "true") with [116; 114; 117; 101].
  change (cps "false") with [102; 97; 108; 115; 101].
  change (cps "NaN") with [78; 97; 78].
  change (cps "Infinity") with [73; 110; 102; 105; 110; 105; 116; 121].
  change (cps "-Infinity") with [45; 73; 110; 102; 105; 110; 105; 116; 121].
  cbn [strip_prefix startswith].
  replace (110 =? c) with false by (symmetry; apply N.eqb_neq; lia).
  replace (116 =? c) with false by (symmetry; apply N.eqb_neq; lia).
  replace (102 =? c) with false by (symmetry; apply N.eqb_neq; lia).
  replace (78 =? c) with false by (symmetry; apply N.eqb_neq; lia).
  replace (73 =? c) with false by (symmetry; apply N.eqb_neq; lia).
  replace (45 =? c) with false by (symmetry; apply N.eqb_neq; lia).
  reflexivity.
Qed.

(** A minus sign in front of a digit is not the constant [-Infinity]. *)
Lemma match_constant_minus (d : N) (t : str) :
  is_digit d = true -> match_constant (45 :: d :: t) = None.
Proof.
  rewrite is_digit_range. intros H. unfold match_constant.
  change (cps "null") with [110; 117; 108; 108].
  change (cps "true") with [116; 114; 117; 101].
  change (cps "false") with [102; 97; 108; 115; 101].
  change (cps "NaN") with [78; 97; 78].
  change (cps "Infinity") with [73; 110; 102; 105; 110; 105; 116; 121].
  change (cps "-Infinity") with [45; 73; 110; 102; 105; 110; 105; 116; 121].
  cbn [strip_prefix startswith].
  change (110 =? 45) with false. change (116 =? 45) with false.
  change (102 =? 45) with false. change (78 =? 45) with false.
  change (73 =? 45) with false. change (45 =? 45) with true.
  replace (73 =? d) with false by (symmetry; apply N.eqb_neq; lia).
  reflexivity.
Qed.

Lemma scan_once_number (f room : nat) (c : N) (t : str) :
  is_digit c = true \/
  (c = 45 /\ exists d t', t = d :: t' /\ is_digit d = true) ->
  scan_once (S f) (S room) (c :: t) = match_number (c :: t).
Proof.
  intros H. cbn [scan_once].
  assert (Hc : c = 45 \/ 48 <= c <= 57).
  { destruct H as [H | [H _]]; [right; now apply is_digit_range | now left]. }
  replace (c =? 34) with false by (symmetry; apply N.eqb_neq; lia).
  replace (c =? 123) with false by (symmetry; apply N.eqb_neq; lia).
  replace (c =? 91) with false by (symmetry; apply N.eqb_neq; lia).
  destruct H as [H | (-> & d & t' & -> & Hd)].
  - now rewrite match_constant_digit.
  - now rewrite match_constant_minus.
Qed.

Lemma parse_items_step (f room : nat) (acc : list pyval) (s : str) :
  parse_items (S f) room acc s =
  match scan_once f room s with
  | Scanned (v, r1) =>
      match skip_ws r1 with
      | [] => Malformed
      | c :: r2 =>
          if c =? 93 then Scanned (PList (acc ++ [v]), r2)
          else if c =? 44 then parse_items f room (acc ++ [v]) (skip_ws r2)
          else Malformed
      end
  | Malformed => Malformed
  | Stopped why => Stopped why
  end.
Proof. reflexivity. Qed.

Lemma parse_pairs_step (f room : nat) (acc : dict) (r : str) :
  parse_pairs (S f) room acc (34 :: r) =
  match scanstring r with
  | None => Malformed
  | Some (k, r1) =>
      match skip_ws r1 with
      | [] => Malformed
      | c2 :: r2 =>
          if c2 =? 58 then
            match scan_once f room (skip_ws r2) with
            | Scanned (v, r3) =>
                match skip_ws r3 with
                | [] => Malformed
                | c3 :: r4 =>
                    if c3 =? 125 then Scanned (PDict (dict_set k v acc), r4)
                    else if c3 =? 44
                    then parse_pairs f room (dict_set k v acc) (skip_ws r4)
                    else Malformed
                end
            | Malformed => Malformed
            | Stopped why => Stopped why
            end
          else Malformed
      end
  end.
Proof. reflexivity. Qed.

(** *** Dictionaries built by assignment *)

Lemma dict_set_fresh (A : Type) (k : str) (v : A) (d : list (str * A)) :
  ~ In k (List.map fst d) -> dict_set k v d = d ++ [(k, v)].
Proof.
  induction d as [|[k' v'] d IH]; intros Hn; cbn [dict_set app].
  - reflexivity.
  - cbn [List.map fst In] in Hn.
    destruct (str_eqb k' k) eqn:E.
    + apply str_eqb_eq in E. tauto.
    + rewrite IH by tauto. reflexivity.
Qed.

Lemma dict_of_pairs_distinct (d acc : dict) :
  NoDup (List.map fst acc ++ List.map fst d) -> dict_of_pairs acc d = acc ++ d.
Proof.
  unfold dict_of_pairs. revert acc.
  induction d as [|[k v] d IH]; intros acc Hnd; cbn [fold_left fst snd].
  - now rewrite app_nil_r.
  - cbn [List.map fst] in Hnd.
    rewrite dict_set_fresh.
    + rewrite IH.
      * now rewrite <- app_assoc.
      * rewrite map_app, <- app_assoc. exact Hnd.
    + apply NoDup_remove_2 in Hnd. intros Hin. apply Hnd.
      apply in_or_app. now left.
Qed.

(** *** Arrays *)

Lemma join_encode_head (l : list pyval) :
  Forall (fun v => wf_pyval v = true) l -> l <> [] ->
  exists c t, join item_separator (List.map encode l) = c :: t /\ value_start c.
Proof.
  destruct l as [|v l]; [contradiction|]. intros Hwf _.
  inversion Hwf as [|? ? Hv _]; subst.
  destruct (encode_head v Hv) as (c & t & E & H).
  destruct l as [|v' l]; cbn [List.map join]; rewrite E.
  - eauto.
  - eexists _, _. split; [reflexivity | assumption].
Qed.

Lemma parse_items_encode (l : list pyval) :
  Forall reads_back l -> Forall (fun v => wf_pyval v = true) l -> l <> [] ->
  forall (fuel room : nat) (acc : list pyval) (rest : str),
    (length (join item_separator (List.map encode l)) < fuel)%nat ->
    (forall x, In x l -> (depth x <= room)%nat) ->
    parse_items fuel room acc (join item_separator (List.map encode l) ++ 93 :: rest)
    = Scanned (PList (acc ++ l), rest).
Proof.
  induction l as [|v l IH]; [contradiction|].
  intros Hall Hwf _ fuel room acc rest Hfuel Hroom.
  inversion Hall as [|? ? Hv Hl]; subst.
  inversion Hwf as [|? ? Hwv Hwl]; subst.
  assert (Hdv : (depth v <= room)%nat) by (apply Hroom; now left).
  destruct fuel as [|f]; [lia|]. rewrite parse_items_step.
  destruct l as [|v' l'].
  - cbn [List.map join] in *.
    rewrite Hv; [|lia|exact Hdv|simpl; tauto].
    rewrite (proj1 (skip_ws_close rest)). reflexivity.
  - assert (Hne : v' :: l' <> []) by discriminate.
    specialize (IH Hl Hwl Hne).
    change (join item_separator (List.map encode (v :: v' :: l')))
      with (encode v ++ item_separator
            ++ join item_separator (List.map encode (v' :: l'))) in *.
    set (J := join item_separator (List.map encode (v' :: l'))) in *.
    rewrite !length_app in Hfuel. cbn [item_separator length] in Hfuel.
    pose proof (encode_length_pos v Hwv) as Hpos.
    rewrite <- !app_assoc. cbn [item_separator app].
    rewrite Hv; [|lia|exact Hdv|simpl; tauto].
    rewrite skip_ws_comma. change (44 =? 93) with false.
    change (44 =? 44) with true. cbv iota.
    destruct (join_encode_head Hwl Hne) as (c & t & EJ & Hc). fold J in EJ.
    assert (Hskip : skip_ws (J ++ 93 :: rest) = J ++ 93 :: rest).
    { rewrite EJ. cbn [app]. now apply skip_ws_value. }
    rewrite skip_ws_space, Hskip, IH;
      [now rewrite <- app_assoc | lia | intros x Hx; apply Hroom; now right].
Qed.

(** *** Objects *)

Lemma encode_pair_cons (k : str) (v : pyval) (t : str) :
  encode_pair (k, v) ++ t = 34 :: escape_chars k ++ 34 :: 58 :: 32 :: encode v ++ t.
Proof.
  cbn [encode_pair]. unfold encode_basestring_ascii, key_separator.
  cbn [app]. rewrite <- !app_assoc. reflexivity.
Qed.

Lemma encode_pair_length (k : str) (v : pyval) :
  (length (encode v) + 4 <= length (encode_pair (k, v)))%nat.
Proof.
  rewrite <- (app_nil_r (encode_pair (k, v))), encode_pair_cons.
  cbn [length]. rewrite length_app. cbn [length]. rewrite length_app. lia.
Qed.

Lemma join_pairs_head (d : dict) :
  d <> [] ->
  exists t, join item_separator (List.map encode_pair d) = 34 :: t.
Proof.
  destruct d as [|[k v] d]; [contradiction|]. intros _.
  destruct d as [|kv d]; cbn [List.map join]; eexists; reflexivity.
Qed.

Lemma parse_pairs_encode (d : dict) :
  Forall (fun kv => scalar_str (fst kv) = true /\ wf_pyval (snd kv) = true /\
                    reads_back (snd kv)) d ->
  d <> [] ->
  forall (fuel room : nat) (acc : dict) (rest : str),
    (length (join item_separator (List.map encode_pair d)) < fuel)%nat ->
    (forall k x, In (k, x) d -> (depth x <= room)%nat) ->
    parse_pairs fuel room acc
      (join item_separator (List.map encode_pair d) ++ 125 :: rest)
    = Scanned (PDict (dict_of_pairs acc d), rest).
Proof.
  induction d as [|[k v] d IH]; [contradiction|].
  intros Hall _ fuel room acc rest Hfuel Hroom.
  inversion Hall as [|? ? [Hk [Hwv Hv]] Hd]; subst. cbn [fst snd] in Hk, Hv, Hwv.
  assert (Hdv : (depth v <= room)%nat) by (apply (Hroom k); now left).
  destruct fuel as [|f]; [lia|].
  destruct (encode_head v Hwv) as (c & t & Ev & Hc).
  pose proof (encode_pair_length k v) as Hlen.
  destruct d as [|kv' d'].
  - cbn [List.map join] in *.
    rewrite encode_pair_cons, parse_pairs_step, scanstring_escape_chars by assumption.
    rewrite skip_ws_colon. change (58 =? 58) with true. cbv iota.
    rewrite skip_ws_space.
    replace (skip_ws (encode v ++ 125 :: rest)) with (encode v ++ 125 :: rest)
      by (rewrite Ev; cbn [app]; symmetry; now apply skip_ws_value).
    rewrite Hv; [|lia|exact Hdv|simpl; tauto].
    rewrite (proj2 (skip_ws_close rest)). reflexivity.
  - assert (Hne : kv' :: d' <> []) by discriminate.
    specialize (IH Hd Hne).
    change (join item_separator (List.map encode_pair ((k, v) :: kv' :: d')))
      with (encode_pair (k, v) ++ item_separator
            ++ join item_separator (List.map encode_pair (kv' :: d'))) in *.
    set (J := join item_separator (List.map encode_pair (kv' :: d'))) in *.
    rewrite !length_app in Hfuel. cbn [item_separator length] in Hfuel.
    rewrite <- !app_assoc. cbn [item_separator app].
    rewrite encode_pair_cons, parse_pairs_step, scanstring_escape_chars by assumption.
    rewrite skip_ws_colon. change (58 =? 58) with true. cbv iota.
    set (tail := 44 :: 32 :: J ++ 125 :: rest).
    rewrite skip_ws_space.
    replace (skip_ws (encode v ++ tail)) with (encode v ++ tail)
      by (rewrite Ev; cbn [app]; symmetry; now apply skip_ws_value).
    rewrite Hv; [|lia|exact Hdv|simpl; tauto].
    subst tail. rewrite skip_ws_comma.
    change (44 =? 125) with false. change (44 =? 44) with true. cbv iota.
    destruct (join_pairs_head Hne) as (t' & EJ). fold J in EJ.
    rewrite skip_ws_space.
    replace (skip_ws (J ++ 125 :: rest)) with (J ++ 125 :: rest)
      by (rewrite EJ; reflexivity).
    rewrite IH; [reflexivity | lia |].
    intros k' x Hx. apply (Hroom k'). now right.
Qed.

(** *** The whole document *)

Lemma encode_array (l : list pyval) :
  encode (PList l) = 91 :: join item_separator (List.map encode l) ++ [93].
Proof. reflexivity. Qed.

Lemma encode_object (d : dict) :
  encode (PDict d) = 123 :: join item_separator (List.map encode_pair d) ++ [125].
Proof. reflexivity. Qed.

Lemma scan_once_encode (v : pyval) :
  wf_pyval v = true -> first_refusal v = None -> reads_back v.
Proof.
  induction v as [ | b | z | s | l IHl | d IHd | t] using pyval_ind;
    intros Hwf Href fuel room rest Hfuel Hroom Hrest;
    try discriminate;
    (destruct room as [|room]; [cbn [depth] in Hroom; lia|]).
  - destruct fuel as [|f]; [simpl in Hfuel; lia | reflexivity].
  - destruct fuel as [|f]; [destruct b; simpl in Hfuel; lia|].
    destruct b; reflexivity.
  - destruct fuel as [|f]; [pose proof (encode_length_pos (PInt z) eq_refl); lia|].
    cbn [encode].
    assert (Hdig : (digits z <= max_str_digits)%nat).
    { cbn [first_refusal] in Href.
      destruct (max_str_digits <? digits z)%nat eqn:E; [discriminate|].
      now apply Nat.ltb_ge. }
    destruct (int_repr_head z) as (c & t & E & Hc).
    rewrite E. cbn [app]. rewrite scan_once_number.
    + rewrite app_comm_cons, <- E. now apply match_number_int_repr.
    + destruct Hc as [Hc | (-> & d & t' & -> & Hd)]; [now left|].
      right. split; [reflexivity|]. exists d, (t' ++ rest). now split.
  - destruct fuel as [|f]; [simpl in Hfuel; lia|].
    cbn [encode]. unfold encode_basestring_ascii. cbn [app].
    rewrite scan_once_string, <- app_assoc. cbn [app].
    now rewrite scanstring_escape_chars.
  - cbn [wf_pyval] in Hwf.
    assert (Hwl : Forall (fun v => wf_pyval v = true) l).
    { rewrite forallb_forall in Hwf. now apply Forall_forall. }
    assert (Hall : Forall reads_back l).
    { rewrite forallb_forall in Hwf. rewrite Forall_forall in IHl |- *.
      intros x Hx. apply IHl; auto. now apply (first_refusal_item l). }
    assert (Hdl : forall x, In x l -> (depth x <= room)%nat).
    { intros x Hx. apply depth_item in Hx. cbn [depth] in Hroom. lia. }
    rewrite encode_array in *. cbn [length] in Hfuel.
    destruct fuel as [|f]; [lia|]. cbn [app]. rewrite scan_once_array.
    destruct l as [|v l].
    + reflexivity.
    + assert (Hne : v :: l <> []) by discriminate.
      rewrite <- app_assoc. cbn [app].
      destruct (join_encode_head Hwl Hne) as (c & t & EJ & Hc).
      rewrite length_app in Hfuel. cbn [length] in Hfuel.
      pose proof (parse_items_encode Hall Hwl Hne (fuel := f) (room := room) [] rest
                    ltac:(lia) Hdl) as Hp.
      rewrite EJ in Hp |- *. cbn [app] in Hp |- *.
      rewrite skip_ws_value by assumption.
      apply value_start_facts in Hc as (_ & _ & _ & _ & H93 & _).
      apply N.eqb_neq in H93. rewrite H93. exact Hp.
  - cbn [wf_pyval] in Hwf. apply andb_true_iff in Hwf as [Hkeys Hwf].
    assert (Hall : Forall (fun kv => scalar_str (fst kv) = true /\
                                     wf_pyval (snd kv) = true /\
                                     reads_back (snd kv)) d).
    { rewrite forallb_forall in Hwf. rewrite Forall_forall in IHd |- *.
      intros [k x] Hx. specialize (Hwf _ Hx). cbn beta iota in Hwf.
      apply andb_true_iff in Hwf as [Hk Hx']. split; [exact Hk|].
      split; [exact Hx'|].
      apply (IHd _ Hx); [exact Hx'|]. now apply (first_refusal_value d k). }
    assert (Hdl : forall k x, In (k, x) d -> (depth x <= room)%nat).
    { intros k x Hx. apply depth_value in Hx. cbn [depth] in Hroom. lia. }
    rewrite encode_object in *. cbn [length] in Hfuel.
    destruct fuel as [|f]; [lia|]. cbn [app]. rewrite scan_once_object.
    destruct d as [|kv d].
    + reflexivity.
    + assert (Hne : kv :: d <> []) by discriminate.
      rewrite <- app_assoc. cbn [app].
      destruct (join_pairs_head Hne) as (t & EJ).
      rewrite length_app in Hfuel. cbn [length] in Hfuel.
      pose proof (parse_pairs_encode Hall Hne (fuel := f) (room := room) [] rest
                    ltac:(lia) Hdl) as Hp.
      rewrite dict_of_pairs_distinct in Hp
        by (cbn [List.map app]; now apply distinct_NoDup).
      rewrite EJ in Hp |- *. cbn [app] in Hp |- *.
      exact Hp.
Qed.

Lemma dumps_refusal_none (v : pyval) :
  dumps_refusal v = None ->
  (depth v <= nesting_room)%nat /\ first_refusal v = None.
Proof.
  unfold dumps_refusal.
  destruct (nesting_room <? depth v)%nat eqn:E; [discriminate|].
  apply Nat.ltb_ge in E. now split.
Qed.

(** Decoding the document [json.dumps] writes gives the value back. *)
Lemma json_loads_dumps (v : pyval) :
  wf_pyval v = true -> dumps_refusal v = None ->
  json_loads (json_dumps v) = Scanned v.
Proof.
  intros Hwf Href. apply dumps_refusal_none in Href as [Hdepth Href].
  unfold json_loads, json_dumps.
  destruct (encode_head v Hwf) as (c & t & E & Hc).
  pose proof (scan_once_encode v Hwf Href (fuel := S (length (encode v)))
                (room := nesting_room) [] ltac:(lia) Hdepth I) as Hs.
  rewrite app_nil_r in Hs.
  rewrite E in *.
  replace (startswith [65279] (c :: t)) with false.
  - rewrite skip_ws_value, Hs by assumption. reflexivity.
  - cbn [startswith]. apply value_start_facts in Hc as (_ & _ & _ & _ & _ & _ & H).
    apply not_eq_sym in H. apply N.eqb_neq in H. now rewrite H.
Qed.

(** What the decoder returns is of the types JSON carries. *)
Ltac differ := let H := fresh in intros H; (discriminate H || (cbn in H; discriminate H)).

Lemma finish_number_native (neg : bool) (u : Decimal.uint) (r rest : str) (t : bool) :
  finish_number neg u r <> Scanned (PForeign t, rest).
Proof.
  unfold finish_number. destruct (is_float_tail r); [differ|].
  destruct (_ <? _)%nat; differ.
Qed.

Lemma match_number_native (s rest : str) (t : bool) :
  match_number s <> Scanned (PForeign t, rest).
Proof.
  assert (H : forall neg s1,
             match s1 with
             | [] => Malformed
             | c :: r =>
                 if c =? 48 then finish_number neg (D0 Nil) r
                 else if is_digit c
                 then let '(u, rest) := span_digits r in
                      finish_number neg (digit_cons c u) rest
                 else Malformed
             end <> Scanned (PForeign t, rest)).
  { intros neg [|c r]; [differ|].
    destruct (c =? 48); [apply finish_number_native|].
    destruct (is_digit c); [|differ].
    destruct (span_digits r). apply finish_number_native. }
  unfold match_number. destruct s as [|c r]; [apply (H false [])|].
  destruct (c =? 45); [apply (H true r) | apply (H false (c :: r))].
Qed.

Lemma match_constant_native (s rest : str) (t : bool) :
  match_constant s <> Some (Scanned (PForeign t, rest)).
Proof.
  unfold match_constant.
  repeat (destruct (strip_prefix _ _); [differ|]).
  destruct (_ || _); differ.
Qed.

Lemma scan_once_native (fuel room : nat) (s rest : str) (t : bool) :
  scan_once fuel room s <> Scanned (PForeign t, rest)
with parse_pairs_native (fuel room : nat) (acc : dict) (s rest : str) (t : bool) :
  parse_pairs fuel room acc s <> Scanned (PForeign t, rest)
with parse_items_native (fuel room : nat) (acc : list pyval) (s rest : str) (t : bool) :
  parse_items fuel room acc s <> Scanned (PForeign t, rest).
Proof.
  - destruct fuel as [|f]; [differ|]. cbn [scan_once].
    destruct room as [|room]; [differ|].
    destruct s as [|c r]; [differ|].
    destruct (c =? 34).
    { destruct (scanstring r) as [[x y]|]; differ. }
    destruct (c =? 123).
    { destruct (skip_ws r) as [|c1 r1]; [differ|].
      destruct (c1 =? 125); [differ | apply parse_pairs_native]. }
    destruct (c =? 91).
    { destruct (skip_ws r) as [|c1 r1]; [differ|].
      destruct (c1 =? 93); [differ | apply parse_items_native]. }
    destruct (match_constant (c :: r)) as [answer|] eqn:Hm.
    { intros ->. now apply match_constant_native in Hm. }
    apply match_number_native.
  - destruct fuel as [|f]; [differ|]. cbn [parse_pairs].
    destruct s as [|q r]; [differ|].
    destruct (q =? 34); [|differ].
    destruct (scanstring r) as [[k r1]|]; [|differ].
    destruct (skip_ws r1) as [|c2 r2]; [differ|].
    destruct (c2 =? 58); [|differ].
    destruct (scan_once f room (skip_ws r2)) as [[v r3] | | why]; try differ.
    destruct (skip_ws r3) as [|c3 r4]; [differ|].
    destruct (c3 =? 125); [differ|].
    destruct (c3 =? 44); [apply parse_pairs_native | differ].
  - destruct fuel as [|f]; [differ|]. cbn [parse_items].
    destruct (scan_once f room s) as [[v r1] | | why]; try differ.
    destruct (skip_ws r1) as [|c r2]; [differ|].
    destruct (c =? 93); [differ|].
    destruct (c =? 44); [apply parse_items_native | differ].
Qed.

Lemma json_loads_native (s : str) (t : bool) : json_loads s <> Scanned (PForeign t).
Proof.
  unfold json_loads. destruct (startswith [65279] s); [differ|].
  destruct (scan_once _ _ _) as [[v rest] | | why] eqn:E; try differ.
  destruct (skip_ws rest); [|differ].
  intros [= ->]. now apply scan_once_native in E.
Qed.

End CodecFacts.

(* ================================================================== *)
(** ** Facts about the file tree and the archive *)
(* ================================================================== *)

Section FsFacts.

Local Open Scope N_scope.

Lemma node_ind (P : node -> Prop) :
  (forall st data, P (File st data)) ->
  (forall es, Forall (fun e => P (snd e)) es -> P (Dir es)) ->
  P Special ->
  (forall t, match t with Found n => P n | _ => True end -> P (Link t)) ->
  (forall a es, Forall (fun e => P (snd e)) es -> P (Shut a es)) ->
  forall n, P n.
Proof.
  intros HF HD HS HL HSh. fix IH 1. intros [st data | es | | t | a es].
  - apply HF.
  - apply HD. induction es as [|[nm c] es IHes]; constructor; [apply IH | exact IHes].
  - exact HS.
  - apply HL. destruct t as [n | | e]; [apply IH | exact I | exact I].
  - apply HSh. induction es as [|[nm c] es IHes]; constructor; [apply IH | exact IHes].
Qed.

Lemma dict_get_In (A : Type) (k : str) (v : A) (d : list (str * A)) :
  NoDup (List.map fst d) -> In (k, v) d -> dict_get k d = Some v.
Proof.
  induction d as [|[k' v'] d IH]; intros Hnd Hin; [contradiction|].
  cbn [List.map fst] in Hnd. inversion Hnd as [|? ? Hk Hd]; subst.
  cbn [dict_get]. destruct Hin as [E | Hin].
  - injection E as -> ->. now rewrite str_eqb_refl.
  - destruct (str_eqb k' k) eqn:E.
    + apply str_eqb_eq in E. subst k'. exfalso. apply Hk.
      apply in_map_iff. now exists (k, v).
    + now apply IH.
Qed.

Lemma dict_get_Some_In (A : Type) (k : str) (v : A) (d : list (str * A)) :
  dict_get k d = Some v -> In (k, v) d.
Proof.
  induction d as [|[k' v'] d IH]; cbn [dict_get]; [discriminate|].
  destruct (str_eqb k' k) eqn:E.
  - apply str_eqb_eq in E. intros [= ->]. subst. now left.
  - intros H. right. now apply IH.
Qed.

(** *** Links and the walk *)

Lemma resolve_found (n m : node) : resolve n = Found m -> resolve m = Found m.
Proof.
  induction n as [st data | es _ | | t IH | a es _] using node_ind;
    cbn [resolve]; try (intros [= <-]; reflexivity).
  destruct t as [n' | | e]; [exact IH | discriminate | discriminate].
Qed.

Lemma resolve_not_link (n : node) (t : found node) : resolve n <> Found (Link t).
Proof.
  induction n as [st data | es _ | | t' IH | a es _] using node_ind;
    cbn [resolve]; try discriminate.
  destruct t' as [n' | | e]; [exact IH | discriminate | discriminate].
Qed.

Lemma resolve_dir (es : list (str * node)) : resolve (Dir es) = Found (Dir es).
Proof. reflexivity. Qed.

Lemma walk_resolved (n m : node) (p : path) :
  resolve n = Found m -> walk n p = walk m p.
Proof.
  intros H. destruct p as [|c p]; cbn [walk]; now rewrite H, (resolve_found _ H).
Qed.

Lemma walk_unresolved (n : node) (p : path) :
  (resolve n = Missing -> walk n p = Missing) /\
  (forall e, resolve n = Failed e -> walk n p = Failed e).
Proof. split; [intros H | intros e H]; destruct p; cbn [walk]; now rewrite H. Qed.

Lemma walk_app (fs : node) (p q : path) :
  walk fs (p ++ q) =
  match walk fs p with
  | Found n => walk n q
  | Missing => Missing
  | Failed e => Failed e
  end.
Proof.
  revert fs. induction p as [|c p IH]; intros fs; cbn [app].
  - cbn [walk]. destruct (resolve fs) as [n | | e] eqn:E.
    + now apply walk_resolved.
    + now apply walk_unresolved.
    + now apply walk_unresolved.
  - cbn [walk].
    destruct (resolve fs) as [[st data | es | | t | [ | | ] es] | | e];
      try reflexivity;
      (destruct (name_max <? byte_length c); [reflexivity|]);
      (destruct (dict_get c es) as [n'|]; [apply IH | reflexivity]).
Qed.

Lemma stat_accepted (fs : node) (q : path) :
  accepted q = true -> stat fs q = walk fs q.
Proof.
  unfold accepted, stat. intros H. apply andb_true_iff in H as [H1 H2].
  rewrite H1. cbn [negb]. apply N.leb_le in H2.
  now replace (path_max <? byte_length (as_posix q)) with false
    by (symmetry; apply N.ltb_ge; exact H2).
Qed.

Lemma stat_found (fs : node) (p : path) (n : node) :
  stat fs p = Found n -> accepted p = true /\ walk fs p = Found n.
Proof.
  unfold stat, accepted.
  destruct (forallb os_char (as_posix p)); cbn [negb andb]; [|discriminate].
  destruct (N.ltb_spec path_max (byte_length (as_posix p))) as [H | H];
    [discriminate|].
  intros E. split; [now apply N.leb_le | exact E].
Qed.

Lemma lookup_stat (fs : node) (p : path) (n : node) :
  lookup fs p = Some n <-> stat fs p = Found n.
Proof.
  unfold lookup. destruct (stat fs p); split; congruence.
Qed.

Lemma stat_not_link (fs : node) (p : path) (t : found node) :
  stat fs p <> Found (Link t).
Proof.
  intros H. apply stat_found in H as [_ H]. revert fs H.
  induction p as [|c p IH]; intros fs; cbn [walk].
  - apply resolve_not_link.
  - destruct (resolve fs) as [[st data | es | | t' | [ | | ] es] | | e];
      try discriminate;
      (destruct (name_max <? byte_length c); [discriminate|]);
      (destruct (dict_get c es) as [n'|]; [apply IH | discriminate]).
Qed.

Lemma relative_to_app (p r : path) : relative_to p (p ++ r) = Some r.
Proof.
  induction p as [|c p IH]; cbn [app relative_to]; [reflexivity|].
  now rewrite str_eqb_refl.
Qed.

Lemma wf_node_dir (es : list (str * node)) :
  wf_node (Dir es) = true ->
  NoDup (List.map fst es) /\
  forall nm c, In (nm, c) es -> valid_name nm = true /\ wf_node c = true.
Proof.
  cbn [wf_node]. intros H. apply andb_true_iff in H as [Hd Hall].
  split; [now apply distinct_NoDup|].
  intros nm c Hin. rewrite forallb_forall in Hall.
  specialize (Hall _ Hin). cbn beta iota in Hall.
  now apply andb_true_iff in Hall.
Qed.

Lemma zippable_dir (es : list (str * node)) :
  zippable (Dir es) = true ->
  forall nm c, In (nm, c) es -> scalar_str nm = true /\ zippable c = true.
Proof.
  cbn [zippable]. intros H nm c Hin. rewrite forallb_forall in H.
  specialize (H _ Hin). cbn beta iota in H. now apply andb_true_iff in H.
Qed.

Lemma valid_name_facts (nm : str) :
  valid_name nm = true ->
  nm <> [] /\ ~ In 47 nm /\ byte_length nm <= name_max.
Proof.
  unfold valid_name. rewrite !andb_true_iff, !negb_true_iff.
  intros [[[[[Hne Hsl] _] _] _] Hlen]. split; [|split].
  - now apply str_eqb_neq.
  - intros Hin. assert (E : existsb (N.eqb 47) nm = true).
    { apply existsb_exists. exists 47. split; [assumption | apply N.eqb_refl]. }
    congruence.
  - now apply N.leb_le.
Qed.

(** Where the walk arrives for an entry of a directory. *)
Lemma walk_entry (fs : node) (q : path) (es : list (str * node)) (nm : str)
    (c : node) :
  walk fs q = Found (Dir es) -> NoDup (List.map fst es) -> In (nm, c) es ->
  valid_name nm = true ->
  walk fs (q ++ [nm]) = resolve c.
Proof.
  intros Hq Hnd Hin Hnm. rewrite walk_app, Hq. cbn [walk resolve].
  apply valid_name_facts in Hnm as (_ & _ & Hlen).
  replace (name_max <? byte_length nm) with false
    by (symmetry; apply N.ltb_ge; exact Hlen).
  now rewrite (dict_get_In _ _ _ Hnd Hin).
Qed.

Lemma zippable_resolved (c : node) :
  zippable c = true ->
  match resolve c with
  | Found (File st _) => zippable_file st = true
  | Found _ => True
  | Missing => True
  | Failed _ => False
  end.
Proof.
  destruct c as [st data | es | | t | a es]; cbn [resolve]; try trivial.
  cbn [zippable resolve].
  destruct (match t with
            | Found n' => resolve n'
            | Missing => Missing
            | Failed e => Failed e
            end) as [[st data | es | | t' | a es] | | e]; try trivial.
  discriminate.
Qed.

Lemma scalar_join (r : path) :
  Forall (fun nm => scalar_str nm = true) r -> scalar_str (as_posix r) = true.
Proof.
  unfold as_posix, scalar_str. intros H.
  destruct r as [|n r]; [reflexivity|].
  revert n H. induction r as [|m r IH]; intros n H;
    inversion H as [|? ? Hn Hr]; subst; [exact Hn|].
  change (join [47] (n :: m :: r)) with (n ++ [47] ++ join [47] (m :: r)).
  rewrite !forallb_app. unfold scalar_str in Hn. rewrite Hn.
  cbn [forallb]. rewrite (IH m Hr). reflexivity.
Qed.

(** *** One turn of the loop *)

Lemma zip_step_entry (fs : node) (p rel : path) (es : list (str * node))
    (nm : str) (c : node) (acc : archive) :
  walk fs (p ++ rel) = Found (Dir es) ->
  NoDup (List.map fst es) -> In (nm, c) es -> valid_name nm = true ->
  accepted ((p ++ rel) ++ [nm]) = true ->
  Forall (fun k => scalar_str k = true) (rel ++ [nm]) ->
  zippable c = true ->
  zip_step fs p (inr acc) ((p ++ rel) ++ [nm])
  = inr (acc ++ List.map member_of (direct_file rel (nm, c))).
Proof.
  intros Hq Hnd Hin Hnm Hacc Hsc Hz.
  assert (Hstat : stat fs ((p ++ rel) ++ [nm]) = resolve c).
  { rewrite (stat_accepted _ _ Hacc). apply walk_entry with (es := es); assumption. }
  apply zippable_resolved in Hz.
  unfold zip_step, bind, path_is_file, is_file, lookup, zf_write.
  unfold direct_file, file_content. cbn [snd fst]. rewrite Hstat.
  destruct (resolve c) as [[st data | es0 | | t | a es0] | | e];
    try (cbn [List.map]; now rewrite app_nil_r); try contradiction.
  rewrite <- app_assoc, relative_to_app.
  unfold zippable_file in Hz. rewrite !andb_true_iff, !N.leb_le in Hz.
  destruct Hz as [[Hlo Hhi] Hr].
  replace (mtime_year st <? 1980) with false by (symmetry; apply N.ltb_ge; lia).
  replace (2107 <? mtime_year st) with false by (symmetry; apply N.ltb_ge; lia).
  rewrite Hr, (scalar_join Hsc). reflexivity.
Qed.

(** The first half of the walk of a directory: its own entries. *)
Lemma zip_fold_entries (fs : node) (p rel : path) (es : list (str * node)) :
  walk fs (p ++ rel) = Found (Dir es) ->
  NoDup (List.map fst es) ->
  Forall (fun k => scalar_str k = true) rel ->
  (forall nm c, In (nm, c) es ->
     valid_name nm = true /\ scalar_str nm = true /\ zippable c = true /\
     accepted ((p ++ rel) ++ [nm]) = true) ->
  forall (es' : list (str * node)) (acc : archive),
    incl es' es ->
    fold_left (zip_step fs p) (List.map (fun e => (p ++ rel) ++ [fst e]) es') (inr acc)
    = inr (acc ++ List.map member_of (flat_map (direct_file rel) es')).
Proof.
  intros Hdir Hnd Hrel Hes. induction es' as [|[nm c] es' IH]; intros acc Hincl.
  - cbn. now rewrite app_nil_r.
  - cbn [List.map fold_left flat_map fst].
    assert (Hin : In (nm, c) es) by (apply Hincl; now left).
    destruct (Hes _ _ Hin) as (Hnm & Hsc & Hz & Hacc).
    rewrite (@zip_step_entry fs p rel es nm c acc Hdir Hnd Hin Hnm Hacc);
      [| apply Forall_app; split; [exact Hrel | now constructor] | exact Hz].
    rewrite IH by (intros x Hx; apply Hincl; now right).
    now rewrite map_app, app_assoc.
Qed.

(** The archive the walk of a tree without obstacles fills. *)
Lemma zip_fold_node (fs : node) (p : path) (n : node) :
  wf_node n = true -> zippable n = true ->
  forall (rel : path) (acc : archive),
    walk fs (p ++ rel) = resolve n ->
    Forall (fun k => scalar_str k = true) rel ->
    (forall q, In q (rglob_node (p ++ rel) n) -> accepted q = true) ->
    fold_left (zip_step fs p) (rglob_node (p ++ rel) n) (inr acc)
    = inr (acc ++ List.map member_of (files_below rel n)).
Proof.
  induction n as [st data | es IHes | | t _ | a es _] using node_ind;
    intros Hwf Hz rel acc Hwalk Hrel Hacc;
    try (cbn; now rewrite app_nil_r); try discriminate.
  destruct (wf_node_dir _ Hwf) as [Hnd Hsub].
  pose proof (zippable_dir _ Hz) as Hzs.
  cbn [resolve] in Hwalk.
  cbn [rglob_node files_below] in *.
  assert (Hes : forall nm c, In (nm, c) es ->
            valid_name nm = true /\ scalar_str nm = true /\ zippable c = true /\
            accepted ((p ++ rel) ++ [nm]) = true).
  { intros nm c Hin. destruct (Hsub _ _ Hin) as [Hnm _].
    destruct (Hzs _ _ Hin) as [Hsc Hzc]. repeat split; try assumption.
    apply Hacc, in_or_app. left.
    apply in_map_iff. now exists (nm, c). }
  rewrite fold_left_app,
    (@zip_fold_entries fs p rel es Hwalk Hnd Hrel Hes) by apply incl_refl.
  rewrite map_app, app_assoc.
  generalize (acc ++ List.map member_of (flat_map (direct_file rel) es)).
  assert (Hgen : forall es', incl es' es -> forall a,
    fold_left (zip_step fs p)
      (flat_map (fun e => let '(nm, c) := e in rglob_node ((p ++ rel) ++ [nm]) c) es')
      (inr a)
    = inr (a ++ List.map member_of
             (flat_map (fun e => let '(nm, c) := e in files_below (rel ++ [nm]) c) es'))).
  { induction es' as [|[nm c] es' IH]; intros Hincl a.
    - cbn. now rewrite app_nil_r.
    - cbn [flat_map]. rewrite fold_left_app.
      assert (Hin : In (nm, c) es) by (apply Hincl; now left).
      destruct (Hes _ _ Hin) as (Hnm & Hsc & Hzc & _).
      rewrite Forall_forall in IHes.
      rewrite <- (app_assoc p rel [nm]).
      rewrite (IHes _ Hin); cbn [snd].
      + rewrite IH by (intros x Hx; apply Hincl; now right).
        now rewrite map_app, app_assoc.
      + now apply (Hsub nm).
      + exact Hzc.
      + rewrite app_assoc. apply walk_entry with (es := es); assumption.
      + apply Forall_app. split; [exact Hrel | now constructor].
      + intros q Hq. apply Hacc, in_or_app. right.
        apply in_flat_map. exists (nm, c). split; [exact Hin|].
        now rewrite <- app_assoc. }
  apply Hgen, incl_refl.
Qed.

(** *** What the archive of a tree holds *)

Lemma entry_count (here : path) (nm : str) (c : node) :
  length (direct_file here (nm, c))
  = match c with
    | File _ _ => 1%nat
    | Link _ => count_file_links c
    | _ => 0%nat
    end.
Proof.
  unfold direct_file. cbn [snd fst].
  destruct c as [st data | es | | t | a es]; try reflexivity.
  cbn [count_file_links]. now destruct (file_content (Link t)).
Qed.

Lemma files_below_length (n : node) (here : path) :
  length (files_below here n)
  = match n with
    | Dir _ => (count_files n + count_file_links n)%nat
    | _ => O
    end.
Proof.
  revert here.
  induction n as [st data | es IHes | | t _ | a es _] using node_ind;
    intros here; try reflexivity.
  cbn [files_below count_files count_file_links]. rewrite length_app.
  induction es as [|[nm c] es IH]; [reflexivity|].
  inversion IHes as [|? ? Hc Hes]; subst. cbn [snd] in Hc.
  cbn [flat_map List.map snd].
  change (list_sum (?x :: ?l)) with (x + list_sum l)%nat.
  rewrite !length_app, entry_count.
  specialize (IH Hes). specialize (Hc (here ++ [nm])). rewrite Hc.
  destruct c as [st data | es0 | | t | a es0]; cbn [count_files count_file_links] in *;
    lia.
Qed.


Lemma file_at_here (c : node) (rel : path) (data : bytes) :
  file_content c = Some data -> file_at c rel data -> rel = [].
Proof.
  intros Hc H. inversion H; subst; [reflexivity | discriminate].
Qed.


(** *** Member names are pairwise different *)










End FsFacts.

(* ================================================================== *)
(** ** Facts about the client *)
(* ================================================================== *)

Section ClientFacts.

Local Open Scope N_scope.

Lemma is_file_read_bytes (fs : node) (p : path) :
  is_file fs p = true -> exists st data, lookup fs p = Some (File st data).
Proof.
  unfold is_file.
  destruct (lookup fs p) as [[st data | es | | t | a es]|]; try discriminate.
  eauto.
Qed.

Lemma is_dir_exists (fs : node) (p : path) :
  is_dir fs p = true -> exists_ fs p = true.
Proof.
  unfold exists_, is_dir. destruct (lookup fs p); [reflexivity | discriminate].
Qed.

(** [not p.exists() or not p.is_dir()], in one look at the path. *)
Lemma not_a_dir_spec (fs : node) (p : path) :
  not_a_dir fs p
  = match stat fs p with
    | Failed e => inl (os_exn e)
    | _ => inr (negb (is_dir fs p))
    end.
Proof.
  unfold not_a_dir, bind, path_exists, path_is_dir, exists_, is_dir, lookup.
  destruct (stat fs p) as [[st data | es | | t | a es] | | e]; reflexivity.
Qed.

Lemma not_a_file_spec (fs : node) (p : path) :
  not_a_file fs p
  = match stat fs p with
    | Failed e => inl (os_exn e)
    | _ => inr (negb (is_file fs p))
    end.
Proof.
  unfold not_a_file, bind, path_exists, path_is_file, exists_, is_file, lookup.
  destruct (stat fs p) as [[st data | es | | t | a es] | | e]; reflexivity.
Qed.

Lemma os_exn_not_missing (e : os_error) (msg : str) :
  os_exn e <> FileNotFoundError msg.
Proof. destruct e; discriminate. Qed.

(** *** The loop of the archiver *)

Lemma zip_fold_raised (fs : node) (p : path) (e : exn) (l : list path) :
  fold_left (zip_step fs p) l (inl e) = inl e.
Proof. induction l as [|x l IH]; [reflexivity | exact IH]. Qed.

(** The loop does not report a missing file: it writes only what it has
    just found to be a regular file. *)
Lemma zip_step_not_missing (fs : node) (p : path) (a : archive) (q : path)
    (msg : str) :
  zip_step fs p (inr a) q <> inl (FileNotFoundError msg).
Proof.
  unfold zip_step, bind, path_is_file, is_file, lookup, zf_write.
  destruct (stat fs q) as [[st data | es | | t | ac es] | | e]; try discriminate.
  - destruct (relative_to p q); [|discriminate].
    destruct (mtime_year st <? 1980); [discriminate|].
    destruct (negb (may_read st)); [discriminate|].
    destruct (negb (scalar_str _)); [discriminate|].
    destruct (2107 <? mtime_year st); discriminate.
  - intros [= H]. now apply os_exn_not_missing in H.
Qed.

Lemma zip_fold_not_missing (fs : node) (p : path) (l : list path) (a : archive)
    (msg : str) :
  fold_left (zip_step fs p) l (inr a) <> inl (FileNotFoundError msg).
Proof.
  revert a. induction l as [|x l IH]; intros a; cbn [fold_left]; [discriminate|].
  destruct (zip_step fs p (inr a) x) as [e | a'] eqn:E.
  - rewrite zip_fold_raised. intros [= ->].
    now apply zip_step_not_missing in E.
  - apply IH.
Qed.

(** The archiver reports a path that is no directory, provided the
    system let it look. *)
Lemma zip_allure_results_missing (fs : node) (p : path) :
  is_dir fs p = false -> (forall e, stat fs p <> Failed e) ->
  zip_allure_results fs p
  = inl (FileNotFoundError (cps "allure results dir not found: " ++ as_posix p)).
Proof.
  intros Hd Hs. unfold zip_allure_results, bind. rewrite not_a_dir_spec, Hd.
  destruct (stat fs p) as [n | | e]; try reflexivity. now elim (Hs e).
Qed.

(** [FileNotFoundError] leaves the archiver for a path that is no
    directory, and for nothing else. *)
Lemma zip_allure_results_error (fs : node) (p : path) (msg : str) :
  zip_allure_results fs p = inl (FileNotFoundError msg) ->
  is_dir fs p = false /\
  msg = cps "allure results dir not found: " ++ as_posix p.
Proof.
  unfold zip_allure_results, bind. rewrite not_a_dir_spec.
  destruct (stat fs p) as [n | | e];
    [ | | intros [= E]; now apply os_exn_not_missing in E];
    (destruct (is_dir fs p); cbn [negb];
     [intros E; now apply zip_fold_not_missing in E | intros [= <-]; now split]).
Qed.

(** The archive of a directory whose tree is well formed and holds
    nothing the archiver stops at. *)
Lemma zip_allure_results_files (fs : node) (p : path) (es : list (str * node)) :
  lookup fs p = Some (Dir es) -> wf_node (Dir es) = true ->
  zippable (Dir es) = true -> forallb accepted (rglob fs p) = true ->
  zip_allure_results fs p = inr (List.map member_of (files_below [] (Dir es))).
Proof.
  intros Hl Hwf Hz Hacc. pose proof Hl as Hs. apply lookup_stat in Hs.
  destruct (stat_found _ _ Hs) as [_ Hw].
  unfold zip_allure_results, bind. rewrite not_a_dir_spec, Hs.
  unfold is_dir. rewrite Hl. cbn [negb].
  unfold rglob in *. rewrite Hl in *.
  rewrite <- (app_nil_r p) at 2.
  rewrite zip_fold_node; try assumption; try reflexivity.
  - now rewrite app_nil_r.
  - constructor.
  - rewrite app_nil_r. now apply forallb_forall.
Qed.

(** *** The [files] dictionary *)

Lemma add_config_none (fs : node) (files : list (str * part)) :
  add_config fs None files = inr files.
Proof. reflexivity. Qed.

Lemma add_config_str (fs : node) (s : str) (files : list (str * part)) :
  add_config fs (Some (ConfigStr s)) files
  = inr (match strip s with
         | [] => files
         | _ :: _ => dict_set (cps "config") (inline_config_part (strip s)) files
         end).
Proof. cbn [add_config]. now destruct (strip s). Qed.

Lemma add_config_path (fs : node) (p : path) (files : list (str * part)) :
  add_config fs (Some (ConfigPath p)) files
  = match stat fs p with
    | Found (File st data) =>
        if may_read st
        then inr (dict_set (cps "config") (file_config_part (name p) data) files)
        else inl PermissionError
    | Failed e => inl (os_exn e)
    | _ => inl (FileNotFoundError (cps "config file not found: " ++ as_posix p))
    end.
Proof.
  cbn [add_config]. rewrite not_a_file_spec.
  unfold bind, is_file, lookup, path_read_bytes.
  destruct (stat fs p) as [[st data | es | | t | a es] | | e]; try reflexivity.
  cbn [negb]. now destruct (may_read st).
Qed.

(** A [Path] that was added is a regular file, and the part holds what
    the file holds. *)
Lemma add_config_file (fs : node) (p : path) (files fl : list (str * part)) :
  add_config fs (Some (ConfigPath p)) files = inr fl ->
  exists st data, lookup fs p = Some (File st data) /\
    fl = dict_set (cps "config") (file_config_part (name p) data) files.
Proof.
  rewrite add_config_path. unfold lookup.
  destruct (stat fs p) as [[st data | es | | t | a es] | | e]; try discriminate.
  destruct (may_read st); [|discriminate]. intros [= <-]. eauto.
Qed.

(** [FileNotFoundError] leaves the configuration block for a [Path] that
    is no regular file, and for nothing else. *)
Lemma add_config_error (fs : node) (config : option config_arg)
    (files : list (str * part)) (msg : str) :
  add_config fs config files = inl (FileNotFoundError msg) ->
  exists p, config = Some (ConfigPath p) /\ is_file fs p = false /\
            msg = cps "config file not found: " ++ as_posix p.
Proof.
  destruct config as [[s | p]|].
  - rewrite add_config_str. discriminate.
  - rewrite add_config_path. unfold is_file, lookup.
    intros H. exists p. split; [reflexivity|]. revert H.
    destruct (stat fs p) as [[st data | es | | t | a es] | | e];
      try (intros [= <-]; now split).
    + destruct (may_read st); discriminate.
    + intros [= E]. now apply os_exn_not_missing in E.
  - discriminate.
Qed.

(** A [Path] that is no regular file ends the block with
    [FileNotFoundError], provided the system let it look. *)
Lemma add_config_missing (fs : node) (p : path) (files : list (str * part)) :
  is_file fs p = false -> (forall e, stat fs p <> Failed e) ->
  add_config fs (Some (ConfigPath p)) files
  = inl (FileNotFoundError (cps "config file not found: " ++ as_posix p)).
Proof.
  rewrite add_config_path. unfold is_file, lookup. intros Hf Hs.
  destruct (stat fs p) as [[st data | es | | t | a es] | | e];
    try reflexivity; try discriminate. now elim (Hs e).
Qed.

Lemma set_config_part (pt r m : part) :
  dict_set (cps "config") pt [(cps "results", r); (cps "meta", m)]
  = [(cps "results", r); (cps "meta", m); (cps "config", pt)].
Proof. reflexivity. Qed.

(** *** What a call that reached [session.post] looks like *)

Lemma upload_sent (self : AllureUploaderClient) (fs : node) (net : transport)
    (project : str) (rd : path) (meta : option dict)
    (config : option config_arg) (req : request) :
  In req (fst (upload self fs net project rd meta config)) ->
  exists a fl,
    zip_allure_results fs rd = inr a /\
    add_config fs config
      [(cps "results", results_part a); (cps "meta", meta_part (meta_or_empty meta))]
    = inr fl /\
    req = {| url := base_url self ++ cps "/api/v1/projects/" ++ project ++ cps "/runs";
             files := fl; timeout := timeout_s self; verify := verify_tls self |} /\
    upload self fs net project rd meta config
    = ([req], match net req with
              | inl f => inl (post_exn f)
              | inr resp => read_response project resp
              end).
Proof.
  unfold upload. cbv zeta.
  destruct (zip_allure_results fs rd) as [e | a]; [contradiction|].
  destruct (dumps_refusal _); [contradiction|].
  destruct (add_config fs config _) as [e | fl] eqn:Hc; [contradiction|].
  intros Hin. exists a, fl.
  split; [reflexivity|]. split; [exact Hc|].
  assert (E : req = {| url := base_url self ++ cps "/api/v1/projects/" ++ project
                                ++ cps "/runs";
                       files := fl; timeout := timeout_s self;
                       verify := verify_tls self |}).
  { destruct (net _); cbn [fst In] in Hin; destruct Hin as [<- | []]; reflexivity. }
  split; [exact E|]. subst req.
  destruct (net _); reflexivity.
Qed.

(** The metadata of a call that reached [session.post] was encoded. *)
Lemma upload_sent_meta (self : AllureUploaderClient) (fs : node) (net : transport)
    (project : str) (rd : path) (meta : option dict)
    (config : option config_arg) (req : request) :
  In req (fst (upload self fs net project rd meta config)) ->
  dumps_refusal (PDict (meta_or_empty meta)) = None.
Proof.
  unfold upload. cbv zeta.
  destruct (zip_allure_results fs rd) as [e | a]; [contradiction|].
  destruct (dumps_refusal _); [contradiction | reflexivity].
Qed.

(** A call whose directory, metadata and configuration are in order
    reaches [session.post], once. *)
Lemma upload_sends (self : AllureUploaderClient) (fs : node) (net : transport)
    (project : str) (rd : path) (meta : option dict)
    (config : option config_arg) (a : archive) (fl : list (str * part)) :
  zip_allure_results fs rd = inr a ->
  dumps_refusal (PDict (meta_or_empty meta)) = None ->
  add_config fs config
    [(cps "results", results_part a); (cps "meta", meta_part (meta_or_empty meta))]
  = inr fl ->
  fst (upload self fs net project rd meta config)
  = [{| url := base_url self ++ cps "/api/v1/projects/" ++ project ++ cps "/runs";
        files := fl; timeout := timeout_s self; verify := verify_tls self |}].
Proof.
  intros Hz Hm Hc. unfold upload. cbv zeta. rewrite Hz, Hm, Hc. now destruct (net _).
Qed.

(** At most one call of [session.post]; a call that made none raised. *)
Lemma upload_log (self : AllureUploaderClient) (fs : node) (net : transport)
    (project : str) (rd : path) (meta : option dict)
    (config : option config_arg) :
  (exists e, upload self fs net project rd meta config = ([], inl e)) \/
  (exists req, fst (upload self fs net project rd meta config) = [req]).
Proof.
  unfold upload. cbv zeta.
  destruct (zip_allure_results fs rd) as [e | a]; [left; eauto|].
  destruct (dumps_refusal _); [left; eauto|].
  destruct (add_config fs config _) as [e | fl]; [left; eauto|].
  right. destruct (net _); cbn [fst]; eauto.
Qed.

(** Without a [config], the call reaches [session.post] exactly when
    the archiver returns and [json.dumps] takes the metadata. *)
Lemma upload_posts_iff (self : AllureUploaderClient) (fs : node) (net : transport)
    (project : str) (rd : path) (meta : option dict) :
  fst (upload self fs net project rd meta None) <> [] <->
  (exists a, zip_allure_results fs rd = inr a) /\
  dumps_refusal (PDict (meta_or_empty meta)) = None.
Proof.
  unfold upload. cbv zeta.
  destruct (zip_allure_results fs rd) as [e | a].
  - cbn [fst]. split; [congruence | intros [(a & [=]) _]].
  - destruct (dumps_refusal _).
    + cbn [fst]. split; [congruence | intros [_ [=]]].
    + cbn [add_config]. destruct (net _); cbn [fst];
        (split; [intros _; split; eauto | discriminate]).
Qed.

Lemma meta_or_empty_set (k : str) (v : pyval) (d : dict) :
  meta_or_empty (Some (dict_set k v d)) = dict_set k v d.
Proof.
  destruct d as [|[k' v'] d]; cbn [dict_set]; [reflexivity|].
  now destruct (str_eqb k' k).
Qed.

Lemma read_response_not_found (project : str) (resp : Response) (msg : str) :
  read_response project resp <> inl (FileNotFoundError msg).
Proof.
  unfold read_response.
  destruct (negb _).
  - unfold raise_for_status. destruct (_ || _); discriminate.
  - unfold json, bind.
    destruct (json_loads _) as [data | | [ | | ]]; try discriminate.
    destruct data as [ | b | z | s | l | d | t]; try discriminate.
    cbn [as_dict]. unfold py_int.
    destruct (get_default _ _ d) as [ | b | z | s | l | d' | t]; try discriminate.
    destruct (is_ascii s); [|discriminate].
    destruct (int_of_str s); discriminate.
Qed.

Lemma post_exn_not_found (f : post_failure) (msg : str) :
  post_exn f <> FileNotFoundError msg.
Proof. destruct f; discriminate. Qed.

Lemma dumps_exn_not_found (r : refusal) (msg : str) :
  dumps_exn r <> FileNotFoundError msg.
Proof. destruct r; discriminate. Qed.

End ClientFacts.

(* ================================================================== *)
(** ** The archiver *)
(* ================================================================== *)

Section Archiver.

Local Open Scope N_scope.




End Archiver.

(* ================================================================== *)
(** ** The request [upload] sends *)
(* ================================================================== *)

Section Request.

Local Open Scope N_scope.

Variable self : AllureUploaderClient.
Variable fs : node.
Variable net : transport.
Variable project : str.
Variable rd : path.
Variable meta : option dict.

(** A call with a results directory that is not there ends in the
    archiver's error, with no call of [session.post]. *)
Lemma upload_missing_results_dir (config : option config_arg) :
  is_dir fs rd = false -> (forall e, stat fs rd <> Failed e) ->
  upload self fs net project rd meta config
  = ([], inl (FileNotFoundError
                (cps "allure results dir not found: " ++ as_posix rd))).
Proof.
  intros Hd Hs. unfold upload. cbv zeta.
  now rewrite zip_allure_results_missing.
Qed.

(** A call with a [Path] config that is not a regular file ends in the
    config error, with no call of [session.post]. *)
Lemma upload_missing_config_file (p : path) (a : archive) :
  zip_allure_results fs rd = inr a ->
  dumps_refusal (PDict (meta_or_empty meta)) = None ->
  is_file fs p = false -> (forall e, stat fs p <> Failed e) ->
  upload self fs net project rd meta (Some (ConfigPath p))
  = ([], inl (FileNotFoundError (cps "config file not found: " ++ as_posix p))).
Proof.
  intros Hz Hm Hf Hs. unfold upload. cbv zeta.
  now rewrite Hz, Hm, add_config_missing.
Qed.

(** C7: when [upload] ends in [FileNotFoundError], no request was sent;
    and the error has one of two causes: the results path is not an
    existing directory, or the config is a [Path] that is not an existing
    regular file. *)
Theorem upload_not_found_before_network (config : option config_arg) (msg : str) :
  snd (upload self fs net project rd meta config) = inl (FileNotFoundError msg) ->
  fst (upload self fs net project rd meta config) = [] /\
  (is_dir fs rd = false \/
   exists p, config = Some (ConfigPath p) /\ is_file fs p = false).
Proof.
  unfold upload. cbv zeta.
  destruct (zip_allure_results fs rd) as [e | a] eqn:Hz.
  - cbn [snd fst]. intros [= ->]. split; [reflexivity|]. left.
    now apply zip_allure_results_error in Hz.
  - destruct (dumps_refusal _) as [r|].
    + cbn [snd]. intros [= H]. now apply dumps_exn_not_found in H.
    + destruct (add_config fs config _) as [e | fl] eqn:Hc.
      * cbn [snd fst]. intros [= ->]. split; [reflexivity|]. right.
        apply add_config_error in Hc as (p & -> & Hf & _). eauto.
      * destruct (net _) as [f | resp]; cbn [snd]; intros H.
        -- injection H as H. now apply post_exn_not_found in H.
        -- now apply read_response_not_found in H.
Qed.

(** The two parts every request has. *)
Lemma add_config_shape (config : option config_arg) (r m : part)
    (fl : list (str * part)) :
  add_config fs config [(cps "results", r); (cps "meta", m)] = inr fl ->
  fl = [(cps "results", r); (cps "meta", m)] \/
  exists pt, fl = [(cps "results", r); (cps "meta", m); (cps "config", pt)].
Proof.
  destruct config as [[s | p]|].
  - rewrite add_config_str. intros [= <-].
    destruct (strip s); [now left | right; eauto].
  - intros H. apply add_config_file in H as (st & data & _ & ->).
    right. rewrite set_config_part. eauto.
  - intros [= <-]. now left.
Qed.


(** C3 (as the code has it): the serialized metadata travels in the part
    named [meta], which has no file name and content type
    [application/json]; no part is named [results-metadata]. *)
Theorem metadata_part_is_meta (config : option config_arg) (req : request) :
  In req (fst (upload self fs net project rd meta config)) ->
  dict_get (cps "meta") (files req)
  = Some (mkPart None (TextBody (json_dumps (PDict (meta_or_empty meta))))
                 (cps "application/json")) /\
  dict_get (cps "results-metadata") (files req) = None.
Proof.
  intros Hin. apply upload_sent in Hin as (a & fl & _ & Hc & -> & _).
  cbn [files].
  apply add_config_shape in Hc as [-> | (pt & ->)]; split; reflexivity.
Qed.



(** C10 (as the code has it): a [str] config is inline text whatever the
    file system holds: two file systems that give the same archive give
    the same call, and the request carries the stripped text under the
    file name [allure.config.mjs], or no config part when nothing is left
    after stripping.  A [Path] config is a file reference: a request goes
    out only if it names a regular file, whose bytes it then carries. *)
Theorem config_kind_by_type (req : request) :
  (forall (s : str) (fs' : node),
     zip_allure_results fs rd = zip_allure_results fs' rd ->
     upload self fs net project rd meta (Some (ConfigStr s))
     = upload self fs' net project rd meta (Some (ConfigStr s))) /\
  (forall s : str,
     In req (fst (upload self fs net project rd meta (Some (ConfigStr s)))) ->
     dict_get (cps "config") (files req)
     = match strip s with
       | [] => None
       | _ :: _ =>
           Some (mkPart (Some (cps "allure.config.mjs")) (TextBody (strip s))
                        (cps "text/javascript"))
       end) /\
  (forall p : path,
     In req (fst (upload self fs net project rd meta (Some (ConfigPath p)))) ->
     exists st data,
       lookup fs p = Some (File st data) /\
       dict_get (cps "config") (files req)
       = Some (mkPart (Some (name p)) (RawBytes data) (cps "text/javascript"))).
Proof.
  repeat split.
  - intros s fs' Hz. unfold upload. cbv zeta. rewrite Hz.
    destruct (zip_allure_results fs' rd) as [e | a]; [reflexivity|].
    destruct (dumps_refusal _); [reflexivity|].
    now rewrite !add_config_str.
  - intros s Hin. apply upload_sent in Hin as (a & fl & _ & Hc & -> & _).
    cbn [files]. rewrite add_config_str in Hc. injection Hc as <-.
    destruct (strip s); reflexivity.
  - intros p Hin. apply upload_sent in Hin as (a & fl & _ & Hc & -> & _).
    cbn [files]. apply add_config_file in Hc as (st & data & Hl & ->).
    exists st, data. split; [exact Hl | reflexivity].
Qed.

End Request.

(** C7 at [Demo.fs], with a [Path] config that names no file. *)
Lemma upload_not_found_before_network_witness :
  snd (upload Demo.client Demo.fs (Demo.answer 200 Demo.json_type (cps "{}"))
         (cps "p1") Demo.results_dir None (Some (ConfigPath [cps "missing.mjs"])))
  = inl (FileNotFoundError (cps "config file not found: missing.mjs")) /\
  fst (upload Demo.client Demo.fs (Demo.answer 200 Demo.json_type (cps "{}"))
         (cps "p1") Demo.results_dir None (Some (ConfigPath [cps "missing.mjs"])))
  = [] /\
  (is_dir Demo.fs Demo.results_dir = false \/
   exists p, Some (ConfigPath [cps "missing.mjs"]) = Some (ConfigPath p) /\
             is_file Demo.fs p = false).
Proof.
  split; [reflexivity|].
  apply (@upload_not_found_before_network Demo.client Demo.fs
           (Demo.answer 200 Demo.json_type (cps "{}")) (cps "p1")
           Demo.results_dir None (Some (ConfigPath [cps "missing.mjs"]))
           (cps "config file not found: missing.mjs")).
  reflexivity.
Defined.


(** C3 at the request of a plain call. *)
Lemma metadata_part_is_meta_witness :
  In (mkRequest (cps "http://allure.local/api/v1/projects/p1/runs")
        [(cps "results",
          results_part Demo.results_zip);
         (cps "meta", meta_part [])]
        (60 # 1)%Q true)
     (fst (upload Demo.client Demo.fs (Demo.answer 200 Demo.json_type (cps "{}"))
             (cps "p1") Demo.results_dir None None)) /\
  dict_get (cps "meta")
    [(cps "results",
      results_part Demo.results_zip);
     (cps "meta", meta_part [])]
  = Some (mkPart None (TextBody (cps "{}")) (cps "application/json")).
Proof.
  split; [left; reflexivity|].
  apply (metadata_part_is_meta Demo.client Demo.fs
           (Demo.answer 200 Demo.json_type (cps "{}")) (cps "p1")
           Demo.results_dir None None
           (mkRequest (cps "http://allure.local/api/v1/projects/p1/runs")
              [(cps "results",
                results_part Demo.results_zip);
               (cps "meta", meta_part [])]
              (60 # 1)%Q true)).
  left. reflexivity.
Defined.

(** C3, refuted as stated: the request of a plain call has the parts
    [results] and [meta], and none named [results-metadata]. *)
Lemma no_results_metadata_part :
  exists req,
    fst (upload Demo.client Demo.fs (Demo.answer 200 Demo.json_type (cps "{}"))
           (cps "p1") Demo.results_dir (Some Demo.meta) None) = [req] /\
    List.map fst (files req) = [cps "results"; cps "meta"] /\
    dict_get (cps "results-metadata") (files req) = None.
Proof.
  eexists. split; [reflexivity|]. split; reflexivity.
Qed.





(** C10 at a [str] config that, stripped, is the path of an existing
    file: the part carries the text, not the file. *)
Lemma config_kind_by_type_witness :
  In (mkRequest (cps "http://allure.local/api/v1/projects/p1/runs")
        [(cps "results",
          results_part Demo.results_zip);
         (cps "meta", meta_part []);
         (cps "config", inline_config_part (cps "notes.txt"))]
        (60 # 1)%Q true)
     (fst (upload Demo.client Demo.fs (Demo.answer 200 Demo.json_type (cps "{}"))
             (cps "p1") Demo.results_dir None (Some (ConfigStr (cps " notes.txt "))))) /\
  is_file Demo.fs [cps "notes.txt"] = true /\
  dict_get (cps "config")
    [(cps "results",
      results_part Demo.results_zip);
     (cps "meta", meta_part []);
     (cps "config", inline_config_part (cps "notes.txt"))]
  = Some (mkPart (Some (cps "allure.config.mjs")) (TextBody (cps "notes.txt"))
                 (cps "text/javascript")).
Proof.
  split; [left; reflexivity|]. split; [reflexivity|].
  apply (proj1 (proj2 (config_kind_by_type Demo.client Demo.fs
           (Demo.answer 200 Demo.json_type (cps "{}")) (cps "p1")
           Demo.results_dir None
           (mkRequest (cps "http://allure.local/api/v1/projects/p1/runs")
              [(cps "results",
                results_part Demo.results_zip);
               (cps "meta", meta_part []);
               (cps "config", inline_config_part (cps "notes.txt"))]
              (60 # 1)%Q true))) (cps " notes.txt ")).
  left. reflexivity.
Defined.

(** C10, refuted as stated: a [str] config with blanks around it is not
    sent as it is: the part carries the stripped text. *)
Lemma inline_config_is_not_verbatim :
  exists req,
    fst (upload Demo.client Demo.fs (Demo.answer 200 Demo.json_type (cps "{}"))
           (cps "p1") Demo.results_dir None
           (Some (ConfigStr (cps " notes.txt ")))) = [req] /\
    option_map body (dict_get (cps "config") (files req))
    = Some (TextBody (cps "notes.txt")) /\
    cps "notes.txt" <> cps " notes.txt ".
Proof.
  eexists. split; [reflexivity|]. split; [reflexivity | discriminate].
Qed.

(* ================================================================== *)
(** ** The answer [upload] reads *)
(* ================================================================== *)

Section Answer.

Local Open Scope N_scope.

Variable self : AllureUploaderClient.
Variable fs : node.
Variable net : transport.
Variable project : str.
Variable rd : path.
Variable meta : option dict.
Variable config : option config_arg.

(** The request went out and [resp] came back. *)
Variable req : request.
Variable resp : Response.
Hypothesis Hsent : In req (fst (upload self fs net project rd meta config)).
Hypothesis Hresp : net req = inr resp.

Lemma upload_answered :
  snd (upload self fs net project rd meta config) = read_response project resp.
Proof.
  apply upload_sent in Hsent as (a & fl & _ & _ & _ & E).
  rewrite E. cbn [snd]. now rewrite Hresp.
Qed.

(** C1 (as the code has it): when the content type of the response does
    not contain [application/json], a status from 400 to 599 (503, say)
    makes [upload] raise the HTTP-status error; every other status (the
    2xx ones, and also those below 200, from 300 to 399 and from 600) makes
    it raise the error for an unexpected content type, which carries the
    content type.  The status is checked first. *)
Theorem non_json_response :
  contains (cps "application/json")
    (headers_get (cps "content-type") [] (resp_headers resp)) = false ->
  (400 <= resp_status resp < 600 ->
   snd (upload self fs net project rd meta config)
   = inl (HTTPError (resp_status resp))) /\
  (resp_status resp < 400 \/ 600 <= resp_status resp ->
   snd (upload self fs net project rd meta config)
   = inl (RuntimeError
            (cps "Unexpected response content-type: "
             ++ headers_get (cps "content-type") [] (resp_headers resp)))) /\
  (is_2xx (resp_status resp) = true ->
   snd (upload self fs net project rd meta config)
   = inl (RuntimeError
            (cps "Unexpected response content-type: "
             ++ headers_get (cps "content-type") [] (resp_headers resp)))).
Proof.
  intros Hct. rewrite upload_answered. unfold read_response.
  rewrite Hct. cbn [negb]. unfold raise_for_status, is_2xx.
  repeat split.
  - intros [Hlo Hhi].
    destruct (N.ltb_spec (resp_status resp) 500) as [H5 | H5].
    + replace (400 <=? resp_status resp) with true
        by (symmetry; now apply N.leb_le).
      replace (resp_status resp <? 500) with true
        by (symmetry; now apply N.ltb_lt).
      reflexivity.
    + replace (500 <=? resp_status resp) with true
        by (symmetry; now apply N.leb_le).
      replace (resp_status resp <? 600) with true
        by (symmetry; now apply N.ltb_lt).
      cbn [andb]. now rewrite orb_true_r.
  - intros [Hlo | Hhi].
    + replace (400 <=? resp_status resp) with false
        by (symmetry; apply N.leb_gt; lia).
      replace (500 <=? resp_status resp) with false
        by (symmetry; apply N.leb_gt; lia).
      reflexivity.
    + replace (resp_status resp <? 500) with false
        by (symmetry; apply N.ltb_ge; lia).
      replace (resp_status resp <? 600) with false
        by (symmetry; apply N.ltb_ge; lia).
      now rewrite !andb_false_r.
  - intros H2. apply andb_true_iff in H2 as [_ H2]. apply N.ltb_lt in H2.
    replace (400 <=? resp_status resp) with false
      by (symmetry; apply N.leb_gt; lia).
    replace (500 <=? resp_status resp) with false
      by (symmetry; apply N.leb_gt; lia).
    reflexivity.
Qed.

(** C4: when the content type contains [application/json] and the body
    is a JSON object, [upload] returns an [UploadResult] whose fields are
    those of the object, each missing one replaced by its default: the
    submitted project, 0, the empty string twice, ["unknown"] and [None].
    For the body [{}] all six are the defaults.  The [error] field is
    copied as it is and raises nothing, whatever it holds. *)
Theorem json_response_defaults (d : dict) (rid : Z) :
  contains (cps "application/json")
    (headers_get (cps "content-type") [] (resp_headers resp)) = true ->
  json_loads (resp_text resp) = Scanned (PDict d) ->
  py_int (get_default (cps "run_id") (PInt 0) d) = inr rid ->
  snd (upload self fs net project rd meta config)
  = inr {| Client.project := get_default (cps "project") (PStr project) d;
           run_id := rid;
           ui_url := get_default (cps "ui_url") (PStr []) d;
           latest_url := get_default (cps "latest_url") (PStr []) d;
           status := get_default (cps "status") (PStr (cps "unknown")) d;
           error := get_default (cps "error") PNone d |} /\
  (d = [] ->
   snd (upload self fs net project rd meta config)
   = inr {| Client.project := PStr project; run_id := 0;
            ui_url := PStr []; latest_url := PStr [];
            status := PStr (cps "unknown"); error := PNone |}) /\
  (forall e, dict_get (cps "error") d = Some e ->
   exists r, snd (upload self fs net project rd meta config) = inr r /\ error r = e).
Proof.
  intros Hct Hjson Hrid.
  assert (E : snd (upload self fs net project rd meta config)
              = inr {| Client.project := get_default (cps "project") (PStr project) d;
                       run_id := rid;
                       ui_url := get_default (cps "ui_url") (PStr []) d;
                       latest_url := get_default (cps "latest_url") (PStr []) d;
                       status := get_default (cps "status") (PStr (cps "unknown")) d;
                       error := get_default (cps "error") PNone d |}).
  { rewrite upload_answered. unfold read_response, json, bind.
    rewrite Hct, Hjson. cbn [negb as_dict]. now rewrite Hrid. }
  split; [exact E|]. split.
  - intros ->. rewrite E. cbn in Hrid. injection Hrid as <-. reflexivity.
  - intros e He. eexists. split; [exact E|]. cbn [error].
    unfold get_default. now rewrite He.
Qed.

(** C5 (as the code has it): the run identifier of a returned
    [UploadResult] is what [int] makes of the [run_id] field of the
    answer, 0 when the field is missing; its sign is the server's. *)
Theorem run_id_is_the_servers (r : UploadResult) :
  snd (upload self fs net project rd meta config) = inr r ->
  exists d : dict,
    json_loads (resp_text resp) = Scanned (PDict d) /\
    py_int (get_default (cps "run_id") (PInt 0) d) = inr (run_id r) /\
    (dict_get (cps "run_id") d = None -> run_id r = 0%Z) /\
    (forall n : Z, dict_get (cps "run_id") d = Some (PInt n) -> run_id r = n).
Proof.
  rewrite upload_answered. unfold read_response.
  destruct (negb _).
  - destruct (raise_for_status resp); discriminate.
  - unfold json, bind.
    destruct (json_loads _) as [data | | [ | | ]]; try discriminate.
    destruct data as [ | b | z | s | l | d | t]; try discriminate.
    cbn [as_dict].
    destruct (py_int (get_default (cps "run_id") (PInt 0) d)) as [e | rid] eqn:Hrid;
      [discriminate|].
    intros [= <-]. exists d. cbn [run_id].
    split; [reflexivity|]. split; [exact Hrid|]. split.
    + intros Hn. unfold get_default in Hrid. rewrite Hn in Hrid.
      now injection Hrid as <-.
    + intros n Hn. unfold get_default in Hrid. rewrite Hn in Hrid.
      now injection Hrid as <-.
Qed.

End Answer.

(** C1 at a 503 answer with an HTML body. *)
Lemma non_json_response_witness :
  In Demo.plain_request
     (fst (upload Demo.client Demo.fs
             (Demo.answer 503 Demo.html_type (cps "<html>Service Unavailable</html>"))
             (cps "p1") Demo.results_dir None None)) /\
  contains (cps "application/json") Demo.html_type = false /\
  snd (upload Demo.client Demo.fs
         (Demo.answer 503 Demo.html_type (cps "<html>Service Unavailable</html>"))
         (cps "p1") Demo.results_dir None None)
  = inl (HTTPError 503).
Proof.
  split; [left; reflexivity|]. split; [reflexivity|].
  apply (proj1 (@non_json_response Demo.client Demo.fs
                  (Demo.answer 503 Demo.html_type (cps "<html>Service Unavailable</html>"))
                  (cps "p1") Demo.results_dir None None Demo.plain_request
                  (mkResponse 503 [(cps "Content-Type", Demo.html_type)]
                     (cps "<html>Service Unavailable</html>"))
                  (or_introl eq_refl) eq_refl eq_refl)).
  split; [discriminate | reflexivity].
Defined.

(** C1, refuted as stated: a 304 answer with an HTML body is not 2xx, yet
    [upload] raises the content-type error, not the status error. *)
Lemma not_modified_html_is_content_type_error :
  is_2xx 304 = false /\
  contains (cps "application/json") Demo.html_type = false /\
  snd (upload Demo.client Demo.fs (Demo.answer 304 Demo.html_type (cps "<html></html>"))
         (cps "p1") Demo.results_dir None None)
  = inl (RuntimeError (cps "Unexpected response content-type: text/html")).
Proof.
  split; [reflexivity|]. split; reflexivity.
Qed.

(** C4 at the answer [{}] with status 200. *)
Lemma json_response_defaults_witness :
  In Demo.plain_request
     (fst (upload Demo.client Demo.fs (Demo.answer 200 Demo.json_type (cps "{}"))
             (cps "p1") Demo.results_dir None None)) /\
  json_loads (cps "{}") = Scanned (PDict []) /\
  snd (upload Demo.client Demo.fs (Demo.answer 200 Demo.json_type (cps "{}"))
         (cps "p1") Demo.results_dir None None)
  = inr {| Client.project := PStr (cps "p1"); run_id := 0;
           ui_url := PStr []; latest_url := PStr [];
           status := PStr (cps "unknown"); error := PNone |}.
Proof.
  split; [left; reflexivity|]. split; [reflexivity|].
  apply (proj1 (proj2 (@json_response_defaults Demo.client Demo.fs
                         (Demo.answer 200 Demo.json_type (cps "{}"))
                         (cps "p1") Demo.results_dir None None Demo.plain_request
                         (mkResponse 200 [(cps "Content-Type", Demo.json_type)] (cps "{}"))
                         (or_introl eq_refl) eq_refl [] 0%Z eq_refl eq_refl eq_refl))).
  reflexivity.
Defined.

(** C5 at an answer that gives every field. *)
Lemma run_id_is_the_servers_witness :
  In Demo.plain_request
     (fst (upload Demo.client Demo.fs (Demo.answer 200 Demo.json_type Demo.accepted_body)
             (cps "p1") Demo.results_dir None None)) /\
  snd (upload Demo.client Demo.fs (Demo.answer 200 Demo.json_type Demo.accepted_body)
         (cps "p1") Demo.results_dir None None)
  = inr {| Client.project := PStr (cps "p1"); run_id := 42;
           ui_url := PStr (cps "/x"); latest_url := PStr (cps "/y");
           status := PStr (cps "ok"); error := PNone |} /\
  exists d : dict,
    json_loads Demo.accepted_body = Scanned (PDict d) /\
    py_int (get_default (cps "run_id") (PInt 0) d) = inr 42%Z /\
    (dict_get (cps "run_id") d = None -> 42%Z = 0%Z) /\
    (forall n : Z, dict_get (cps "run_id") d = Some (PInt n) -> 42%Z = n).
Proof.
  split; [left; reflexivity|]. split; [reflexivity|].
  apply (@run_id_is_the_servers Demo.client Demo.fs
           (Demo.answer 200 Demo.json_type Demo.accepted_body)
           (cps "p1") Demo.results_dir None None Demo.plain_request
           (mkResponse 200 [(cps "Content-Type", Demo.json_type)] Demo.accepted_body)
           (or_introl eq_refl) eq_refl
           {| Client.project := PStr (cps "p1"); run_id := 42;
              ui_url := PStr (cps "/x"); latest_url := PStr (cps "/y");
              status := PStr (cps "ok"); error := PNone |}).
  reflexivity.
Defined.

(** C5, refuted as stated: the service answers [run_id: -7] and [upload]
    returns a result whose run identifier is negative. *)
Lemma negative_run_id_is_returned :
  exists r : UploadResult,
    snd (upload Demo.client Demo.fs (Demo.answer 200 Demo.json_type Demo.negative_body)
           (cps "p1") Demo.results_dir None None) = inr r /\
    run_id r = (-7)%Z /\ (run_id r < 0)%Z.
Proof.
  eexists. split; [reflexivity|]. split; reflexivity.
Qed.


(* ================================================================== *)
(** ** More about the client *)
(* ================================================================== *)

Section ClientMore.

Local Open Scope N_scope.

(** X1: the base URL a client keeps is the one it was given without its
    trailing slashes: only slashes at the end are removed, and what is
    kept does not end in a slash. *)
Theorem init_base_url (base : str) (t : Q) (v : bool)
    (h : option (list (str * str))) :
  (exists k : nat, base = base_url (init base t v h) ++ repeat 47 k) /\
  (forall r : str, base_url (init base t v h) <> r ++ [47]).
Proof.
  cbn [init base_url]. unfold rstrip_slash. split.
  - destruct (rstrip_by_split (N.eqb 47) base) as (suf & E & Hs).
    exists (length suf).
    rewrite <- (@forallb_repeat (N.eqb 47) 47 suf); [exact E | | exact Hs].
    intros x Hx. symmetry. now apply N.eqb_eq.
  - intros r E. apply rstrip_by_last in E. discriminate.
Qed.

(** X2: [zip_allure_results] looks at the path before anything else.
    When the system refuses the look ([exists] raises: a name too long,
    a directory on the way that may not be searched) the call ends in
    that error; when the look succeeds and the path is no directory, in
    the not-found error that names the path.  That error is raised for
    no other reason, and an archive is returned for a directory only. *)
Theorem zip_allure_results_outcome (fs : node) (p : path) :
  (forall e, path_exists fs p = inl e -> zip_allure_results fs p = inl e) /\
  (forall b, path_exists fs p = inr b -> is_dir fs p = false ->
     zip_allure_results fs p
     = inl (FileNotFoundError (cps "allure results dir not found: " ++ as_posix p))) /\
  (forall msg, zip_allure_results fs p = inl (FileNotFoundError msg) ->
     is_dir fs p = false /\
     msg = cps "allure results dir not found: " ++ as_posix p) /\
  (forall a, zip_allure_results fs p = inr a -> is_dir fs p = true).
Proof.
  repeat split.
  - intros e. unfold zip_allure_results, not_a_dir, bind. now intros ->.
  - intros b Hb Hd. apply zip_allure_results_missing; [exact Hd|].
    intros e He. unfold path_exists in Hb. now rewrite He in Hb.
  - now apply zip_allure_results_error in H.
  - now apply zip_allure_results_error in H.
  - intros a. unfold zip_allure_results, bind. rewrite not_a_dir_spec.
    destruct (stat fs p) as [n | | e]; try discriminate;
      (destruct (is_dir fs p); [reflexivity | discriminate]).
Qed.

(** X3: the archive depends on what the directory holds only, its links
    with what they resolve to, not on where the directory is: a
    directory with the same entries at another place, in another file
    tree, gives the same archive, member for member.  This for a tree
    that lists each name once per directory and holds nothing the
    archiver stops at, with every path of the walk within the length the
    system takes at either place. *)
Theorem zip_allure_results_relocated (fs fs' : node) (p p' : path)
    (es : list (str * node)) :
  lookup fs p = Some (Dir es) ->
  lookup fs' p' = Some (Dir es) ->
  wf_node (Dir es) = true ->
  zippable (Dir es) = true ->
  forallb accepted (rglob fs p) = true ->
  forallb accepted (rglob fs' p') = true ->
  zip_allure_results fs p = zip_allure_results fs' p'.
Proof.
  intros H H' Hwf Hz Ha Ha'.
  now rewrite (zip_allure_results_files _ _ H Hwf Hz Ha),
              (zip_allure_results_files _ _ H' Hwf Hz Ha').
Qed.

(** X4: the archive of a directory is empty exactly when below the
    directory lies no regular file and no link that resolves to one; an
    empty directory is archived, not refused.  This for a tree that lists
    each name once per directory and holds nothing the archiver stops
    at, with every path of the walk within the length the system
    takes. *)
Theorem zip_allure_results_empty (fs : node) (p : path)
    (es : list (str * node)) :
  lookup fs p = Some (Dir es) ->
  wf_node (Dir es) = true ->
  zippable (Dir es) = true ->
  forallb accepted (rglob fs p) = true ->
  (zip_allure_results fs p = inr [] <->
   (count_files (Dir es) + count_file_links (Dir es) = 0)%nat).
Proof.
  intros H Hwf Hz Ha. rewrite (zip_allure_results_files _ _ H Hwf Hz Ha).
  rewrite <- (files_below_length (Dir es) []). split.
  - intros [= E]. apply (f_equal (@length member)) in E.
    now rewrite length_map in E.
  - intros E. apply length_zero_iff_nil in E. now rewrite E.
Qed.

(** X5: [upload] calls [session.post] at most once; a call that returns
    a result has called it, once; a call that has not called it ended
    in an exception. *)
Theorem upload_posts_once (self : AllureUploaderClient) (fs : node)
    (net : transport) (project : str) (rd : path) (meta : option dict)
    (config : option config_arg) :
  (length (fst (upload self fs net project rd meta config)) <= 1)%nat /\
  (forall r, snd (upload self fs net project rd meta config) = inr r ->
     exists req, fst (upload self fs net project rd meta config) = [req]) /\
  (fst (upload self fs net project rd meta config) = [] ->
   exists e, snd (upload self fs net project rd meta config) = inl e).
Proof.
  destruct (upload_log self fs net project rd meta config)
    as [(e & ->) | (req & E)]; cbn [fst snd length].
  - split; [lia|]. split; [discriminate | eauto].
  - rewrite E. cbn [length]. split; [lia|]. split; [eauto | discriminate].
Qed.

End ClientMore.

(** X2 at a path that is a regular file. *)
Lemma zip_allure_results_outcome_witness :
  path_exists Demo.fs [cps "notes.txt"] = inr true /\
  is_dir Demo.fs [cps "notes.txt"] = false /\
  zip_allure_results Demo.fs [cps "notes.txt"]
  = inl (FileNotFoundError (cps "allure results dir not found: notes.txt")).
Proof.
  split; [reflexivity|]. split; [reflexivity|].
  apply (proj1 (proj2 (zip_allure_results_outcome Demo.fs [cps "notes.txt"])) true);
    reflexivity.
Defined.

(** X3 at [linked/], moved two levels down in another tree. *)
Lemma zip_allure_results_relocated_witness :
  zip_allure_results Demo.fs [cps "linked"]
  = zip_allure_results
      (Dir [(cps "ci", Dir [(cps "out", Dir Demo.linked_entries)])])
      [cps "ci"; cps "out"].
Proof.
  apply (@zip_allure_results_relocated _ _ _ _ Demo.linked_entries); reflexivity.
Defined.

(** X4 at a directory that holds a broken link and a link to a
    directory, and at one that holds a link to a regular file. *)
Lemma zip_allure_results_empty_witness :
  (zip_allure_results
     (Dir [(cps "r", Dir [(cps "gone", Link Missing);
                          (cps "dir", Link (Found (Dir [(cps "in.txt",
                                                         File Demo.plain [x49])])))])])
     [cps "r"] = inr []) /\
  (count_files (Dir Demo.linked_entries)
   + count_file_links (Dir Demo.linked_entries))%nat = 3%nat.
Proof.
  split; [|reflexivity].
  apply (@zip_allure_results_empty
           (Dir [(cps "r", Dir [(cps "gone", Link Missing);
                                (cps "dir", Link (Found (Dir [(cps "in.txt",
                                                               File Demo.plain [x49])])))])])
           [cps "r"]
           [(cps "gone", Link Missing);
            (cps "dir", Link (Found (Dir [(cps "in.txt", File Demo.plain [x49])])))]);
    reflexivity.
Defined.

(** X5 at a plain call. *)
Lemma upload_posts_once_witness :
  exists req,
    fst (upload Demo.client Demo.fs (Demo.answer 200 Demo.json_type (cps "{}"))
           (cps "p1") Demo.results_dir None None) = [req].
Proof.
  apply (proj1 (proj2 (upload_posts_once Demo.client Demo.fs
                         (Demo.answer 200 Demo.json_type (cps "{}"))
                         (cps "p1") Demo.results_dir None None))
           {| Client.project := PStr (cps "p1"); run_id := 0;
              ui_url := PStr []; latest_url := PStr [];
              status := PStr (cps "unknown"); error := PNone |}).
  reflexivity.
Defined.

(* ================================================================== *)
(** ** More about the answer *)
(* ================================================================== *)

Section NumberText.

Local Open Scope N_scope.

Lemma int_digits_acc (u : Decimal.uint) (a : positive) :
  int_digits (Zpos a) true (chars_of_uint u) = Some (Zpos (Pos.of_uint_acc u a)).
Proof.
  revert a. induction u as [|u IH|u IH|u IH|u IH|u IH|u IH|u IH|u IH|u IH|u IH];
    intros a; cbn [chars_of_uint]; [reflexivity|..];
    cbn [int_digits is_digit N.leb N.compare Pos.compare Pos.compare_cont andb];
    cbn [Pos.of_uint_acc];
    match goal with
    | |- int_digits ?x true _ = Some (Zpos (Pos.of_uint_acc _ ?y)) =>
        replace x with (Zpos y) by lia
    end; apply IH.
Qed.

Lemma int_digits_to_uint (p : positive) (b : bool) :
  int_digits 0 b (chars_of_uint (Pos.to_uint p)) = Some (Zpos p).
Proof.
  pose proof (DecimalPos.Unsigned.of_to p) as Hof.
  pose proof (to_uint_leading p) as Hl.
  destruct (Pos.to_uint p) as [|u|u|u|u|u|u|u|u|u|u]; try contradiction;
    cbn [Pos.of_uint] in Hof; injection Hof as <-;
    cbn [chars_of_uint int_digits is_digit N.leb N.compare Pos.compare
         Pos.compare_cont andb];
    match goal with
    | |- int_digits ?x true _ = Some (Zpos (Pos.of_uint_acc _ ?y)) =>
        change x with (Zpos y)
    end; apply int_digits_acc.
Qed.

Lemma chars_of_uint_digits (u : Decimal.uint) :
  Forall (fun c => 48 <= c <= 57) (chars_of_uint u).
Proof.
  induction u; cbn [chars_of_uint]; constructor; try assumption; lia.
Qed.

Lemma int_repr_chars (z : Z) : Forall (fun c => 45 <= c <= 57) (int_repr z).
Proof.
  assert (H : forall u, Forall (fun c => 45 <= c <= 57) (chars_of_uint u)).
  { intros u. eapply Forall_impl; [|apply chars_of_uint_digits].
    cbn beta. intros c Hc. lia. }
  destruct z as [|p|p]; unfold int_repr.
  - constructor; [lia | constructor].
  - apply H.
  - constructor; [lia | apply H].
Qed.

Lemma minus_to_nine (c : N) :
  45 <= c <= 57 -> isspace c = false /\ (c <? 128) = true /\ c_isspace c = false.
Proof.
  intros H.
  assert (E : c = 45 \/ c = 46 \/ c = 47 \/ c = 48 \/ c = 49 \/ c = 50 \/ c = 51 \/
              c = 52 \/ c = 53 \/ c = 54 \/ c = 55 \/ c = 56 \/ c = 57) by lia.
  repeat (destruct E as [-> | E]; [repeat split; reflexivity|]).
  subst c. repeat split; reflexivity.
Qed.

Lemma filter_all (A : Type) (f : A -> bool) (l : list A) :
  Forall (fun x => f x = true) l -> filter f l = l.
Proof.
  induction 1 as [|x l Hx _ IH]; [reflexivity|].
  cbn [filter]. now rewrite Hx, IH.
Qed.

Lemma filter_digits_uint (u : Decimal.uint) :
  filter is_digit (chars_of_uint u) = chars_of_uint u.
Proof.
  apply filter_all. eapply Forall_impl; [|apply chars_of_uint_digits].
  cbn beta. intros c Hc. now apply is_digit_range.
Qed.

(** The digits [int] counts in what [repr] wrote. *)
Lemma int_repr_digits (z : Z) :
  length (filter is_digit (int_repr z)) = digits z.
Proof.
  destruct z as [|p|p]; unfold int_repr, digits.
  - reflexivity.
  - now rewrite filter_digits_uint.
  - cbn [filter is_digit N.leb N.compare Pos.compare Pos.compare_cont andb].
    now rewrite filter_digits_uint.
Qed.

(** [int] reads back what [repr] wrote, up to the number of digits it
    takes. *)
Lemma py_int_int_repr (z : Z) :
  (digits z <= max_str_digits)%nat -> py_int (PStr (int_repr z)) = inr z.
Proof.
  intros Hlen.
  pose proof (int_repr_chars z) as Hc. rewrite Forall_forall in Hc.
  unfold py_int.
  replace (is_ascii (int_repr z)) with true.
  2:{ symmetry. apply forallb_forall. intros c Hin.
      now apply minus_to_nine, Hc. }
  unfold int_of_str. cbv zeta.
  rewrite (@lstrip_by_fixed c_isspace (int_repr z)).
  2:{ intros c r E. apply minus_to_nine, Hc. rewrite E. now left. }
  rewrite (@rstrip_by_fixed c_isspace (int_repr z)).
  2:{ intros r c E. apply minus_to_nine, Hc. rewrite E.
      apply in_or_app. right. now left. }
  rewrite int_repr_digits.
  replace (max_str_digits <? digits z)%nat with false
    by (symmetry; apply Nat.ltb_ge; exact Hlen).
  destruct z as [|p|p].
  - reflexivity.
  - unfold int_repr. change (N.to_uint (N.pos p)) with (Pos.to_uint p).
    pose proof (int_digits_to_uint p false) as Hd.
    destruct (chars_of_uint_leading _ (to_uint_leading p))
      as (c & u' & E & _ & Hdig & _).
    rewrite E in *. apply is_digit_range in Hdig.
    replace (c =? 45) with false by (symmetry; apply N.eqb_neq; lia).
    replace (c =? 43) with false by (symmetry; apply N.eqb_neq; lia).
    now rewrite Hd.
  - unfold int_repr. change (N.to_uint (N.pos p)) with (Pos.to_uint p).
    cbn [N.eqb Pos.eqb]. now rewrite int_digits_to_uint.
Qed.

Lemma hex_digit_printable (d : N) : d < 16 -> 32 <= hex_digit d <= 126.
Proof. unfold hex_digit. intros H. destruct (N.ltb_spec d 10); lia. Qed.

Lemma u_escape_printable (n : N) : Forall (fun c => 32 <= c <= 126) (u_escape n).
Proof.
  unfold u_escape, hex4.
  repeat constructor; try lia;
    apply hex_digit_printable; apply N.mod_lt; discriminate.
Qed.

Lemma escape_char_printable (c : N) :
  Forall (fun x => 32 <= x <= 126) (escape_char c).
Proof.
  unfold escape_char.
  repeat match goal with
         | |- context [if ?b =? ?k then _ else _] =>
             destruct (b =? k); [repeat constructor; lia|]
         end.
  destruct (_ && _) eqn:E.
  - apply andb_true_iff in E as [H1 H2]. apply N.leb_le in H1, H2.
    repeat constructor; lia.
  - destruct (c <? 65536); [apply u_escape_printable|].
    cbv zeta. apply Forall_app. split; apply u_escape_printable.
Qed.

Lemma encode_basestring_ascii_printable (s : str) :
  Forall (fun x => 32 <= x <= 126) (encode_basestring_ascii s).
Proof.
  unfold encode_basestring_ascii. constructor; [lia|].
  apply Forall_app. split; [|repeat constructor; lia].
  induction s as [|c s IH]; cbn [escape_chars]; [constructor|].
  apply Forall_app. split; [apply escape_char_printable | exact IH].
Qed.

Lemma join_printable (sep : str) (parts : list str) :
  Forall (fun x => 32 <= x <= 126) sep ->
  Forall (Forall (fun x => 32 <= x <= 126)) parts ->
  Forall (fun x => 32 <= x <= 126) (join sep parts).
Proof.
  intros Hsep. induction 1 as [|p ps Hp Hps IH]; [constructor|].
  destruct ps as [|q ps]; [exact Hp|].
  change (join sep (p :: q :: ps)) with (p ++ sep ++ join sep (q :: ps)).
  rewrite !Forall_app. auto.
Qed.

(** What [json.dumps] writes is printable ASCII. *)
Lemma encode_printable (v : pyval) : Forall (fun x => 32 <= x <= 126) (encode v).
Proof.
  induction v as [ | b | z | s | l IH | d IH | t] using pyval_ind;
    [ | | | | | | constructor].
  - apply Forall_forall. intros x Hx. vm_compute in Hx.
    repeat (destruct Hx as [<- | Hx]; [lia|]). contradiction.
  - apply Forall_forall. intros x Hx.
    destruct b; vm_compute in Hx;
      repeat (destruct Hx as [<- | Hx]; [lia|]); contradiction.
  - cbn [encode]. eapply Forall_impl; [|apply int_repr_chars].
    cbn beta. intros c Hc. lia.
  - apply encode_basestring_ascii_printable.
  - cbn [encode]. constructor; [lia|]. apply Forall_app.
    split; [|repeat constructor; lia].
    apply join_printable; [repeat constructor; lia|].
    induction IH; cbn [List.map]; constructor; assumption.
  - cbn [encode]. constructor; [lia|]. apply Forall_app.
    split; [|repeat constructor; lia].
    apply join_printable; [repeat constructor; lia|].
    induction IH as [|[k x] d Hx Hd IHd]; cbn [List.map]; constructor;
      [|assumption].
    rewrite !Forall_app. split; [apply encode_basestring_ascii_printable|].
    split; [repeat constructor; lia | exact Hx].
Qed.

End NumberText.

Section AnswerMore.

Local Open Scope N_scope.

Variable self : AllureUploaderClient.
Variable fs : node.
Variable net : transport.
Variable project : str.
Variable rd : path.
Variable meta : option dict.
Variable config : option config_arg.

(** The request went out and [resp] came back, announced as JSON. *)
Variable req : request.
Variable resp : Response.
Hypothesis Hsent : In req (fst (upload self fs net project rd meta config)).
Hypothesis Hresp : net req = inr resp.
Hypothesis Hct :
  contains (cps "application/json")
    (headers_get (cps "content-type") [] (resp_headers resp)) = true.

Lemma upload_json_answer :
  snd (upload self fs net project rd meta config)
  = try data := json resp in
    try d := as_dict data in
    try rid := py_int (get_default (cps "run_id") (PInt 0) d) in
    inr {| Client.project := get_default (cps "project") (PStr project) d;
           run_id := rid;
           ui_url := get_default (cps "ui_url") (PStr []) d;
           latest_url := get_default (cps "latest_url") (PStr []) d;
           status := get_default (cps "status") (PStr (cps "unknown")) d;
           error := get_default (cps "error") PNone d |}.
Proof.
  rewrite (upload_answered _ _ _ _ _ _ _ _ Hsent Hresp).
  unfold read_response. now rewrite Hct.
Qed.

(** X6: when the answer is announced as JSON its status is not looked
    at: the same headers and the same body under any other status end
    the call in the same way, and the call does not end in the error for
    an HTTP status. *)
Theorem json_answer_status_blind (net' : transport) (sc : N) :
  net' req = inr {| resp_status := sc; resp_headers := resp_headers resp;
                    resp_text := resp_text resp |} ->
  upload self fs net' project rd meta config
  = upload self fs net project rd meta config /\
  forall k, snd (upload self fs net project rd meta config) <> inl (HTTPError k).
Proof.
  intros Hnet'. split.
  - pose proof Hsent as Hin.
    apply upload_sent in Hin as (a & fl & Hz & Hc & Hreq & E).
    pose proof (upload_sent_meta _ _ _ _ _ _ _ _ Hsent) as Hm.
    rewrite E, Hresp. unfold upload. cbv zeta. rewrite Hz, Hm, Hc, <- Hreq, Hnet'.
    f_equal. unfold read_response, json. cbn [resp_headers resp_text].
    now rewrite Hct.
  - intros k. rewrite upload_json_answer. unfold json, bind.
    destruct (json_loads (resp_text resp)) as [data | | [ | | ]]; try discriminate.
    destruct data as [ | b | z | s | l | d | t]; try discriminate.
    cbn [as_dict]. unfold py_int.
    destruct (get_default _ _ d) as [ | b | z | s | l | d' | t]; try discriminate.
    destruct (is_ascii s); [|discriminate].
    destruct (int_of_str s); discriminate.
Qed.

(** X7: an answer announced as JSON whose body reads as a JSON document
    other than an object (an array, a text, a number, [true], [false] or
    [null]) makes [upload] raise [AttributeError], whatever the status. *)
Theorem json_answer_not_an_object (v : pyval) :
  json_loads (resp_text resp) = Scanned v ->
  (forall d, v <> PDict d) ->
  snd (upload self fs net project rd meta config) = inl AttributeError.
Proof.
  intros Hbody Hv. rewrite upload_json_answer. unfold json, bind.
  rewrite Hbody.
  destruct v as [ | b | z | s | l | d | t]; try reflexivity.
  - now destruct (Hv d).
  - now apply json_loads_native in Hbody.
Qed.

(** X8: a [run_id] that the service sends as the decimal text of an
    integer of no more than 4300 digits is returned as that integer. *)
Theorem run_id_decimal_text (d : dict) (z : Z) :
  json_loads (resp_text resp) = Scanned (PDict d) ->
  dict_get (cps "run_id") d = Some (PStr (int_repr z)) ->
  (digits z <= max_str_digits)%nat ->
  exists r, snd (upload self fs net project rd meta config) = inr r /\
            run_id r = z.
Proof.
  intros Hjson Hrid Hlen. rewrite upload_json_answer. unfold json, bind.
  rewrite Hjson. cbn [as_dict]. unfold get_default at 1. rewrite Hrid.
  rewrite (py_int_int_repr _ Hlen). eexists. split; reflexivity.
Qed.

End AnswerMore.

(** X9: the metadata document of a request is printable ASCII, whatever
    the metadata holds. *)
Theorem metadata_document_is_ascii (self : AllureUploaderClient) (fs : node)
    (net : transport) (project : str) (rd : path) (meta : option dict)
    (config : option config_arg) (req : request) :
  In req (fst (upload self fs net project rd meta config)) ->
  exists doc : str,
    option_map body (dict_get (cps "meta") (files req)) = Some (TextBody doc) /\
    Forall (fun c => (32 <= c <= 126)%N) doc.
Proof.
  intros Hin. apply upload_sent in Hin as (a & fl & _ & Hc & -> & _).
  cbn [files]. exists (json_dumps (PDict (meta_or_empty meta))). split.
  - apply add_config_shape in Hc as [-> | (pt & ->)]; reflexivity.
  - apply encode_printable.
Qed.

(** X6 at an answer that is no JSON, once under 500 and once under
    200. *)
Lemma json_answer_status_blind_witness :
  snd (upload Demo.client Demo.fs (Demo.answer 500 Demo.json_type (cps "oops"))
         (cps "p1") Demo.results_dir None None) = inl JSONDecodeError /\
  upload Demo.client Demo.fs (Demo.answer 200 Demo.json_type (cps "oops"))
    (cps "p1") Demo.results_dir None None
  = upload Demo.client Demo.fs (Demo.answer 500 Demo.json_type (cps "oops"))
      (cps "p1") Demo.results_dir None None.
Proof.
  split; [reflexivity|].
  apply (@json_answer_status_blind Demo.client Demo.fs
           (Demo.answer 500 Demo.json_type (cps "oops"))
           (cps "p1") Demo.results_dir None None Demo.plain_request
           (mkResponse 500 [(cps "Content-Type", Demo.json_type)] (cps "oops"))
           (or_introl eq_refl) eq_refl eq_refl
           (Demo.answer 200 Demo.json_type (cps "oops")) 200 eq_refl).
Defined.

(** X7 at a body that is an array, with blanks and a line end around
    it. *)
Lemma json_answer_not_an_object_witness :
  json_loads (cps " [1,2]" ++ [10%N]) = Scanned (PList [PInt 1; PInt 2]) /\
  snd (upload Demo.client Demo.fs
         (Demo.answer 200 (cps "application/json; charset=utf-8")
            (cps " [1,2]" ++ [10%N]))
         (cps "p1") Demo.results_dir None None) = inl AttributeError.
Proof.
  split; [reflexivity|].
  apply (@json_answer_not_an_object Demo.client Demo.fs
           (Demo.answer 200 (cps "application/json; charset=utf-8")
              (cps " [1,2]" ++ [10%N]))
           (cps "p1") Demo.results_dir None None Demo.plain_request
           (mkResponse 200
              [(cps "Content-Type", cps "application/json; charset=utf-8")]
              (cps " [1,2]" ++ [10%N]))
           (or_introl eq_refl) eq_refl eq_refl
           (PList [PInt 1; PInt 2]) eq_refl).
  discriminate.
Defined.

(** X8 at the text [-305]. *)
Lemma run_id_decimal_text_witness :
  json_loads (json_dumps (PDict [(cps "run_id", PStr (int_repr (-305)))]))
  = Scanned (PDict [(cps "run_id", PStr (cps "-305"))]) /\
  (digits (-305) <= max_str_digits)%nat /\
  exists r,
    snd (upload Demo.client Demo.fs
           (Demo.answer 201 Demo.json_type
              (json_dumps (PDict [(cps "run_id", PStr (int_repr (-305)))])))
           (cps "p1") Demo.results_dir None None) = inr r /\
    run_id r = (-305)%Z.
Proof.
  split; [reflexivity|].
  assert (Hlen : (digits (-305) <= max_str_digits)%nat)
    by (apply Nat.leb_le; reflexivity).
  split; [exact Hlen|].
  apply (@run_id_decimal_text Demo.client Demo.fs
           (Demo.answer 201 Demo.json_type
              (json_dumps (PDict [(cps "run_id", PStr (int_repr (-305)))])))
           (cps "p1") Demo.results_dir None None Demo.plain_request
           (mkResponse 201 [(cps "Content-Type", Demo.json_type)]
              (json_dumps (PDict [(cps "run_id", PStr (int_repr (-305)))])))
           (or_introl eq_refl) eq_refl eq_refl
           [(cps "run_id", PStr (int_repr (-305)))] (-305)%Z eq_refl eq_refl Hlen).
Defined.

Lemma metadata_document_is_ascii_witness :
  exists doc : str,
    option_map body
      (dict_get (cps "meta")
         (files {| url := cps "http://allure.local/api/v1/projects/p1/runs";
                   files := [(cps "results", results_part Demo.results_zip);
                             (cps "meta",
                              meta_part [(cps "branch", PStr [1092%N; 10%N; 128512%N])])];
                   timeout := (60 # 1)%Q;
                   verify := true |}))
    = Some (TextBody doc) /\
    Forall (fun c => (32 <= c <= 126)%N) doc.
Proof.
  apply (@metadata_document_is_ascii Demo.client Demo.fs
           (Demo.answer 200 Demo.json_type (cps "{}")) (cps "p1") Demo.results_dir
           (Some [(cps "branch", PStr [1092%N; 10%N; 128512%N])]) None).
  left. reflexivity.
Defined.

(* ================================================================== *)
(** ** The metadata of the environment *)
(* ================================================================== *)

Section EnvironFacts.

Local Open Scope N_scope.

(** X10: the [trigger] of the default metadata is never missing and
    never empty: it is [CI_PIPELINE_SOURCE] when that is set and not
    empty, else [GITHUB_EVENT_NAME] when that is set and not empty, else
    ["local"]. *)
Theorem trigger_is_never_empty (env : environ) (now : struct_time) :
  exists s : str,
    dict_get (cps "trigger") (default_meta_from_env env now) = Some (PStr s) /\
    s <> [] /\
    (dict_get (cps "CI_PIPELINE_SOURCE") env = Some s \/
     ((dict_get (cps "CI_PIPELINE_SOURCE") env = None \/
       dict_get (cps "CI_PIPELINE_SOURCE") env = Some []) /\
      (dict_get (cps "GITHUB_EVENT_NAME") env = Some s \/
       ((dict_get (cps "GITHUB_EVENT_NAME") env = None \/
         dict_get (cps "GITHUB_EVENT_NAME") env = Some []) /\
        s = cps "local")))).
Proof.
  unfold default_meta_from_env. cbn [dict_get]. rewrite str_eqb_refl.
  unfold py_or, getenv.
  destruct (dict_get (cps "CI_PIPELINE_SOURCE") env) as [[|c r]|];
    destruct (dict_get (cps "GITHUB_EVENT_NAME") env) as [[|c' r']|];
    cbn [truthy]; eexists; (split; [reflexivity|]); (split; [discriminate|]);
    tauto.
Qed.

Lemma chars_below_128_scalar (s : str) :
  Forall (fun c => c < 128) s -> scalar_str s = true.
Proof.
  intros H. apply forallb_forall. rewrite Forall_forall in H.
  intros c Hc. apply H in Hc. unfold scalar.
  replace (c <? 55296) with true by (symmetry; apply N.ltb_lt; lia).
  reflexivity.
Qed.

Lemma two_digits_ascii (n : N) : n < 100 -> Forall (fun c => c < 128) (two_digits n).
Proof.
  intros H. unfold two_digits.
  assert (n / 10 < 10) by (apply N.Div0.div_lt_upper_bound; lia).
  assert (n mod 10 < 10) by (apply N.mod_lt; discriminate).
  repeat constructor; lia.
Qed.

Lemma strftime_scalar (now : struct_time) :
  gmtime_range now = true -> scalar_str (strftime now) = true.
Proof.
  unfold gmtime_range. rewrite !andb_true_iff, !N.leb_le.
  intros [[[[[[H1 H2] H3] H4] H5] H6] H7].
  apply chars_below_128_scalar. unfold strftime.
  repeat (apply Forall_app; split);
    try (apply two_digits_ascii; lia);
    try (repeat constructor; lia).
  eapply Forall_impl; [|apply chars_of_uint_digits]. cbn beta. intros c Hc. lia.
Qed.

Lemma getenv_wf (env : environ) (k : str) :
  forallb (fun kv => scalar_str (snd kv)) env = true ->
  wf_pyval (getenv env k) = true.
Proof.
  intros H. unfold getenv. destruct (dict_get k env) as [v|] eqn:E; [|reflexivity].
  apply dict_get_Some_In in E.
  rewrite forallb_forall in H. apply (H _ E).
Qed.

Lemma py_or_wf (x y : pyval) :
  wf_pyval x = true -> wf_pyval y = true -> wf_pyval (py_or x y) = true.
Proof. unfold py_or. now destruct (truthy x). Qed.

Lemma default_meta_wf (env : environ) (now : struct_time) :
  forallb (fun kv => scalar_str (snd kv)) env = true ->
  gmtime_range now = true ->
  forallb (fun kv => wf_pyval (snd kv)) (default_meta_from_env env now) = true.
Proof.
  intros He Ht. unfold default_meta_from_env. cbn [forallb snd].
  repeat (apply andb_true_iff; split);
    repeat apply py_or_wf; try (apply getenv_wf; assumption); try reflexivity.
  cbn [wf_pyval]. now apply strftime_scalar.
Qed.

End EnvironFacts.

(* ================================================================== *)
(** ** The options of the plugin *)
(* ================================================================== *)

Section OptionFacts.

Local Open Scope N_scope.

Variable report : Type.
Variable config : Config report.

Lemma alluredir_loop_some (g : str -> result pyval) (keys : list str) (a : str) :
  alluredir_loop g keys = Some a ->
  a <> [] /\ exists key v, In key keys /\ g key = inr (PStr v) /\ a = strip v.
Proof.
  induction keys as [|key keys IH]; [discriminate|].
  cbn [alluredir_loop].
  assert (Hrest : alluredir_loop g keys = Some a ->
                  a <> [] /\
                  exists key' v, In key' (key :: keys) /\
                                 g key' = inr (PStr v) /\ a = strip v).
  { intros H. destruct (IH H) as (Hne & key' & v & Hin & Hg & Ha).
    split; [exact Hne|]. exists key', v. split; [now right | now split]. }
  destruct (g key) as [e | [ | b | z | v | l | d | t]] eqn:Hg; try exact Hrest.
  destruct (strip v) as [|c r] eqn:Hs; [exact Hrest|].
  intros [= <-]. split; [discriminate|].
  exists key, v. split; [now left | now split].
Qed.

Lemma alluredir_loop_none (g : str -> result pyval) (keys : list str) :
  alluredir_loop g keys = None ->
  forall key v, In key keys -> g key = inr (PStr v) -> strip v = [].
Proof.
  induction keys as [|key keys IH]; [contradiction|].
  cbn [alluredir_loop]. intros H key' v [<- | Hin] Hg.
  - rewrite Hg in H. destruct (strip v); [reflexivity | discriminate].
  - apply (IH ltac:(destruct (g key) as [e | [ | b | z | w | l | d | t]];
                     try exact H; destruct (strip w); [exact H | discriminate])
              key' v Hin Hg).
Qed.

Lemma alluredir_if_any_some (a : str) :
  _get_alluredir_if_any config = Some a -> a <> [] /\ strip a = a.
Proof.
  intros E. destruct (alluredir_loop_some _ _ E) as (Hne & key & v & _ & _ & Ha).
  split; [exact Hne|]. rewrite Ha. apply strip_idem.
Qed.

(** X11: what [_get_alluredir_if_any] returns is never empty and has no
    white space around it: it is the stripped value of the option
    [alluredir], or else of [--alluredir], the first of the two that holds
    a text with something other than white space.  It returns [None] only
    when neither does; an option that raises counts as not given. *)
Theorem get_alluredir_if_any_spec :
  match _get_alluredir_if_any config with
  | Some a =>
      a <> [] /\ strip a = a /\
      (exists key v, In key [cps "alluredir"; cps "--alluredir"] /\
                     getoption config key = inr (PStr v) /\ a = strip v) /\
      (forall v, getoption config (cps "alluredir") = inr (PStr v) ->
                 strip v <> [] -> a = strip v)
  | None =>
      forall key v, In key [cps "alluredir"; cps "--alluredir"] ->
                    getoption config key = inr (PStr v) -> strip v = []
  end.
Proof.
  destruct (_get_alluredir_if_any config) as [a|] eqn:E.
  - unfold _get_alluredir_if_any in E.
    destruct (alluredir_loop_some _ _ E) as (Hne & key & v & Hin & Hg & Ha).
    split; [exact Hne|]. split; [rewrite Ha; apply strip_idem|].
    split; [eauto|].
    intros w Hw Hs. cbn [alluredir_loop] in E. rewrite Hw in E.
    destruct (strip w); [congruence | now injection E].
  - apply alluredir_loop_none. exact E.
Qed.

Lemma or_empty_strip_stripped (v : pyval) (s : str) :
  or_empty_strip v = inr s -> strip s = s.
Proof.
  unfold or_empty_strip. destruct (py_or v (PStr [])); try discriminate.
  intros [= <-]. apply strip_idem.
Qed.

Lemma option_text_stripped (k s : str) :
  option_text config k = inr s -> strip s = s.
Proof.
  unfold option_text, bind. destruct (getoption config k); [discriminate|].
  apply or_empty_strip_stripped.
Qed.

(** The three places a results directory comes from, in their order. *)
Lemma get_results_dir_priority (e : str) :
  option_text config (cps "--allure-results-dir") = inr e ->
  _get_results_dir config
  = inr (if negb (str_eqb e []) && negb (str_eqb e (cps "allure-results")) then e
         else match _get_alluredir_if_any config with
              | Some alluredir => alluredir
              | None => cps "allure-results"
              end).
Proof.
  intros He. unfold _get_results_dir, bind. rewrite He.
  destruct e as [|c r].
  - cbn [str_eqb negb andb]. now destruct (_get_alluredir_if_any config).
  - change (str_eqb (c :: r) []) with false. cbn [negb andb].
    destruct (str_eqb (c :: r) (cps "allure-results")) eqn:Hd; cbn [negb];
      [|reflexivity].
    apply str_eqb_eq in Hd. rewrite Hd.
    now destruct (_get_alluredir_if_any config).
Qed.

(** X12: the results directory [_get_results_dir] returns is never empty
    and has no white space around it; the function raises only what
    reading the option [--allure-results-dir] raises. *)
Theorem get_results_dir_spec :
  match _get_results_dir config with
  | inr d => d <> [] /\ strip d = d
  | inl e => option_text config (cps "--allure-results-dir") = inl e
  end.
Proof.
  destruct (option_text config (cps "--allure-results-dir")) as [e | s] eqn:Ho.
  - unfold _get_results_dir, bind. now rewrite Ho.
  - rewrite (get_results_dir_priority Ho).
    destruct (negb (str_eqb s []) && negb (str_eqb s (cps "allure-results"))) eqn:Hs.
    + split; [|now apply option_text_stripped in Ho].
      apply andb_true_iff in Hs as [Hs _]. apply negb_true_iff, str_eqb_neq in Hs.
      exact Hs.
    + destruct (_get_alluredir_if_any config) as [a|] eqn:Ha.
      * now apply alluredir_if_any_some.
      * split; [discriminate | reflexivity].
Qed.

(** X13: a value of [--allure-results-dir] other than the default one
    wins; a blank value and the value [allure-results] both give way to
    the directory of [--alluredir], and only without one does the default
    [allure-results] remain. *)
Theorem results_dir_priority (e : str) :
  option_text config (cps "--allure-results-dir") = inr e ->
  (e <> [] -> e <> cps "allure-results" -> _get_results_dir config = inr e) /\
  (e = [] \/ e = cps "allure-results" ->
   forall a, _get_alluredir_if_any config = Some a ->
             _get_results_dir config = inr a) /\
  (e = [] \/ e = cps "allure-results" ->
   _get_alluredir_if_any config = None ->
   _get_results_dir config = inr (cps "allure-results")).
Proof.
  intros He. rewrite (get_results_dir_priority He). repeat split.
  - intros H1 H2. apply str_eqb_neq in H1, H2. now rewrite H1, H2.
  - intros [-> | ->] a ->; reflexivity.
  - intros [-> | ->] ->; reflexivity.
Qed.

Variable getopt : str -> result pyval.
Variable stats : list (str * stat_value report).

Lemma stats_loop_entries (keys : list str) (out : dict) :
  NoDup keys ->
  (forall k, In k keys -> ~ In k (List.map fst out)) ->
  stats_loop stats keys out
  = out ++ flat_map (fun k => match counted stats k with
                              | Some n => [(k, n)]
                              | None => []
                              end) keys.
Proof.
  revert out. induction keys as [|k keys IH]; intros out Hnd Hfresh.
  - cbn [stats_loop flat_map]. now rewrite app_nil_r.
  - inversion Hnd as [|k' keys' Hk Hnd']; subst.
    cbn [stats_loop flat_map]. unfold counted at 1.
    destruct (dict_get k stats) as [[v | ]|].
    + rewrite IH; [| exact Hnd' |].
      * rewrite dict_set_fresh by (apply Hfresh; now left).
        now rewrite <- app_assoc.
      * intros k2 Hin. rewrite dict_set_fresh by (apply Hfresh; now left).
        rewrite map_app, in_app_iff. cbn [List.map fst In].
        intros [H | [-> | []]]; [|contradiction].
        apply (Hfresh k2); [now right | exact H].
    + apply IH; [exact Hnd'|]. intros k2 Hin. apply Hfresh. now right.
    + apply IH; [exact Hnd'|]. intros k2 Hin. apply Hfresh. now right.
Qed.

Lemma entries_keys (keys : list str) :
  List.map fst (flat_map (fun k => match counted stats k with
                                   | Some n => [(k, n)]
                                   | None => []
                                   end) keys)
  = filter (fun k => match counted stats k with
                     | Some _ => true
                     | None => false
                     end) keys.
Proof.
  induction keys as [|k keys IH]; [reflexivity|].
  cbn [flat_map filter]. rewrite map_app, IH.
  now destruct (counted stats k).
Qed.

Lemma entries_get (keys : list str) (k : str) :
  dict_get k (flat_map (fun k => match counted stats k with
                                 | Some n => [(k, n)]
                                 | None => []
                                 end) keys)
  = if existsb (str_eqb k) keys then counted stats k else None.
Proof.
  induction keys as [|key keys IH]; [reflexivity|].
  cbn [flat_map existsb].
  destruct (str_eqb k key) eqn:E.
  - apply str_eqb_eq in E. subst key. cbn [orb].
    destruct (counted stats k) as [n|] eqn:Hc.
    + cbn [app dict_get]. now rewrite str_eqb_refl.
    + cbn [app]. rewrite IH. now destruct (existsb _ keys).
  - cbn [orb]. destruct (counted stats key) as [n|]; [|exact IH].
    cbn [app dict_get].
    replace (str_eqb key k) with false; [exact IH|].
    symmetry. apply str_eqb_neq. intros ->. now rewrite str_eqb_refl in E.
Qed.

Lemma collect_pytest_stats_entries :
  _collect_pytest_stats (mkConfig getopt (Some (StatsDict stats)))
  = flat_map (fun k => match counted stats k with
                       | Some n => [(k, n)]
                       | None => []
                       end) stat_keys.
Proof.
  unfold _collect_pytest_stats. cbn [terminalreporter].
  rewrite stats_loop_entries; [reflexivity | | intros k _ []].
  apply distinct_NoDup. reflexivity.
Qed.

(** X14: [_collect_pytest_stats] records, for each of the six outcomes
    under which the reporter keeps a list, the length of that list: the
    keys it returns are those outcomes in the order passed, failed,
    skipped, error, xfailed, xpassed; no other key of [stats] is copied,
    and an outcome without a list is left out, not counted as 0. *)
Theorem collect_pytest_stats_counts :
  List.map fst (_collect_pytest_stats (mkConfig getopt (Some (StatsDict stats))))
  = filter (fun k => match counted stats k with
                     | Some _ => true
                     | None => false
                     end) stat_keys /\
  forall k : str,
    dict_get k (_collect_pytest_stats (mkConfig getopt (Some (StatsDict stats))))
    = if existsb (str_eqb k) stat_keys
      then match dict_get k stats with
           | Some (StatList v) => Some (PInt (Z.of_nat (length v)))
           | _ => None
           end
      else None.
Proof.
  rewrite collect_pytest_stats_entries. split.
  - apply entries_keys.
  - intros k. apply entries_get.
Qed.

End OptionFacts.

Lemma collect_pytest_stats_wf (report : Type) (config : Config report) :
  wf_pyval (PDict (_collect_pytest_stats config)) = true.
Proof.
  destruct config as [g [[stats | ]|]]; try reflexivity.
  rewrite collect_pytest_stats_entries. cbn [wf_pyval].
  apply andb_true_iff. split.
  - rewrite entries_keys. apply distinct_NoDup, NoDup_filter.
    apply distinct_NoDup. reflexivity.
  - apply forallb_forall. intros [k x] Hin.
    apply in_flat_map in Hin as (key & Hkey & Hin).
    unfold counted in Hin.
    destruct (dict_get key stats) as [[v | ]|]; try contradiction.
    destruct Hin as [[= <- <-] | []]. cbn [wf_pyval]. rewrite andb_true_r.
    assert (Hs : forallb scalar_str stat_keys = true) by reflexivity.
    rewrite forallb_forall in Hs. now apply Hs.
Qed.

Lemma results_dir_priority_witness :
  option_text Session.config_alluredir (cps "--allure-results-dir")
  = inr (cps "allure-results") /\
  _get_alluredir_if_any Session.config_alluredir = Some (cps "out/") /\
  _get_results_dir Session.config_alluredir = inr (cps "out/").
Proof.
  split; [reflexivity|]. split; [reflexivity|].
  apply (proj1 (proj2 (@results_dir_priority unit Session.config_alluredir
                         (cps "allure-results") eq_refl)));
    [now right | reflexivity].
Defined.

(* ================================================================== *)
(** ** The hook [pytest_sessionfinish] *)
(* ================================================================== *)

(** The paths through the hook, one goal each. *)
Ltac hook_paths :=
  unfold pytest_sessionfinish;
  destruct (getoption _ (cps "--allure-upload")) as [e0 | flag0] eqn:Hflag;
  [| destruct (truthy flag0) eqn:Hon; cbn [negb];
     [ destruct (read_settings _) as [e1 | st0] eqn:Hst;
       [| destruct (set_base_url st0) as [|b0 base0] eqn:Hb;
          [| destruct (set_project st0) as [|p0 proj0] eqn:Hp;
             [| destruct (Path_of_str _) as [rd0|] eqn:Hrd;
                [ destruct (path_exists _ rd0) as [e2 | [|]] eqn:Hex;
                  [ | cbv zeta;
                    destruct (upload _ _ _ _ _ _ _) as [sent0 [[]|res0]] eqn:Hup
                  | ]
                | ]]]]
     | ]].

Section HookFacts.

Local Open Scope N_scope.

Variable report : Type.
Variable config : Config report.
Variable exitstatus : Z.
Variable env : environ.
Variable now : struct_time.
Variable fs : node.
Variable net : transport.

Lemma read_settings_inr (st : settings) :
  read_settings config = inr st ->
  option_text config (cps "--allure-upload-url") = inr (set_base_url st) /\
  option_text config (cps "--allure-upload-project") = inr (set_project st) /\
  (exists tv, getoption config (cps "--allure-upload-timeout") = inr tv /\
              py_float (py_or tv (PInt 60)) = inr (set_timeout st)) /\
  (exists iv, getoption config (cps "--allure-upload-insecure") = inr iv /\
              set_verify_tls st = negb (truthy iv)) /\
  _get_results_dir config = inr (set_results_dir_str st).
Proof.
  unfold read_settings, bind.
  destruct (option_text config (cps "--allure-upload-url")); [discriminate|].
  destruct (option_text config (cps "--allure-upload-project")); [discriminate|].
  destruct (getoption config (cps "--allure-upload-timeout")) as [|tv];
    [discriminate|].
  destruct (py_float _) eqn:Hf; [discriminate|].
  destruct (getoption config (cps "--allure-upload-insecure")) as [|iv];
    [discriminate|].
  destruct (_get_results_dir config); [discriminate|].
  intros [= <-]. cbn. eauto 10.
Qed.

(** X15: an exception of Python's leaves the hook only when reading
    its options raises one, or when the system refuses the hook's look
    at the results directory ([results_dir.exists()], which stands
    outside the [try]: a name too long, a directory on the way that may
    not be searched); both before [session.post] is called.  Whatever
    [upload] raises (no directory, a file the archive cannot take, no
    connection, an HTTP error, an answer that is not the expected JSON)
    is caught, and the hook returns. *)
Theorem hook_raises_before_upload (e : exn) :
  snd (pytest_sessionfinish config exitstatus env now fs net) = inl e ->
  e <> Unmodelled ->
  fst (pytest_sessionfinish config exitstatus env now fs net) = [] /\
  (getoption config (cps "--allure-upload") = inl e \/
   read_settings config = inl e \/
   exists st rd,
     read_settings config = inr st /\
     Path_of_str (set_results_dir_str st) = Some rd /\
     path_exists fs rd = inl e).
Proof.
  hook_paths; cbn [fst snd]; try discriminate;
    try (destruct (set_project st0); discriminate);
    intros [= <-] Hne; try contradiction;
    (split; [reflexivity|]); eauto 10.
Qed.

(** X16: every request the hook sends goes to a project that is not
    empty and has no white space around it, under a base URL option that
    is not empty; it carries the parts [results] and [meta] and never a
    [config] part; its timeout and TLS verification are those of the
    options; and it is the only request of the hook. *)
Theorem hook_request_shape (req : request) :
  In req (fst (pytest_sessionfinish config exitstatus env now fs net)) ->
  exists (base project : str) (tv iv : pyval),
    option_text config (cps "--allure-upload-url") = inr base /\
    base <> [] /\
    option_text config (cps "--allure-upload-project") = inr project /\
    project <> [] /\ strip project = project /\
    getoption config (cps "--allure-upload-timeout") = inr tv /\
    py_float (py_or tv (PInt 60)) = inr (timeout req) /\
    getoption config (cps "--allure-upload-insecure") = inr iv /\
    verify req = negb (truthy iv) /\
    url req = rstrip_slash base ++ cps "/api/v1/projects/" ++ project ++ cps "/runs" /\
    List.map fst (files req) = [cps "results"; cps "meta"] /\
    fst (pytest_sessionfinish config exitstatus env now fs net) = [req].
Proof.
  hook_paths; cbn [fst]; try contradiction;
    try (destruct (set_project st0); contradiction);
    intros Hin;
    match type of Hup with
    | ?u = _ => assert (Hin' : In req (fst u)) by (rewrite Hup; exact Hin)
    end;
    apply upload_sent in Hin' as (a & fl & _ & Hc & Hreq & Hu);
    rewrite Hup in Hu; injection Hu as -> _;
    cbn [add_config] in Hc; injection Hc as <-;
    cbn [init base_url timeout_s verify_tls] in Hreq;
    destruct (read_settings_inr Hst) as (Hbase & Hproj & (tv & Htv & Hto)
                                         & (iv & Hiv & Hver) & _);
    exists (set_base_url st0), (set_project st0), tv, iv;
    rewrite Hreq; cbn [url files timeout verify List.map fst];
    rewrite Hb, Hp in *;
    (split; [exact Hbase|]); (split; [discriminate|]);
    (split; [exact Hproj|]); (split; [discriminate|]);
    (split; [exact (@option_text_stripped _ _ _ _ Hproj)|]);
    (split; [exact Htv|]); (split; [exact Hto|]);
    (split; [exact Hiv|]); (split; [exact Hver|]);
    repeat split.
Qed.

(** X17: the hook calls [session.post] exactly when the option
    [--allure-upload] is on, base URL and project are not empty once
    stripped, the look at the results path finds something there, the
    archiver returns an archive of it, and [json.dumps] takes the
    metadata. *)
Theorem hook_posts_iff (flag : pyval) (st : settings) (rd : path) :
  getoption config (cps "--allure-upload") = inr flag ->
  read_settings config = inr st ->
  Path_of_str (set_results_dir_str st) = Some rd ->
  (fst (pytest_sessionfinish config exitstatus env now fs net) <> [] <->
   truthy flag = true /\ set_base_url st <> [] /\ set_project st <> [] /\
   path_exists fs rd = inr true /\
   (exists a, zip_allure_results fs rd = inr a) /\
   dumps_refusal
     (PDict (dict_set (cps "pytest_stats") (PDict (_collect_pytest_stats config))
               (dict_set (cps "pytest_exitstatus") (PInt exitstatus)
                  (default_meta_from_env env now)))) = None).
Proof.
  intros Hf Hs Hr. unfold pytest_sessionfinish. rewrite Hf.
  destruct (truthy flag); cbn [negb];
    [|cbn [fst]; split; [congruence | intros [[=] _]]].
  rewrite Hs.
  destruct (set_base_url st) as [|b0 base0];
    [cbn [fst]; split; [congruence | intros (_ & H & _); congruence]|].
  destruct (set_project st) as [|p0 proj0];
    [cbn [fst]; split; [congruence | intros (_ & _ & H & _); congruence]|].
  rewrite Hr. destruct (path_exists fs rd) as [e | [|]].
  - cbn [fst]. split; [congruence | intros (_ & _ & _ & [=] & _)].
  - cbv zeta.
    match goal with
    | |- context [upload ?c fs net ?p rd (Some ?m) None] =>
        pose proof (@upload_posts_iff c fs net p rd (Some m)) as Hiff;
        rewrite (meta_or_empty_set (cps "pytest_stats")) in Hiff;
        destruct (upload c fs net p rd (Some m) None) as [sent [[]|res]]
    end; cbn [fst] in *; rewrite Hiff;
      (split; [intros [Hz Hm]; repeat split; (discriminate || assumption)
              | intros (_ & _ & _ & _ & Hz & Hm); now split]).
  - cbn [fst]. split; [congruence | intros (_ & _ & _ & [=] & _)].
Qed.

(** X18: a results path that exists but is not a directory (a regular
    file, say) passes the hook's own check; the client's not-found error
    is then reported under [Allure upload FAILED], and nothing is sent. *)
Theorem hook_results_dir_is_a_file (flag : pyval) (st : settings) (rd : path) :
  getoption config (cps "--allure-upload") = inr flag ->
  truthy flag = true ->
  read_settings config = inr st ->
  set_base_url st <> [] ->
  set_project st <> [] ->
  Path_of_str (set_results_dir_str st) = Some rd ->
  exists_ fs rd = true ->
  is_dir fs rd = false ->
  pytest_sessionfinish config exitstatus env now fs net
  = ([], inr (say (terminalreporter config)
                (failure_lines
                   (FileNotFoundError
                      (cps "allure results dir not found: " ++ as_posix rd))))).
Proof.
  intros Hf Hon Hs Hb Hp Hr Hex Hd. unfold pytest_sessionfinish.
  rewrite Hf, Hon, Hs. cbn [negb].
  destruct (set_base_url st) as [|b0 base0]; [congruence|].
  destruct (set_project st) as [|p0 proj0]; [congruence|].
  assert (Hst : forall e, stat fs rd <> Failed e).
  { intros e He. unfold exists_, lookup in Hex. now rewrite He in Hex. }
  assert (Hpe : path_exists fs rd = inr true).
  { unfold path_exists. rewrite Hex.
    destruct (stat fs rd) as [n | | e]; try reflexivity. now elim (Hst e). }
  rewrite Hr, Hpe. cbv zeta.
  now rewrite upload_missing_results_dir by assumption.
Qed.

End HookFacts.

(** X19: the environment alone starts no upload: in a run whose command
    line gives none of the plugin's options the hook sends nothing and
    writes nothing, whatever the variables [ALLURE_UPLOAD_URL],
    [ALLURE_UPLOAD_PROJECT] and the others hold. *)
Theorem environment_never_uploads (report : Type) (env env' : environ)
    (tr : option (stats_attr report)) (exitstatus : Z) (now : struct_time)
    (fs : node) (net : transport) :
  pytest_sessionfinish (mkConfig (default_of (pytest_addoption env)) tr)
    exitstatus env' now fs net
  = ([], inr []).
Proof. reflexivity. Qed.

Section HookMetadata.

Local Open Scope N_scope.

Variable report : Type.
Variable config : Config report.
Variable exitstatus : Z.
Variable env : environ.
Variable now : struct_time.
Variable fs : node.
Variable net : transport.

Lemma forallb_pairs (d : dict) :
  forallb (fun kv => let '(k, x) := kv in scalar_str k && wf_pyval x) d
  = forallb (fun kv => scalar_str (fst kv)) d
    && forallb (fun kv => wf_pyval (snd kv)) d.
Proof.
  induction d as [|[k x] d IH]; [reflexivity|].
  cbn [forallb fst snd]. rewrite IH.
  destruct (scalar_str k), (wf_pyval x); cbn [andb]; try reflexivity;
    now rewrite andb_false_r.
Qed.

Lemma hook_request_files (req : request) :
  In req (fst (pytest_sessionfinish config exitstatus env now fs net)) ->
  exists a : archive,
    files req
    = [(cps "results", results_part a);
       (cps "meta",
        meta_part
          (default_meta_from_env env now
           ++ [(cps "pytest_exitstatus", PInt exitstatus);
               (cps "pytest_stats", PDict (_collect_pytest_stats config))]))] /\
    dumps_refusal
      (PDict (default_meta_from_env env now
              ++ [(cps "pytest_exitstatus", PInt exitstatus);
                  (cps "pytest_stats", PDict (_collect_pytest_stats config))]))
    = None.
Proof.
  hook_paths; cbn [fst]; try contradiction;
    try (destruct (set_project st0); contradiction);
    intros Hin;
    match type of Hup with
    | ?u = _ => assert (Hin' : In req (fst u)) by (rewrite Hup; exact Hin)
    end;
    pose proof (upload_sent_meta _ _ _ _ _ _ _ _ Hin') as Hm;
    apply upload_sent in Hin' as (a & fl & _ & Hc & Hreq & _);
    cbn [add_config] in Hc; injection Hc as <-;
    exists a; rewrite Hreq; (split; [reflexivity | exact Hm]).
Qed.

(** X20: the metadata of the request the hook sends is the default
    metadata of the environment followed by the exit status of the run
    under [pytest_exitstatus] and the counts of the reporter under
    [pytest_stats]; none of the two replaces a key of the default
    metadata. *)
Theorem hook_metadata (req : request) :
  In req (fst (pytest_sessionfinish config exitstatus env now fs net)) ->
  dict_get (cps "meta") (files req)
  = Some (meta_part
            (default_meta_from_env env now
             ++ [(cps "pytest_exitstatus", PInt exitstatus);
                 (cps "pytest_stats", PDict (_collect_pytest_stats config))])).
Proof.
  intros Hin. destruct (hook_request_files _ Hin) as (a & -> & _). reflexivity.
Qed.

(** X21: when the values of the environment hold Unicode scalar values
    and the clock reading is in range, the metadata document of the
    hook's request is read back by [json.loads] as the metadata itself. *)
Theorem hook_metadata_reads_back (req : request) :
  In req (fst (pytest_sessionfinish config exitstatus env now fs net)) ->
  forallb (fun kv => scalar_str (snd kv)) env = true ->
  gmtime_range now = true ->
  exists doc : str,
    option_map body (dict_get (cps "meta") (files req)) = Some (TextBody doc) /\
    json_loads doc
    = Scanned (PDict (default_meta_from_env env now
                      ++ [(cps "pytest_exitstatus", PInt exitstatus);
                          (cps "pytest_stats",
                           PDict (_collect_pytest_stats config))])).
Proof.
  intros Hin He Ht. destruct (hook_request_files _ Hin) as (a & -> & Hm).
  cbn [dict_get]. change (str_eqb (cps "results") (cps "meta")) with false.
  rewrite str_eqb_refl. cbn [option_map meta_part body].
  eexists. split; [reflexivity|].
  apply json_loads_dumps; [|exact Hm]. cbn [wf_pyval].
  apply andb_true_iff. split; [reflexivity|].
  rewrite forallb_pairs. apply andb_true_iff. split; [reflexivity|].
  rewrite forallb_app, default_meta_wf by assumption.
  cbn [forallb snd andb]. rewrite collect_pytest_stats_wf. reflexivity.
Qed.

End HookMetadata.

(** X15 at a results directory whose name has 300 letters: the look at
    it is refused, and the error leaves the hook. *)
Lemma hook_raises_before_upload_witness :
  snd (pytest_sessionfinish Session.config_long_name 1 Session.env Session.now
         Demo.fs (Demo.answer 200 Demo.json_type Demo.accepted_body))
  = inl OSError /\
  fst (pytest_sessionfinish Session.config_long_name 1 Session.env Session.now
         Demo.fs (Demo.answer 200 Demo.json_type Demo.accepted_body)) = [] /\
  (getoption Session.config_long_name (cps "--allure-upload") = inl OSError \/
   read_settings Session.config_long_name = inl OSError \/
   exists st rd,
     read_settings Session.config_long_name = inr st /\
     Path_of_str (set_results_dir_str st) = Some rd /\
     path_exists Demo.fs rd = inl OSError).
Proof.
  split; [reflexivity|].
  apply (@hook_raises_before_upload unit Session.config_long_name
           1 Session.env Session.now Demo.fs
           (Demo.answer 200 Demo.json_type Demo.accepted_body) OSError);
    [reflexivity | discriminate].
Defined.

Lemma hook_request_shape_witness :
  exists (base project : str) (tv iv : pyval),
    option_text Session.config (cps "--allure-upload-url") = inr base /\
    base <> [] /\
    option_text Session.config (cps "--allure-upload-project") = inr project /\
    project <> [] /\ strip project = project /\
    getoption Session.config (cps "--allure-upload-timeout") = inr tv /\
    py_float (py_or tv (PInt 60)) = inr (timeout Session.hook_request) /\
    getoption Session.config (cps "--allure-upload-insecure") = inr iv /\
    verify Session.hook_request = negb (truthy iv) /\
    url Session.hook_request
    = rstrip_slash base ++ cps "/api/v1/projects/" ++ project ++ cps "/runs" /\
    List.map fst (files Session.hook_request) = [cps "results"; cps "meta"] /\
    fst (pytest_sessionfinish Session.config 1 Session.env Session.now Demo.fs
           (Demo.answer 200 Demo.json_type Demo.accepted_body))
    = [Session.hook_request].
Proof.
  apply (@hook_request_shape unit Session.config 1 Session.env Session.now Demo.fs
           (Demo.answer 200 Demo.json_type Demo.accepted_body)
           Session.hook_request).
  left. reflexivity.
Defined.

(** X17 at a results directory that holds a file of 1970: it is a
    directory, the archiver refuses it, and [session.post] is not
    called. *)
Lemma hook_posts_iff_witness :
  is_dir Demo.fs [cps "old"] = true /\
  zip_allure_results Demo.fs [cps "old"] = inl ValueError /\
  (fst (pytest_sessionfinish Session.config_old 1 Session.env Session.now Demo.fs
          (Demo.answer 200 Demo.json_type Demo.accepted_body))
   <> [] <->
   truthy (PBool true) = true /\
   cps "http://allure.local/" <> [] /\ cps "p1" <> [] /\
   path_exists Demo.fs [cps "old"] = inr true /\
   (exists a, zip_allure_results Demo.fs [cps "old"] = inr a) /\
   dumps_refusal
     (PDict (dict_set (cps "pytest_stats")
               (PDict (_collect_pytest_stats Session.config_old))
               (dict_set (cps "pytest_exitstatus") (PInt 1)
                  (default_meta_from_env Session.env Session.now)))) = None).
Proof.
  split; [reflexivity|]. split; [reflexivity|].
  apply (@hook_posts_iff unit Session.config_old 1 Session.env Session.now Demo.fs
           (Demo.answer 200 Demo.json_type Demo.accepted_body)
           (PBool true)
           (mkSettings (cps "http://allure.local/") (cps "p1") (60 # 1)%Q true
                       (cps "old"))
           [cps "old"]); reflexivity.
Defined.

Lemma hook_results_dir_is_a_file_witness :
  lookup Demo.fs [cps "notes.txt"] = Some (File Demo.plain [x68; x69]) /\
  pytest_sessionfinish Session.config_at_file 1 Session.env Session.now Demo.fs
    (Demo.answer 200 Demo.json_type Demo.accepted_body)
  = ([], inr [write_sep [61%N] (cps "Allure upload FAILED");
              write_line
                [ShownExn (FileNotFoundError
                             (cps "allure results dir not found: notes.txt"))]]).
Proof.
  split; [reflexivity|].
  apply (@hook_results_dir_is_a_file unit Session.config_at_file 1 Session.env
           Session.now Demo.fs
           (Demo.answer 200 Demo.json_type Demo.accepted_body)
           (PBool true)
           (mkSettings (cps "http://allure.local/") (cps "p1") (60 # 1)%Q true
                       (cps "notes.txt"))
           [cps "notes.txt"]);
    try reflexivity; discriminate.
Defined.

Lemma hook_metadata_witness :
  dict_get (cps "meta") (files Session.hook_request)
  = Some (meta_part
            (default_meta_from_env Session.env Session.now
             ++ [(cps "pytest_exitstatus", PInt 1);
                 (cps "pytest_stats", PDict (_collect_pytest_stats Session.config))])).
Proof.
  apply (@hook_metadata unit Session.config 1 Session.env Session.now Demo.fs
           (Demo.answer 200 Demo.json_type Demo.accepted_body)
           Session.hook_request).
  left. reflexivity.
Defined.

Lemma hook_metadata_reads_back_witness :
  default_meta_from_env Session.env Session.now
  ++ [(cps "pytest_exitstatus", PInt 1);
      (cps "pytest_stats", PDict (_collect_pytest_stats Session.config))]
  = Session.meta /\
  exists doc : str,
    option_map body (dict_get (cps "meta") (files Session.hook_request))
    = Some (TextBody doc) /\
    json_loads doc
    = Scanned (PDict (default_meta_from_env Session.env Session.now
                      ++ [(cps "pytest_exitstatus", PInt 1);
                          (cps "pytest_stats",
                           PDict (_collect_pytest_stats Session.config))])).
Proof.
  split; [reflexivity|].
  apply (@hook_metadata_reads_back unit Session.config 1 Session.env Session.now
           Demo.fs (Demo.answer 200 Demo.json_type Demo.accepted_body)
           Session.hook_request); [left|..]; reflexivity.
Defined.
